(** * Traffic-light controller by camera detection: model and properties

    A shallow embedding of the three Python programs of the repository:

    - [sumo_code.py]: the controller that re-selects the green lane every
      30 simulation steps (module [SumoCode]);
    - [traffic_control.py]: the controller with a tracked green lane and a
      green timer (module [TrafficControl]);
    - [vehicle4.py]: the per-lane vehicle counter and the display thread
      that collects the counts (module [Vehicle4]).

    Python integers are unbounded, hence [Z].  A Python [dict] keeps its
    keys in insertion order, and both the tie-break of the phase selector
    and the layout of the written report follow that order, hence a
    dictionary is an association list with unique keys (module [PyDict]).
    The simulation engine, the video decoder and the keyboard are external:
    what they answer at each call is an input of the model, and a call
    into TraCI or OpenCV returns normally unless the program itself
    handles its failure. *)

From Stdlib Require Import ZArith List String Ascii Bool Lia Sorted.
From Stdlib Require Import DecimalString DecimalZ.
Import ListNotations.

Open Scope string_scope.
Open Scope list_scope.
Open Scope Z_scope.

(** ** Python dictionaries, in insertion order *)

Module PyDict.

Section Dict.
Context {V : Type}.

Definition dict : Type := list (string * V).

(** [d[k] = v]: overwrite in place when the key is present, append
    otherwise. *)
Fixpoint setitem (d : dict) (k : string) (v : V) : dict :=
  match d with
  | [] => [(k, v)]
  | (k', v') :: d' =>
      if String.eqb k' k then (k', v) :: d' else (k', v') :: setitem d' k v
  end.

(** [d[k]], with [None] standing for a missing key. *)
Fixpoint getitem (d : dict) (k : string) : option V :=
  match d with
  | [] => None
  | (k', v') :: d' => if String.eqb k' k then Some v' else getitem d' k
  end.

(** [k in d] *)
Definition contains (d : dict) (k : string) : bool :=
  match getitem d k with
  | Some _ => true
  | None => false
  end.

Definition keys (d : dict) : list string := map fst d.
End Dict.

Arguments dict V : clear implicits.

End PyDict.

Import PyDict.

(** ** Python strings *)

Module PyStr.

(** [needle in haystack] *)
Fixpoint is_in (needle haystack : string) : bool :=
  String.prefix needle haystack
  || match haystack with
     | EmptyString => false
     | String _ rest => is_in needle rest
     end.

End PyStr.

Import PyStr.

(** ** The TraCI commands the controllers issue *)

Module Traci.

(** [traci.trafficlight.setPhase(tls, phase)] *)
Inductive action : Type :=
| SetPhase (tls : string) (phase : Z).

End Traci.

Import Traci.

(** ** sumo_code.py *)

Module SumoCode.

Definition LANE_PHASE_MAPPING : dict Z :=
  [("-E0_0", 0); ("E1_0", 2); ("E0_0", 4)].

(** [count_vehicles_per_lane()]; the argument is the engine's answer to
    [traci.lane.getLastStepVehicleNumber]. *)
Definition count_vehicles_per_lane
    (getLastStepVehicleNumber : string -> Z) : dict Z :=
  let lane_counts := [] in
  let lane_counts :=
    setitem lane_counts "-E0_0" (getLastStepVehicleNumber "-E0_0") in
  let lane_counts :=
    setitem lane_counts "E1_0" (getLastStepVehicleNumber "E1_0") in
  let lane_counts :=
    setitem lane_counts "E0_0" (getLastStepVehicleNumber "E0_0") in
  lane_counts.

(** One turn of the [for lane, count in lane_counts.items()] loop on the
    pair [(max_count, max_lane)]. *)
Definition scan_lane (acc : Z * option string) (item : string * Z)
    : Z * option string :=
  let '(max_count, max_lane) := acc in
  let '(lane, count) := item in
  if count >? max_count then (count, Some lane) else (max_count, max_lane).

(** [get_lane_with_max_vehicles(lane_counts)]; [getPhase] is what
    [traci.trafficlight.getPhase("J2")] answers when it is asked. *)
Definition get_lane_with_max_vehicles
    (lane_counts : dict Z) (getPhase : Z) : string :=
  let '(max_count, max_lane) := fold_left scan_lane lane_counts (0, None) in
  match max_lane with
  | None =>
      let current_phase := getPhase in
      if current_phase =? 0 then "E1_0"
      else if current_phase =? 2 then "E0_0"
      else "-E0_0"
  | Some lane => lane
  end.

(** [set_traffic_lights(green_lane)]: the commands sent to the engine. *)
Definition set_traffic_lights (green_lane : string) : list action :=
  match getitem LANE_PHASE_MAPPING green_lane with
  | Some phase => [SetPhase "J2" phase]
  | None => []
  end.

(** What the engine answers during one turn of the main loop. *)
Record tick_env : Type := {
  lane_numbers : string -> Z;
  tls_phase : Z
}.

(** One turn of the [while] loop of [main]: the next value of [step] and
    the commands sent during the turn. *)
Definition loop_body (step : Z) (env : tick_env) : Z * list action :=
  let lane_counts := count_vehicles_per_lane (lane_numbers env) in
  let sent :=
    if step mod 30 =? 0 then
      let priority_lane :=
        get_lane_with_max_vehicles lane_counts (tls_phase env) in
      set_traffic_lights priority_lane
    else [] in
  (step + 1, sent).

(** The loop, for as many turns as the engine still expects vehicles:
    the final [step] and the commands of every turn, in order. *)
Fixpoint main_loop (step : Z) (envs : list tick_env)
    : Z * list (list action) :=
  match envs with
  | [] => (step, [])
  | env :: envs' =>
      let '(step', sent) := loop_body step env in
      let '(final, trace) := main_loop step' envs' in
      (final, sent :: trace)
  end.

Definition main (envs : list tick_env) : Z * list (list action) :=
  main_loop 0 envs.

End SumoCode.

(** ** traffic_control.py *)

Module TrafficControl.

Definition LANE_PHASE_MAPPING : dict Z :=
  [("lane1_0", 0); ("lane2_0", 1); ("lane3_0", 2)].

Definition scan_lane (acc : Z * option string) (item : string * Z)
    : Z * option string :=
  let '(max_count, max_lane) := acc in
  let '(lane, count) := item in
  if count >? max_count then (count, Some lane) else (max_count, max_lane).

(** [get_lane_with_max_vehicles(lane_counts)]; [getPhase] is the answer of
    [traci.trafficlight.getPhase("tls")], [None] when the call raises. *)
Definition get_lane_with_max_vehicles
    (lane_counts : dict Z) (getPhase : option Z) : string :=
  let '(max_count, max_lane) := fold_left scan_lane lane_counts (0, None) in
  let round_robin :=
    match getPhase with
    | Some current_phase =>
        if current_phase =? 0 then "lane2_0"
        else if current_phase =? 1 then "lane3_0"
        else "lane1_0"
    | None => "lane1_0"
    end in
  match max_lane with
  | None => round_robin
  | Some lane => if max_count =? 0 then round_robin else lane
  end.

Definition set_traffic_lights (green_lane : string) : list action :=
  match getitem LANE_PHASE_MAPPING green_lane with
  | Some phase => [SetPhase "tls" phase]
  | None => []
  end.

(** The local variables of [main] that live across the turns of the
    loop. *)
Record loop_state : Type := {
  step : Z;
  green_time : Z;
  current_green_lane : option string
}.

Definition initial_state : loop_state :=
  {| step := 0; green_time := 0; current_green_lane := None |}.

(** What the engine answers during one turn: the mapping returned by
    [count_vehicles_per_lane()] and the phase of the traffic light. *)
Record tick_env : Type := {
  lane_counts : dict Z;
  tls_phase : option Z
}.

(** [priority_lane != current_green_lane] *)
Definition differs (priority_lane : string) (current : option string)
    : bool :=
  match current with
  | Some lane => negb (String.eqb priority_lane lane)
  | None => true
  end.

(** One turn of the [while] loop of [main]. *)
Definition loop_body (s : loop_state) (env : tick_env)
    : loop_state * list action :=
  let '(green_time', current', sent) :=
    if (step s mod 50 =? 0) || (green_time s >=? 50) then
      let priority_lane :=
        get_lane_with_max_vehicles (lane_counts env) (tls_phase env) in
      if differs priority_lane (current_green_lane s) then
        (0, Some priority_lane, set_traffic_lights priority_lane)
      else
        (0, current_green_lane s, [])
    else
      (green_time s, current_green_lane s, []) in
  ({| step := step s + 1;
      green_time := green_time' + 1;
      current_green_lane := current' |}, sent).

(** The state after the given turns. *)
Definition run (s : loop_state) (envs : list tick_env) : loop_state :=
  fold_left (fun s env => fst (loop_body s env)) envs s.

(** The states the loop of [main] can be in at the top of a turn. *)
Definition reachable (s : loop_state) : Prop :=
  exists envs, run initial_state envs = s.

(** The handler of [count_vehicles_per_lane]: the loop over the lanes the
    engine lists.  A query that fails here is not caught: [None]. *)
Fixpoint find_lanes (getLastStepVehicleNumber : string -> option Z)
    (all_lanes : list string) (lane_counts : dict Z) : option (dict Z) :=
  match all_lanes with
  | [] => Some lane_counts
  | lane :: rest =>
      if is_in "lane1" lane then
        match getLastStepVehicleNumber lane with
        | Some n =>
            find_lanes getLastStepVehicleNumber rest
              (setitem lane_counts "lane1_0" n)
        | None => None
        end
      else if is_in "lane2" lane then
        match getLastStepVehicleNumber lane with
        | Some n =>
            find_lanes getLastStepVehicleNumber rest
              (setitem lane_counts "lane2_0" n)
        | None => None
        end
      else if is_in "lane3" lane then
        match getLastStepVehicleNumber lane with
        | Some n =>
            find_lanes getLastStepVehicleNumber rest
              (setitem lane_counts "lane3_0" n)
        | None => None
        end
      else find_lanes getLastStepVehicleNumber rest lane_counts
  end.

(** [count_vehicles_per_lane()].  The engine answers a query for a lane
    with its number of vehicles, or with a [TraCIException], which is
    [None]; [getIDList] is the list of lanes it knows.  The result is
    [None] when an exception leaves the function. *)
Definition count_vehicles_per_lane
    (getLastStepVehicleNumber : string -> option Z)
    (getIDList : list string) : option (dict Z) :=
  let lane_counts := [] in
  match getLastStepVehicleNumber "lane1_0" with
  | None => find_lanes getLastStepVehicleNumber getIDList lane_counts
  | Some n1 =>
      let lane_counts := setitem lane_counts "lane1_0" n1 in
      match getLastStepVehicleNumber "lane2_0" with
      | None => find_lanes getLastStepVehicleNumber getIDList lane_counts
      | Some n2 =>
          let lane_counts := setitem lane_counts "lane2_0" n2 in
          match getLastStepVehicleNumber "lane3_0" with
          | None => find_lanes getLastStepVehicleNumber getIDList lane_counts
          | Some n3 =>
              let lane_counts := setitem lane_counts "lane3_0" n3 in
              Some lane_counts
          end
      end
  end.

(** What the engine answers during one turn of [main]: the queries of
    [count_vehicles_per_lane], the phase asked for the progress line and
    the phase asked by [get_lane_with_max_vehicles]. *)
Record engine_env : Type := {
  vehicle_number : string -> option Z;
  lane_ids : list string;
  phase_printed : option Z;
  phase_selected : option Z
}.

(** One turn of the loop of [main], counting included; [None] when an
    exception of the counting or of the progress line reaches the handler
    of [main] and the run ends.  [traci.simulationStep()] is taken to
    return. *)
Definition main_turn (s : loop_state) (e : engine_env)
    : option (loop_state * list action) :=
  match count_vehicles_per_lane (vehicle_number e) (lane_ids e) with
  | None => None
  | Some counts =>
      let printed :=
        if step s mod 10 =? 0 then
          match phase_printed e with Some _ => true | None => false end
        else true in
      if printed then
        Some (loop_body s
                {| lane_counts := counts; tls_phase := phase_selected e |})
      else None
  end.

(** The loop of [main]: the last state and the commands of every turn, up
    to the end of the simulation or the first exception. *)
Fixpoint main_loop (s : loop_state) (envs : list engine_env)
    : loop_state * list (list action) :=
  match envs with
  | [] => (s, [])
  | e :: envs' =>
      match main_turn s e with
      | None => (s, [])
      | Some (s', sent) =>
          let '(final, trace) := main_loop s' envs' in
          (final, sent :: trace)
      end
  end.

Definition main (envs : list engine_env) : loop_state * list (list action) :=
  main_loop initial_state envs.

End TrafficControl.

(** ** vehicle4.py *)

Module Vehicle4.

Definition min_width_rect : Z := 80.
Definition min_height_rect : Z := 80.
Definition count_line_position : Z := 550.
Definition offset : Z := 6.
Definition cooldown_frames : Z := 15.

(** [center_handle(x, y, w, h)].  [int(w / 2)] divides as a float and
    truncates towards zero, which is [Z.quot] on the integers a bounding
    box is made of. *)
Definition center_handle (x y w h : Z) : Z * Z :=
  let x1 := Z.quot w 2 in
  let y1 := Z.quot h 2 in
  let cx := x + x1 in
  let cy := y + y1 in
  (cx, cy).

(** A bounding box [(x, y, w, h)], as [cv2.boundingRect] returns it. *)
Definition rect : Type := Z * Z * Z * Z.

(** The size filter of the first loop over the contours. *)
Definition accepted_rect (r : rect) : bool :=
  let '(x, y, w, h) := r in
  (w >=? min_width_rect) && (h >=? min_height_rect).

(** The first loop over the contours of a frame: the list [centers]. *)
Definition collect_centers (counterShape : list rect) : list (Z * Z) :=
  fold_left
    (fun centers r =>
       let '(x, y, w, h) := r in
       if (w >=? min_width_rect) && (h >=? min_height_rect)
       then centers ++ [center_handle x y w h]
       else centers)
    counterShape [].

(** An entry of [recently_counted]: a center and the frame it was counted
    in. *)
Definition crossing : Type := (Z * Z) * Z.

(** The test of line 78: the center lies in the band around the line. *)
Definition on_line (center : Z * Z) : bool :=
  let '(cx, cy) := center in
  Z.abs (cy - count_line_position) <? offset.

(** The test of line 81 against one earlier crossing. *)
Definition same_vehicle (center : Z * Z) (frame_idx : Z) (prev : crossing)
    : bool :=
  let '(cx, cy) := center in
  let '(prev_center, prev_frame) := prev in
  (Z.abs (cx - fst prev_center) <? 30)
  && (Z.abs (cy - snd prev_center) <? 30)
  && (frame_idx - prev_frame <? cooldown_frames).

(** The inner loop with its [break]: the flag [already_counted]. *)
Definition already_counted
    (recently_counted : list crossing) (center : Z * Z) (frame_idx : Z)
    : bool :=
  existsb (same_vehicle center frame_idx) recently_counted.

(** One turn of the second loop, on [(recently_counted, counter)]. *)
Definition count_center (frame_idx : Z) (acc : list crossing * Z)
    (center : Z * Z) : list crossing * Z :=
  let '(recently_counted, counter) := acc in
  if on_line center then
    if already_counted recently_counted center frame_idx then acc
    else (recently_counted ++ [(center, frame_idx)], counter + 1)
  else acc.

(** The list comprehension of line 90. *)
Definition prune (frame_idx : Z) (recently_counted : list crossing)
    : list crossing :=
  filter (fun cf => frame_idx - snd cf <? cooldown_frames) recently_counted.

(** The variables of [vehicle_counter] that live across frames. *)
Record counter_state : Type := {
  recently_counted : list crossing;
  counter : Z;
  frame_idx : Z
}.

Definition initial_counter : counter_state :=
  {| recently_counted := []; counter := 0; frame_idx := 0 |}.

(** The second loop of the body and the pruning that follows it, on the
    centers found in frame [frame_idx]. *)
Definition count_crossings (st : counter_state) (frame_idx : Z)
    (centers : list (Z * Z)) : counter_state :=
  let '(recently_counted, counter) :=
    fold_left (count_center frame_idx) centers
              (recently_counted st, counter st) in
  let recently_counted := prune frame_idx recently_counted in
  {| recently_counted := recently_counted;
     counter := counter;
     frame_idx := frame_idx |}.

(** The body of the reading loop on one frame that was read, the frame
    being given by the bounding boxes of its contours. *)
Definition process_frame (st : counter_state) (counterShape : list rect)
    : counter_state :=
  let frame_idx := frame_idx st + 1 in
  let centers := collect_centers counterShape in
  count_crossings st frame_idx centers.

(** A rendered frame, named by the index of the frame it shows. *)
Definition image : Type := Z.

(** What travels through [count_queue]: [(window_name, frame, counter)],
    with [None] as frame in the final item of a lane. *)
Definition item : Type := string * option image * Z.

Definition item_lane (it : item) : string := fst (fst it).
Definition item_frame (it : item) : option image := snd (fst it).
Definition item_counter (it : item) : Z := snd it.

(** What a counter thread does that others can see. *)
Inductive effect : Type :=
| Put (it : item)
| Release.

(** The reading loop.  The video is the list of its frames; each comes
    with what [stop_event.is_set()] answers before it is read, and
    [cap.read()] fails once the list is exhausted. *)
Fixpoint reading_loop (window_name : string) (st : counter_state)
    (stream : list (bool * list rect)) : list effect * counter_state :=
  match stream with
  | [] => ([], st)
  | (stop_is_set, counterShape) :: rest =>
      if stop_is_set then ([], st)
      else
        let st' := process_frame st counterShape in
        let '(effects, final) := reading_loop window_name st' rest in
        (Put (window_name, Some (frame_idx st'), counter st') :: effects,
         final)
  end.

(** [vehicle_counter(video_path, window_name, count_queue, stop_event)] *)
Definition vehicle_counter (path_exists is_opened : bool)
    (window_name : string) (stream : list (bool * list rect))
    : list effect :=
  if negb path_exists then [Put (window_name, None, 0)]
  else if negb is_opened then [Put (window_name, None, 0)]
  else
    let '(effects, final) :=
      reading_loop window_name initial_counter stream in
    effects ++ [Release; Put (window_name, None, counter final)].

(** The display thread.  [taken] is not a variable of the program: it
    records the items [count_queue.get] has returned so far. *)
Record display_state : Type := {
  windows : list string;
  final_counts : dict Z;
  count_queue : list item;
  taken : list item
}.

(** What happens around one turn of the display loop: the items the
    counter threads have put since the last turn, the key [cv2.waitKey]
    reports, and whether [stop_event] is found set. *)
Record display_env : Type := {
  arrivals : list item;
  waitKey : Z;
  stop_is_set : bool
}.

Inductive turn : Type :=
| Next (st : display_state)
| Break (st : display_state) (written : dict Z) (discarded : list item).

Definition in_windows (windows : list string) (window_name : string)
    : bool :=
  existsb (String.eqb window_name) windows.

(** One turn of [while windows:]. *)
Definition display_turn (st : display_state) (env : display_env) : turn :=
  match count_queue st ++ arrivals env with
  | [] =>
      if stop_is_set env then
        Break {| windows := [];
                 final_counts := final_counts st;
                 count_queue := [];
                 taken := taken st |}
              (final_counts st) []
      else Next st
  | (window_name, frame, counter) :: rest =>
      let taken := taken st ++ [(window_name, frame, counter)] in
      match frame with
      | None =>
          if in_windows (windows st) window_name then
            Next {| windows := remove string_dec window_name (windows st);
                    final_counts :=
                      setitem (final_counts st) window_name counter;
                    count_queue := rest;
                    taken := taken |}
          else
            Next {| windows := windows st;
                    final_counts := final_counts st;
                    count_queue := rest;
                    taken := taken |}
      | Some _ =>
          let final_counts :=
            setitem (final_counts st) window_name counter in
          let key := Z.land (waitKey env) 255 in
          if (key =? 122) || (key =? 90) then
            Break {| windows := [];
                     final_counts := final_counts;
                     count_queue := [];
                     taken := taken |}
                  final_counts rest
          else
            Next {| windows := windows st;
                    final_counts := final_counts;
                    count_queue := rest;
                    taken := taken |}
      end
  end.

(** How the display thread ends: the loop ran out of windows, it broke
    out after writing the report, or it is still waiting. *)
Inductive display_result : Type :=
| AllClosed (st : display_state)
| Cancelled (st : display_state) (written : dict Z) (discarded : list item)
| Waiting (st : display_state).

Fixpoint display_loop (st : display_state) (envs : list display_env)
    : display_result :=
  match windows st with
  | [] => AllClosed st
  | _ :: _ =>
      match envs with
      | [] => Waiting st
      | env :: envs' =>
          match display_turn st env with
          | Next st' => display_loop st' envs'
          | Break st' written discarded => Cancelled st' written discarded
          end
      end
  end.

(** [display_frames(count_queue, lane_list, stop_event)] *)
Definition display_frames (lane_list : list string)
    (envs : list display_env) : display_result :=
  display_loop
    {| windows := nodup string_dec lane_list;
       final_counts :=
         fold_left (fun d lane => setitem d lane 0) lane_list [];
       count_queue := [];
       taken := [] |}
    envs.

(** [str(n)] for an integer. *)
Definition str (n : Z) : string := NilEmpty.string_of_int (Z.to_int n).

Definition newline : string := String (ascii_of_nat 10) EmptyString.

(** The three double quotes that open and close the table. *)
Definition docstring_quotes : string :=
  String (ascii_of_nat 34)
    (String (ascii_of_nat 34) (String (ascii_of_nat 34) EmptyString)).

Fixpoint spaces (n : nat) : string :=
  match n with
  | O => EmptyString
  | S n' => String " " (spaces n')
  end.

(** [f"{s:<width}"] *)
Definition ljust (s : string) (width : nat) : string :=
  s ++ spaces (width - String.length s).

(** The string written for an entry by the first loop of
    [write_counts_table]. *)
Definition table_row (entry : string * Z) : string :=
  let '(lane, count) := entry in
  ljust lane 12 ++ "| " ++ str count ++ newline.

(** The string written for an entry by its second loop. *)
Definition dict_row (entry : string * Z) : string :=
  let '(lane, count) := entry in
  "    '" ++ lane ++ "': " ++ str count ++ "," ++ newline.

(** [write_counts_table(final_counts)] when the file can be written: the
    strings passed to [f.write], in order. *)
Definition write_counts_table (final_counts : dict Z) : list string :=
  [(docstring_quotes ++ newline)%string;
   ("Lane        | Vehicle Count" ++ newline)%string;
   ("------------|--------------" ++ newline)%string]
  ++ map table_row final_counts
  ++ [(docstring_quotes ++ newline)%string;
      (newline ++ "lane_counts = {" ++ newline)%string]
  ++ map dict_row final_counts
  ++ [("}" ++ newline)%string].

(** What [display_frames] writes to the report file: it calls
    [write_counts_table(final_counts)] in the two branches that break out
    of the loop, and nowhere else. *)
Definition report_written (result : display_result) : option (list string) :=
  match result with
  | Cancelled _ final_counts _ => Some (write_counts_table final_counts)
  | AllClosed _ => None
  | Waiting _ => None
  end.

End Vehicle4.

(** ** Vocabulary of the statements *)

Module Spec.

(** The lane that follows [lane] in the cyclic order [cycle], [first]
    being the lane the order starts with. *)
Fixpoint next_in (first : string) (cycle : list string) (lane : string)
    : option string :=
  match cycle with
  | [] => None
  | l :: rest =>
      if String.eqb l lane then
        Some (match rest with [] => first | l' :: _ => l' end)
      else next_in first rest lane
  end.

(** The lane after [lane] in the cyclic order of the keys of a lane to
    phase mapping. *)
Definition next_lane (mapping : dict Z) (lane : string) : option string :=
  match keys mapping with
  | [] => None
  | first :: _ => next_in first (keys mapping) lane
  end.

(** The lane a [setPhase] command turns green, read back from a lane to
    phase mapping. *)
Definition lane_of_phase (mapping : dict Z) (phase : Z) : option string :=
  match find (fun kv => snd kv =? phase) mapping with
  | Some kv => Some (fst kv)
  | None => None
  end.

(** The lane that the commands sent so far, turn after turn, have left
    green: the lane of the most recent command. *)
Definition green_after (mapping : dict Z) (trace : list (list action))
    : option string :=
  fold_left
    (fun green sent =>
       fold_left
         (fun _ a => match a with SetPhase _ p => lane_of_phase mapping p end)
         sent green)
    trace None.

(** The gate on one turn of [traffic_control.py], in the words of the
    specification: a command is sent only if the selected lane differs
    from the lane that is green and the green timer has reached the
    minimum of 50. *)
Definition gated_turn (s : TrafficControl.loop_state)
    (env : TrafficControl.tick_env) : Prop :=
  snd (TrafficControl.loop_body s env) <> [] ->
  TrafficControl.differs
    (TrafficControl.get_lane_with_max_vehicles
       (TrafficControl.lane_counts env) (TrafficControl.tls_phase env))
    (TrafficControl.current_green_lane s) = true
  /\ 50 <= TrafficControl.green_time s.

(** The same gate on one turn of [sumo_code.py], after the commands of
    [trace]: a command is sent only if the selected lane is not the one
    the earlier commands left green. *)
Definition gated_turn_sumo (trace : list (list action)) (step : Z)
    (env : SumoCode.tick_env) : Prop :=
  snd (SumoCode.loop_body step env) <> [] ->
  green_after SumoCode.LANE_PHASE_MAPPING trace
    <> Some (SumoCode.get_lane_with_max_vehicles
               (SumoCode.count_vehicles_per_lane (SumoCode.lane_numbers env))
               (SumoCode.tls_phase env)).

(** The size test in the words of the specification: width and height
    each exceed the minimum. *)
Definition exceeds_minimums (r : Vehicle4.rect) : Prop :=
  let '(x, y, w, h) := r in
  Vehicle4.min_width_rect < w /\ Vehicle4.min_height_rect < h.

(** The center of a bounding box. *)
Definition center_of (r : Vehicle4.rect) : Z * Z :=
  let '(x, y, w, h) := r in Vehicle4.center_handle x y w h.

(** The counter state after a run of frames, each given by its centers. *)
Definition run_frames (st : Vehicle4.counter_state)
    (frames : list (list (Z * Z))) : Vehicle4.counter_state :=
  fold_left
    (fun st centers =>
       Vehicle4.count_crossings st (Vehicle4.frame_idx st + 1) centers)
    frames st.

(** Two centers lie within the 30 pixel box of each other. *)
Definition close_by (c2 c1 : Z * Z) : bool :=
  (Z.abs (fst c2 - fst c1) <? 30) && (Z.abs (snd c2 - snd c1) <? 30).

(** The counts a counter thread has published, in order. *)
Definition published (effects : list Vehicle4.effect) : list Z :=
  flat_map
    (fun e =>
       match e with
       | Vehicle4.Put it => [Vehicle4.item_counter it]
       | Vehicle4.Release => []
       end)
    effects.

(** The frames a counter thread gets to read: those before the stop event
    is first seen. *)
Fixpoint frames_read (stream : list (bool * list Vehicle4.rect))
    : list (list Vehicle4.rect) :=
  match stream with
  | [] => []
  | (stop_is_set, counterShape) :: rest =>
      if stop_is_set then [] else counterShape :: frames_read rest
  end.

(** The number of centers of a frame that are accepted as crossings, each
    one judged against the history as the earlier ones have left it. *)
Fixpoint accepted_crossings (frame_idx : Z)
    (recently : list Vehicle4.crossing) (centers : list (Z * Z)) : Z :=
  match centers with
  | [] => 0
  | center :: rest =>
      if Vehicle4.on_line center
         && negb (Vehicle4.already_counted recently center frame_idx)
      then 1 + accepted_crossings frame_idx
                 (recently ++ [(center, frame_idx)]) rest
      else accepted_crossings frame_idx recently rest
  end.

(** The items a counter thread publishes for the frames it reads, from
    the state [st] on. *)
Fixpoint frame_items (window_name : string) (st : Vehicle4.counter_state)
    (frames : list (list Vehicle4.rect)) : list Vehicle4.item :=
  match frames with
  | [] => []
  | counterShape :: rest =>
      let st' := Vehicle4.process_frame st counterShape in
      (window_name, Some (Vehicle4.frame_idx st'), Vehicle4.counter st')
      :: frame_items window_name st' rest
  end.

(** The count of the last item of [lane] among the items the display
    thread has taken, 0 when there is none. *)
Definition last_observed (lane : string) (taken : list Vehicle4.item) : Z :=
  fold_left
    (fun last it =>
       if String.eqb (Vehicle4.item_lane it) lane
       then Vehicle4.item_counter it else last)
    taken 0.

(** No lane has two final items among the items taken: what the counter
    threads guarantee, each publishing its final item once. *)
Definition single_sentinel (taken : list Vehicle4.item) : Prop :=
  forall before it after it',
    taken = before ++ it :: after ->
    Vehicle4.item_frame it = None ->
    In it' after ->
    Vehicle4.item_frame it' = None ->
    Vehicle4.item_lane it' <> Vehicle4.item_lane it.

(** One step of following what the display thread does with the items of
    [lane]: whether the final item of the lane has been acted on, and the
    count last recorded for the lane.  Every frame of the lane is recorded,
    and so is its first final item; a further final item is passed over. *)
Definition follow_lane (lane : string) (acc : bool * Z) (it : Vehicle4.item)
    : bool * Z :=
  let '(closed, last) := acc in
  if String.eqb (Vehicle4.item_lane it) lane then
    match Vehicle4.item_frame it with
    | Some _ => (closed, Vehicle4.item_counter it)
    | None =>
        if closed then (closed, last) else (true, Vehicle4.item_counter it)
    end
  else acc.

(** Whether the final item of [lane] is among the items taken. *)
Definition closed_after (lane : string) (taken : list Vehicle4.item) : bool :=
  fst (fold_left (follow_lane lane) taken (false, 0)).

(** The count of the last item of [lane] that the display thread acted on,
    0 when there is none. *)
Definition last_processed (lane : string) (taken : list Vehicle4.item) : Z :=
  snd (fold_left (follow_lane lane) taken (false, 0)).

(** What the display loop maintains, [arrived] being the items put on the
    queue so far: taken and queued items make up the arrivals; the counts
    have one entry per key and an entry for every lane of [lane_list]; the
    window of a lane is open until its final item is taken; and the entry
    of a lane is the count of its last item acted on. *)
Definition display_invariant (lane_list : list string)
    (arrived : list Vehicle4.item) (st : Vehicle4.display_state) : Prop :=
  Vehicle4.taken st ++ Vehicle4.count_queue st = arrived
  /\ NoDup (keys (Vehicle4.final_counts st))
  /\ (forall lane,
        In lane lane_list -> In lane (keys (Vehicle4.final_counts st)))
  /\ (forall lane,
        In lane lane_list ->
        (In lane (Vehicle4.windows st)
         <-> closed_after lane (Vehicle4.taken st) = false))
  /\ (forall lane,
        In lane lane_list ->
        getitem (Vehicle4.final_counts st) lane
          = Some (last_processed lane (Vehicle4.taken st))).

(** The items among the effects of a counter thread. *)
Definition put_items (effects : list Vehicle4.effect) : list Vehicle4.item :=
  flat_map
    (fun e =>
       match e with
       | Vehicle4.Put it => [it]
       | Vehicle4.Release => []
       end)
    effects.

(** The items of one lane among those that arrived on the queue. *)
Definition of_lane (lane : string) (arrived : list Vehicle4.item)
    : list Vehicle4.item :=
  filter (fun it => String.eqb (Vehicle4.item_lane it) lane) arrived.

(** The key under which the handler of [count_vehicles_per_lane] of
    [traffic_control.py] stores the number of a listed lane: the first of
    the three names the lane contains, if any. *)
Definition lane_key (lane : string) : option string :=
  if is_in "lane1" lane then Some "lane1_0"
  else if is_in "lane2" lane then Some "lane2_0"
  else if is_in "lane3" lane then Some "lane3_0"
  else None.

(** The last listed lane whose number is stored under [key]. *)
Definition last_lane_for (key : string) (all_lanes : list string)
    : option string :=
  find
    (fun lane =>
       match lane_key lane with
       | Some k => String.eqb k key
       | None => false
       end)
    (rev all_lanes).

(** No command repeats the one sent just before it, [prev] being the
    command before the first. *)
Fixpoint no_repeat (prev : option action) (commands : list action) : Prop :=
  match commands with
  | [] => True
  | c :: rest => Some c <> prev /\ no_repeat (Some c) rest
  end.

(** The command that makes [lane] green, [None] when no lane is green yet
    or the lane has no phase. *)
Definition command_for (mapping : dict Z) (tls : string)
    (lane : option string) : option action :=
  match lane with
  | Some l =>
      match getitem mapping l with
      | Some p => Some (SetPhase tls p)
      | None => None
      end
  | None => None
  end.

(** The count a counter thread ends on: that of its last frame, or 0 when
    the video is missing or cannot be opened. *)
Definition worker_final (path_exists is_opened : bool)
    (stream : list (bool * list Vehicle4.rect)) : Z :=
  if path_exists && is_opened then
    Vehicle4.counter
      (fold_left Vehicle4.process_frame (frames_read stream)
         Vehicle4.initial_counter)
  else 0.

(** Whether the character [c] occurs in [s]. *)
Fixpoint has_char (c : ascii) (s : string) : bool :=
  match s with
  | EmptyString => false
  | String a rest => Ascii.eqb a c || has_char c rest
  end.

End Spec.

(** * Properties *)

(** ** The phase selector *)

Section Scan.

(** The scan keeps the first item whose count beats everything before it
    and is not beaten after; when no count exceeds the starting value the
    accumulator comes back unchanged. *)
Lemma scan_lane_fold (lane_counts : dict Z) :
  forall (max_count : Z) (max_lane : option string),
    (fold_left SumoCode.scan_lane lane_counts (max_count, max_lane)
       = (max_count, max_lane)
     /\ forall kv, In kv lane_counts -> snd kv <= max_count)
    \/ exists before lane count after,
         lane_counts = before ++ (lane, count) :: after
         /\ max_count < count
         /\ (forall kv, In kv before -> snd kv < count)
         /\ (forall kv, In kv after -> snd kv <= count)
         /\ fold_left SumoCode.scan_lane lane_counts (max_count, max_lane)
              = (count, Some lane).
Proof.
  induction lane_counts as [|[lane count] rest IH]; intros max_count max_lane.
  - left. split; [reflexivity | intros kv []].
  - cbn [fold_left SumoCode.scan_lane].
    destruct (count >? max_count) eqn:Hgt.
    + apply Z.gtb_lt in Hgt.
      right.
      destruct (IH count (Some lane))
        as [[Hfold Hle] | (before & lane' & count' & after & Hsplit & Hlt
                           & Hbefore & Hafter & Hfold)].
      * exists [], lane, count, rest.
        repeat split; auto. intros kv [].
      * exists ((lane, count) :: before), lane', count', after.
        repeat split; auto.
        -- rewrite Hsplit. reflexivity.
        -- lia.
        -- intros kv [<- | Hin]; [exact Hlt | auto].
    + assert (Hle : count <= max_count).
      { destruct (Z.gtb_spec count max_count); [discriminate | assumption]. }
      destruct (IH max_count max_lane)
        as [[Hfold Hall] | (before & lane' & count' & after & Hsplit & Hlt
                            & Hbefore & Hafter & Hfold)].
      * left. split; [exact Hfold |].
        intros kv [<- | Hin]; [exact Hle | auto].
      * right.
        exists ((lane, count) :: before), lane', count', after.
        repeat split; auto.
        -- rewrite Hsplit. reflexivity.
        -- intros kv [<- | Hin]; [simpl; lia | auto].
Qed.

(** Some count is positive: the scan ends on the first maximum. *)
Lemma scan_lane_positive (lane_counts : dict Z) :
  (exists lane count, In (lane, count) lane_counts /\ 0 < count) ->
  exists before lane count after,
    lane_counts = before ++ (lane, count) :: after
    /\ 0 < count
    /\ (forall kv, In kv before -> snd kv < count)
    /\ (forall kv, In kv after -> snd kv <= count)
    /\ fold_left SumoCode.scan_lane lane_counts (0, None)
         = (count, Some lane).
Proof.
  intros (lane0 & count0 & Hin & Hpos).
  destruct (scan_lane_fold lane_counts 0 None) as [[_ Hall] | Hfound].
  - apply Hall in Hin. simpl in Hin. lia.
  - exact Hfound.
Qed.

(** No count is positive: the scan finds nothing. *)
Lemma scan_lane_none (lane_counts : dict Z) :
  (forall lane count, In (lane, count) lane_counts -> count <= 0) ->
  fold_left SumoCode.scan_lane lane_counts (0, None) = (0, None).
Proof.
  intros Hall.
  destruct (scan_lane_fold lane_counts 0 None)
    as [[Hfold _] | (before & lane & count & after & Hsplit & Hlt & _)].
  - exact Hfold.
  - assert (Hin : In (lane, count) lane_counts).
    { rewrite Hsplit. apply in_or_app. right. left. reflexivity. }
    apply Hall in Hin. lia.
Qed.

(** Both programs scan with the same loop body. *)
Lemma scan_lane_same :
  TrafficControl.scan_lane = SumoCode.scan_lane.
Proof. reflexivity. Qed.

End Scan.

(** C1.  When some lane has a strictly positive count, both versions of
    [get_lane_with_max_vehicles] return the lane at the first position of
    the iteration order that holds the maximum count: every earlier count
    is strictly smaller, every later count is at most equal, and a later
    equal count does not replace it. *)
Theorem C1_first_maximum_wins :
  forall lane_counts : dict Z,
    (exists lane count, In (lane, count) lane_counts /\ 0 < count) ->
    exists before lane count after,
      lane_counts = before ++ (lane, count) :: after
      /\ 0 < count
      /\ (forall kv, In kv before -> snd kv < count)
      /\ (forall kv, In kv after -> snd kv <= count)
      /\ (forall phase,
            SumoCode.get_lane_with_max_vehicles lane_counts phase = lane)
      /\ (forall phase,
            TrafficControl.get_lane_with_max_vehicles lane_counts phase
              = lane).
Proof.
  intros lane_counts Hpos.
  destruct (scan_lane_positive lane_counts Hpos)
    as (before & lane & count & after & Hsplit & Hcount & Hbefore & Hafter
        & Hfold).
  exists before, lane, count, after.
  repeat split; try assumption.
  - intros phase. unfold SumoCode.get_lane_with_max_vehicles.
    rewrite Hfold. reflexivity.
  - intros phase. unfold TrafficControl.get_lane_with_max_vehicles.
    rewrite scan_lane_same, Hfold.
    destruct (Z.eqb_spec count 0) as [Hzero | _]; [lia | reflexivity].
Qed.

(** The two examples of the specification, on the counts [{A:5, B:3, C:3}]:
    the answer of C1 at that input. *)
Lemma C1_first_maximum_wins_witness :
  exists before lane count after,
    [("A", 5); ("B", 3); ("C", 3)] = before ++ (lane, count) :: after
    /\ 0 < count
    /\ (forall kv, In kv before -> snd kv < count)
    /\ (forall kv, In kv after -> snd kv <= count)
    /\ (forall phase,
          SumoCode.get_lane_with_max_vehicles
            [("A", 5); ("B", 3); ("C", 3)] phase = lane)
    /\ (forall phase,
          TrafficControl.get_lane_with_max_vehicles
            [("A", 5); ("B", 3); ("C", 3)] phase = lane).
Proof.
  apply (C1_first_maximum_wins [("A", 5); ("B", 3); ("C", 3)]).
  exists "A", 5. split; [simpl; auto | lia].
Defined.

Example tie_break_A :
  forall phase,
    SumoCode.get_lane_with_max_vehicles [("A", 5); ("B", 3); ("C", 3)] phase
      = "A"
    /\ TrafficControl.get_lane_with_max_vehicles
         [("A", 5); ("B", 3); ("C", 3)] (Some phase) = "A".
Proof. intros phase. split; reflexivity. Qed.

Example tie_break_B :
  forall phase,
    SumoCode.get_lane_with_max_vehicles [("A", 3); ("B", 5); ("C", 5)] phase
      = "B"
    /\ TrafficControl.get_lane_with_max_vehicles
         [("A", 3); ("B", 5); ("C", 5)] (Some phase) = "B".
Proof. intros phase. split; reflexivity. Qed.

(** C3.  When no lane has a strictly positive count, the selection depends
    on the current phase only: phase 0 gives the second lane, the phase of
    the second lane gives the third, any other phase gives the first.  On
    the phase that grants green to a lane, the selection is the lane that
    follows it in the cyclic order of the mapping, and never the lane
    itself. *)
Theorem C3_round_robin_fallback :
  forall lane_counts : dict Z,
    (forall lane count, In (lane, count) lane_counts -> count <= 0) ->
    (forall phase,
       SumoCode.get_lane_with_max_vehicles lane_counts phase
         = if phase =? 0 then "E1_0"
           else if phase =? 2 then "E0_0" else "-E0_0")
    /\ (forall phase,
          TrafficControl.get_lane_with_max_vehicles lane_counts (Some phase)
            = if phase =? 0 then "lane2_0"
              else if phase =? 1 then "lane3_0" else "lane1_0")
    /\ (forall lane phase,
          getitem SumoCode.LANE_PHASE_MAPPING lane = Some phase ->
          Spec.next_lane SumoCode.LANE_PHASE_MAPPING lane
            = Some (SumoCode.get_lane_with_max_vehicles lane_counts phase)
          /\ SumoCode.get_lane_with_max_vehicles lane_counts phase <> lane)
    /\ (forall lane phase,
          getitem TrafficControl.LANE_PHASE_MAPPING lane = Some phase ->
          Spec.next_lane TrafficControl.LANE_PHASE_MAPPING lane
            = Some (TrafficControl.get_lane_with_max_vehicles
                      lane_counts (Some phase))
          /\ TrafficControl.get_lane_with_max_vehicles
               lane_counts (Some phase) <> lane).
Proof.
  intros lane_counts Hnone.
  pose proof (scan_lane_none lane_counts Hnone) as Hfold.
  assert (Hsumo : forall phase,
            SumoCode.get_lane_with_max_vehicles lane_counts phase
              = if phase =? 0 then "E1_0"
                else if phase =? 2 then "E0_0" else "-E0_0").
  { intros phase. unfold SumoCode.get_lane_with_max_vehicles.
    rewrite Hfold. reflexivity. }
  assert (Htc : forall phase,
            TrafficControl.get_lane_with_max_vehicles lane_counts (Some phase)
              = if phase =? 0 then "lane2_0"
                else if phase =? 1 then "lane3_0" else "lane1_0").
  { intros phase. unfold TrafficControl.get_lane_with_max_vehicles.
    rewrite scan_lane_same, Hfold. reflexivity. }
  split; [exact Hsumo |]. split; [exact Htc |]. split.
  - intros lane phase Hmap. rewrite Hsumo.
    unfold SumoCode.LANE_PHASE_MAPPING in *. cbn [getitem] in Hmap.
    destruct (String.eqb_spec "-E0_0" lane) as [<- | _];
      [injection Hmap as <-; split; [reflexivity | discriminate] |].
    destruct (String.eqb_spec "E1_0" lane) as [<- | _];
      [injection Hmap as <-; split; [reflexivity | discriminate] |].
    destruct (String.eqb_spec "E0_0" lane) as [<- | _];
      [injection Hmap as <-; split; [reflexivity | discriminate] |].
    discriminate.
  - intros lane phase Hmap. rewrite Htc.
    unfold TrafficControl.LANE_PHASE_MAPPING in *. cbn [getitem] in Hmap.
    destruct (String.eqb_spec "lane1_0" lane) as [<- | _];
      [injection Hmap as <-; split; [reflexivity | discriminate] |].
    destruct (String.eqb_spec "lane2_0" lane) as [<- | _];
      [injection Hmap as <-; split; [reflexivity | discriminate] |].
    destruct (String.eqb_spec "lane3_0" lane) as [<- | _];
      [injection Hmap as <-; split; [reflexivity | discriminate] |].
    discriminate.
Qed.

(** C3 on the counts [{A:0, B:0, C:0}] of the specification, with the
    lanes of [sumo_code.py]: from the phase of the first lane the selector
    moves to the second. *)
Lemma C3_round_robin_fallback_witness :
  SumoCode.get_lane_with_max_vehicles
    [("-E0_0", 0); ("E1_0", 0); ("E0_0", 0)] 0 = "E1_0"
  /\ SumoCode.get_lane_with_max_vehicles
       [("-E0_0", 0); ("E1_0", 0); ("E0_0", 0)] 0 <> "-E0_0".
Proof.
  assert (Hnone : forall lane count,
            In (lane, count) [("-E0_0", 0); ("E1_0", 0); ("E0_0", 0)] ->
            count <= 0).
  { intros lane count [H | [H | [H | []]]];
      injection H as _ <-; apply Z.le_refl. }
  destruct (C3_round_robin_fallback _ Hnone) as (Hsumo & _ & Hnext & _).
  split.
  - exact (Hsumo 0).
  - exact (proj2 (Hnext "-E0_0" 0 eq_refl)).
Defined.

(** On the counts that [count_vehicles_per_lane] builds, the lane selected
    by [sumo_code.py] always has a phase in [LANE_PHASE_MAPPING]. *)
Lemma sumo_selected_lane_mapped :
  forall (numbers : string -> Z) (phase : Z),
    exists p,
      getitem SumoCode.LANE_PHASE_MAPPING
        (SumoCode.get_lane_with_max_vehicles
           (SumoCode.count_vehicles_per_lane numbers) phase) = Some p.
Proof.
  intros numbers phase.
  unfold SumoCode.count_vehicles_per_lane, SumoCode.get_lane_with_max_vehicles.
  unfold SumoCode.scan_lane. cbn.
  repeat match goal with
         | |- context [?x >? ?y] => destruct (x >? y); cbn
         end;
    try (eexists; reflexivity).
  destruct (phase =? 0); [eexists; reflexivity |].
  destruct (phase =? 2); eexists; reflexivity.
Qed.

(** C9.  Whatever the engine reports, the lane that
    [get_lane_with_max_vehicles] selects from the counts of
    [count_vehicles_per_lane] is a key of [LANE_PHASE_MAPPING]; the guard
    of [set_traffic_lights] holds and exactly one [setPhase] command, with
    the phase of that lane, is sent. *)
Theorem C9_selected_lane_has_phase :
  forall (numbers : string -> Z) (phase : Z),
    let green_lane :=
      SumoCode.get_lane_with_max_vehicles
        (SumoCode.count_vehicles_per_lane numbers) phase in
    contains SumoCode.LANE_PHASE_MAPPING green_lane = true
    /\ exists p,
         getitem SumoCode.LANE_PHASE_MAPPING green_lane = Some p
         /\ SumoCode.set_traffic_lights green_lane = [SetPhase "J2" p].
Proof.
  intros numbers phase green_lane.
  destruct (sumo_selected_lane_mapped numbers phase) as [p Hp].
  fold green_lane in Hp.
  split.
  - unfold contains. rewrite Hp. reflexivity.
  - exists p. split; [exact Hp |].
    unfold SumoCode.set_traffic_lights. rewrite Hp. reflexivity.
Qed.

(** ** The control loops *)

(** A turn of [traffic_control.py] that re-evaluates the lanes. *)
Lemma tc_loop_body_evaluates (s : TrafficControl.loop_state)
    (env : TrafficControl.tick_env) :
  (TrafficControl.step s mod 50 =? 0) || (TrafficControl.green_time s >=? 50)
    = true ->
  TrafficControl.loop_body s env
    = let priority_lane :=
        TrafficControl.get_lane_with_max_vehicles
          (TrafficControl.lane_counts env) (TrafficControl.tls_phase env) in
      if TrafficControl.differs priority_lane
           (TrafficControl.current_green_lane s)
      then
        ({| TrafficControl.step := TrafficControl.step s + 1;
            TrafficControl.green_time := 1;
            TrafficControl.current_green_lane := Some priority_lane |},
         TrafficControl.set_traffic_lights priority_lane)
      else
        ({| TrafficControl.step := TrafficControl.step s + 1;
            TrafficControl.green_time := 1;
            TrafficControl.current_green_lane :=
              TrafficControl.current_green_lane s |}, []).
Proof.
  intros Heval. unfold TrafficControl.loop_body. rewrite Heval.
  cbv zeta.
  destruct (TrafficControl.differs _ _); reflexivity.
Qed.

(** A turn of [traffic_control.py] that leaves the lights alone. *)
Lemma tc_loop_body_idles (s : TrafficControl.loop_state)
    (env : TrafficControl.tick_env) :
  (TrafficControl.step s mod 50 =? 0) || (TrafficControl.green_time s >=? 50)
    = false ->
  TrafficControl.loop_body s env
    = ({| TrafficControl.step := TrafficControl.step s + 1;
          TrafficControl.green_time := TrafficControl.green_time s + 1;
          TrafficControl.current_green_lane :=
            TrafficControl.current_green_lane s |}, []).
Proof.
  intros Hidle. unfold TrafficControl.loop_body. rewrite Hidle. reflexivity.
Qed.

Lemma tc_run_snoc (s : TrafficControl.loop_state)
    (envs : list TrafficControl.tick_env) (env : TrafficControl.tick_env) :
  TrafficControl.run s (envs ++ [env])
    = fst (TrafficControl.loop_body (TrafficControl.run s envs) env).
Proof.
  unfold TrafficControl.run. rewrite fold_left_app. reflexivity.
Qed.

(** The timer of [traffic_control.py] follows the step counter: before the
    first turn nothing is green and both are zero; afterwards some lane is
    green and the timer reads between 1 and 50, reaching 50 exactly on the
    multiples of 50. *)
Lemma tc_timer_invariant (s : TrafficControl.loop_state) :
  TrafficControl.reachable s ->
  (TrafficControl.step s = 0
   /\ TrafficControl.green_time s = 0
   /\ TrafficControl.current_green_lane s = None)
  \/ (0 < TrafficControl.step s
      /\ TrafficControl.green_time s = (TrafficControl.step s - 1) mod 50 + 1
      /\ TrafficControl.current_green_lane s <> None).
Proof.
  intros [envs <-].
  induction envs as [|env envs IH] using rev_ind.
  - left. repeat split.
  - rewrite tc_run_snoc.
    set (s := TrafficControl.run TrafficControl.initial_state envs) in *.
    right.
    destruct ((TrafficControl.step s mod 50 =? 0)
              || (TrafficControl.green_time s >=? 50)) eqn:Heval.
    + rewrite (tc_loop_body_evaluates s env Heval). cbv zeta.
      assert (Hmod : TrafficControl.step s mod 50 = 0).
      { apply orb_true_iff in Heval.
        destruct Heval as [Hmod | Hge]; [apply Z.eqb_eq in Hmod; exact Hmod |].
        apply Z.geb_le in Hge.
        destruct IH as [(H0 & Hgt & _) | (Hpos & Hgt & _)]; [lia |].
        rewrite Hgt in Hge. clear - Hpos Hge.
        Z.div_mod_to_equations. lia. }
      assert (Hstep : 0 <= TrafficControl.step s).
      { destruct IH as [(H0 & _) | (Hpos & _)]; lia. }
      assert (Htimer : 1 = (TrafficControl.step s + 1 - 1) mod 50 + 1).
      { replace (TrafficControl.step s + 1 - 1) with (TrafficControl.step s)
          by lia.
        rewrite Hmod. reflexivity. }
      destruct (TrafficControl.differs _ _) eqn:Hdiff; cbn.
      * repeat split; [lia | exact Htimer | discriminate].
      * repeat split; [lia | exact Htimer |].
        destruct IH as [(_ & _ & Hnone) | (_ & _ & Hsome)];
          [| exact Hsome].
        rewrite Hnone in Hdiff. discriminate.
    + rewrite (tc_loop_body_idles s env Heval). cbn.
      apply orb_false_iff in Heval. destruct Heval as [Hmod Hlt].
      apply Z.eqb_neq in Hmod.
      destruct IH as [(H0 & _) | (Hpos & Hgt & Hsome)].
      * rewrite H0 in Hmod. exfalso. apply Hmod. reflexivity.
      * repeat split; [lia | | exact Hsome].
        rewrite Hgt. clear - Hpos Hmod.
        Z.div_mod_to_equations. lia.
Qed.

(** C2, as the code has it.  In [traffic_control.py], at every reachable
    turn: a [setPhase] command is sent only if the selected lane differs
    from [current_green_lane] and either the green timer has reached 50 or
    this is the very first turn, when no lane has been made green yet; no
    command is sent when the selected lane is the green one; and while a
    lane is green with a timer below 50 no command is sent and the lane
    stays green, whatever the counts.  In [sumo_code.py] there is no such
    gate: the phase of the selected lane is set on every turn whose step is
    a multiple of 30, and on no other turn. *)
Theorem C2_switch_gate :
  forall (s : TrafficControl.loop_state) (env : TrafficControl.tick_env)
         (step : Z) (senv : SumoCode.tick_env),
    TrafficControl.reachable s ->
    let priority_lane :=
      TrafficControl.get_lane_with_max_vehicles
        (TrafficControl.lane_counts env) (TrafficControl.tls_phase env) in
    let sent := snd (TrafficControl.loop_body s env) in
    let selected :=
      SumoCode.get_lane_with_max_vehicles
        (SumoCode.count_vehicles_per_lane (SumoCode.lane_numbers senv))
        (SumoCode.tls_phase senv) in
    (sent <> [] ->
       TrafficControl.differs priority_lane
         (TrafficControl.current_green_lane s) = true
       /\ (50 <= TrafficControl.green_time s
           \/ (TrafficControl.step s = 0
               /\ TrafficControl.current_green_lane s = None)))
    /\ (TrafficControl.current_green_lane s = Some priority_lane ->
        sent = [])
    /\ (forall lane,
          TrafficControl.current_green_lane s = Some lane ->
          TrafficControl.green_time s < 50 ->
          sent = []
          /\ TrafficControl.current_green_lane
               (fst (TrafficControl.loop_body s env)) = Some lane)
    /\ (step mod 30 = 0 ->
        exists p,
          getitem SumoCode.LANE_PHASE_MAPPING selected = Some p
          /\ snd (SumoCode.loop_body step senv) = [SetPhase "J2" p])
    /\ (step mod 30 <> 0 -> snd (SumoCode.loop_body step senv) = []).
Proof.
  intros s env step senv Hreach priority_lane sent selected.
  pose proof (tc_timer_invariant s Hreach) as Hinv.
  repeat split.
  - (* a command is sent: the lanes differ *)
    subst sent.
    destruct ((TrafficControl.step s mod 50 =? 0)
              || (TrafficControl.green_time s >=? 50)) eqn:Heval.
    + rewrite (tc_loop_body_evaluates s env Heval) in H. cbv zeta in H.
      fold priority_lane in H.
      destruct (TrafficControl.differs _ _);
        [reflexivity | exfalso; apply H; reflexivity].
    + rewrite (tc_loop_body_idles s env Heval) in H.
      exfalso. apply H. reflexivity.
  - (* a command is sent: the timer has run out, or nothing was green *)
    subst sent.
    destruct ((TrafficControl.step s mod 50 =? 0)
              || (TrafficControl.green_time s >=? 50)) eqn:Heval.
    + destruct Hinv as [(H0 & _ & Hnone) | (Hpos & Hgt & _)];
        [right; split; assumption |].
      left. apply orb_true_iff in Heval.
      destruct Heval as [Hmod | Hge]; [| apply Z.geb_le; exact Hge].
      apply Z.eqb_eq in Hmod. rewrite Hgt. clear - Hpos Hmod.
      Z.div_mod_to_equations. lia.
    + rewrite (tc_loop_body_idles s env Heval) in H.
      exfalso. apply H. reflexivity.
  - (* the selected lane is the green one *)
    intros Hsame. subst sent.
    destruct ((TrafficControl.step s mod 50 =? 0)
              || (TrafficControl.green_time s >=? 50)) eqn:Heval.
    + rewrite (tc_loop_body_evaluates s env Heval). cbv zeta.
      fold priority_lane. rewrite Hsame. unfold TrafficControl.differs.
      rewrite String.eqb_refl. reflexivity.
    + rewrite (tc_loop_body_idles s env Heval). reflexivity.
  - (* below the minimum: no command *)
    destruct Hinv as [(_ & _ & Hnone) | (Hpos & Hgt & _)];
      [congruence |].
    assert (Heval : (TrafficControl.step s mod 50 =? 0)
                    || (TrafficControl.green_time s >=? 50) = false).
    { apply orb_false_iff. split.
      - apply Z.eqb_neq. rewrite Hgt in H0. clear - Hpos H0.
        Z.div_mod_to_equations. lia.
      - destruct (Z.geb_spec (TrafficControl.green_time s) 50);
          [lia | reflexivity]. }
    subst sent. rewrite (tc_loop_body_idles s env Heval). reflexivity.
  - (* below the minimum: the lane stays green *)
    destruct Hinv as [(_ & _ & Hnone) | (Hpos & Hgt & _)];
      [congruence |].
    assert (Heval : (TrafficControl.step s mod 50 =? 0)
                    || (TrafficControl.green_time s >=? 50) = false).
    { apply orb_false_iff. split.
      - apply Z.eqb_neq. rewrite Hgt in H0. clear - Hpos H0.
        Z.div_mod_to_equations. lia.
      - destruct (Z.geb_spec (TrafficControl.green_time s) 50);
          [lia | reflexivity]. }
    rewrite (tc_loop_body_idles s env Heval). exact H.
  - (* sumo_code.py, on a multiple of 30 *)
    intros Hmod.
    destruct (sumo_selected_lane_mapped
                (SumoCode.lane_numbers senv) (SumoCode.tls_phase senv))
      as [p Hp].
    fold selected in Hp. exists p. split; [exact Hp |].
    unfold SumoCode.loop_body. rewrite Hmod. cbn [Z.eqb snd].
    fold selected. unfold SumoCode.set_traffic_lights. rewrite Hp.
    reflexivity.
  - (* sumo_code.py, on any other step *)
    intros Hmod. unfold SumoCode.loop_body.
    apply Z.eqb_neq in Hmod. rewrite Hmod. reflexivity.
Qed.

(** C2 after one turn of [traffic_control.py]: lane 2 is green and its
    timer reads 1; lane 1 now has the larger count, and yet nothing is sent
    and lane 2 stays green. *)
Lemma C2_switch_gate_witness :
  snd (TrafficControl.loop_body
         (TrafficControl.run TrafficControl.initial_state
            [{| TrafficControl.lane_counts :=
                  [("lane1_0", 0); ("lane2_0", 5); ("lane3_0", 0)];
                TrafficControl.tls_phase := Some 0 |}])
         {| TrafficControl.lane_counts :=
              [("lane1_0", 9); ("lane2_0", 5); ("lane3_0", 0)];
            TrafficControl.tls_phase := Some 1 |}) = []
  /\ TrafficControl.current_green_lane
       (fst (TrafficControl.loop_body
               (TrafficControl.run TrafficControl.initial_state
                  [{| TrafficControl.lane_counts :=
                        [("lane1_0", 0); ("lane2_0", 5); ("lane3_0", 0)];
                      TrafficControl.tls_phase := Some 0 |}])
               {| TrafficControl.lane_counts :=
                    [("lane1_0", 9); ("lane2_0", 5); ("lane3_0", 0)];
                  TrafficControl.tls_phase := Some 1 |}))
     = Some "lane2_0".
Proof.
  assert (Hreach : TrafficControl.reachable
            (TrafficControl.run TrafficControl.initial_state
               [{| TrafficControl.lane_counts :=
                     [("lane1_0", 0); ("lane2_0", 5); ("lane3_0", 0)];
                   TrafficControl.tls_phase := Some 0 |}])).
  { eexists. reflexivity. }
  destruct (C2_switch_gate _
              {| TrafficControl.lane_counts :=
                   [("lane1_0", 9); ("lane2_0", 5); ("lane3_0", 0)];
                 TrafficControl.tls_phase := Some 1 |}
              0
              {| SumoCode.lane_numbers := fun _ => 0;
                 SumoCode.tls_phase := 0 |}
              Hreach) as (_ & _ & Hkeep & _).
  apply (Hkeep "lane2_0"); reflexivity.
Defined.

(** C2 as the specification states it fails on both programs.  In
    [traffic_control.py] the first turn sends a command although the green
    timer reads 0.  In [sumo_code.py], with five vehicles on the first lane
    and none elsewhere throughout, step 0 makes that lane green and step 30
    sends the command again, for the lane that is already green. *)
Lemma C2_switch_gate_counterexample :
  (TrafficControl.reachable TrafficControl.initial_state
   /\ snd (TrafficControl.loop_body TrafficControl.initial_state
             {| TrafficControl.lane_counts :=
                  [("lane1_0", 3); ("lane2_0", 5); ("lane3_0", 0)];
                TrafficControl.tls_phase := Some 0 |})
      = [SetPhase "tls" 1]
   /\ ~ Spec.gated_turn TrafficControl.initial_state
         {| TrafficControl.lane_counts :=
              [("lane1_0", 3); ("lane2_0", 5); ("lane3_0", 0)];
            TrafficControl.tls_phase := Some 0 |})
  /\ (SumoCode.main
        (repeat
           {| SumoCode.lane_numbers :=
                fun lane => if String.eqb lane "-E0_0" then 5 else 0;
              SumoCode.tls_phase := 0 |} 30)
      = (30, [SetPhase "J2" 0] :: repeat [] 29)
      /\ snd (SumoCode.loop_body 30
                {| SumoCode.lane_numbers :=
                     fun lane => if String.eqb lane "-E0_0" then 5 else 0;
                   SumoCode.tls_phase := 0 |})
         = [SetPhase "J2" 0]
      /\ ~ Spec.gated_turn_sumo ([SetPhase "J2" 0] :: repeat [] 29) 30
            {| SumoCode.lane_numbers :=
                 fun lane => if String.eqb lane "-E0_0" then 5 else 0;
               SumoCode.tls_phase := 0 |}).
Proof.
  split; [split; [| split] | split; [| split]].
  - exists []. reflexivity.
  - reflexivity.
  - intros Hgate.
    assert (Hsent : snd (TrafficControl.loop_body TrafficControl.initial_state
                           {| TrafficControl.lane_counts :=
                                [("lane1_0", 3); ("lane2_0", 5);
                                 ("lane3_0", 0)];
                              TrafficControl.tls_phase := Some 0 |}) <> [])
      by discriminate.
    destruct (Hgate Hsent) as [_ Htimer].
    cbn in Htimer. lia.
  - vm_compute. reflexivity.
  - vm_compute. reflexivity.
  - intros Hgate. apply Hgate.
    + vm_compute. discriminate.
    + vm_compute. reflexivity.
Qed.

(** ** Blob extraction *)

Lemma collect_centers_from (counterShape : list Vehicle4.rect) :
  forall centers : list (Z * Z),
    fold_left
      (fun centers r =>
         let '(x, y, w, h) := r in
         if (w >=? Vehicle4.min_width_rect) && (h >=? Vehicle4.min_height_rect)
         then centers ++ [Vehicle4.center_handle x y w h]
         else centers)
      counterShape centers
    = centers
      ++ map Spec.center_of (filter Vehicle4.accepted_rect counterShape).
Proof.
  induction counterShape as [|[[[x y] w] h] rest IH]; intros centers.
  - cbn. rewrite app_nil_r. reflexivity.
  - cbn [fold_left filter Vehicle4.accepted_rect].
    rewrite IH.
    destruct ((w >=? Vehicle4.min_width_rect)
              && (h >=? Vehicle4.min_height_rect)).
    + cbn [map Spec.center_of]. rewrite <- app_assoc. reflexivity.
    + reflexivity.
Qed.

(** The first loop keeps the centers of the accepted boxes, in order. *)
Lemma collect_centers_filter (counterShape : list Vehicle4.rect) :
  Vehicle4.collect_centers counterShape
    = map Spec.center_of (filter Vehicle4.accepted_rect counterShape).
Proof.
  unfold Vehicle4.collect_centers. rewrite collect_centers_from. reflexivity.
Qed.

Lemma accepted_rect_iff (x y w h : Z) :
  Vehicle4.accepted_rect (x, y, w, h) = true <-> 80 <= w /\ 80 <= h.
Proof.
  unfold Vehicle4.accepted_rect, Vehicle4.min_width_rect,
    Vehicle4.min_height_rect.
  rewrite andb_true_iff, !Z.geb_le. reflexivity.
Qed.

(** C6, as the code has it.  A bounding box is accepted exactly when its
    width and its height are each at least the minimum of 80, the minimum
    included.  A rejected box changes neither the list of centers nor the
    state the frame leaves behind.  The center of an accepted box is
    [(x + w/2, y + h/2)] with both halves rounded down to integers. *)
Theorem C6_blob_filter :
  forall x y w h : Z,
    (Vehicle4.accepted_rect (x, y, w, h) = true <-> 80 <= w /\ 80 <= h)
    /\ (Vehicle4.accepted_rect (x, y, w, h) = false ->
        forall before after,
          Vehicle4.collect_centers (before ++ (x, y, w, h) :: after)
            = Vehicle4.collect_centers (before ++ after)
          /\ forall st,
               Vehicle4.process_frame st (before ++ (x, y, w, h) :: after)
                 = Vehicle4.process_frame st (before ++ after))
    /\ (Vehicle4.accepted_rect (x, y, w, h) = true ->
        Vehicle4.center_handle x y w h = (x + w / 2, y + h / 2)
        /\ forall before after,
             Vehicle4.collect_centers (before ++ (x, y, w, h) :: after)
               = Vehicle4.collect_centers before
                 ++ (x + w / 2, y + h / 2)
                 :: Vehicle4.collect_centers after).
Proof.
  intros x y w h. split; [apply accepted_rect_iff |]. split.
  - intros Hreject before after.
    assert (Hsame :
              Vehicle4.collect_centers (before ++ (x, y, w, h) :: after)
                = Vehicle4.collect_centers (before ++ after)).
    { rewrite !collect_centers_filter, !filter_app.
      cbn [filter]. rewrite Hreject. reflexivity. }
    split; [exact Hsame |].
    intros st. unfold Vehicle4.process_frame. rewrite Hsame. reflexivity.
  - intros Haccept.
    assert (Hcenter :
              Vehicle4.center_handle x y w h = (x + w / 2, y + h / 2)).
    { apply accepted_rect_iff in Haccept. destruct Haccept as [Hw Hh].
      unfold Vehicle4.center_handle.
      rewrite !Z.quot_div_nonneg by lia. reflexivity. }
    split; [exact Hcenter |].
    intros before after.
    rewrite !collect_centers_filter, filter_app, map_app.
    cbn [filter]. rewrite Haccept. cbn [map Spec.center_of].
    rewrite Hcenter. reflexivity.
Qed.

(** C6 on a box of 81 by 120 pixels at (10, 20). *)
Lemma C6_blob_filter_witness :
  Vehicle4.center_handle 10 20 81 120 = (50, 80)
  /\ Vehicle4.collect_centers [(0, 0, 79, 200); (10, 20, 81, 120)]
     = [(50, 80)].
Proof.
  destruct (C6_blob_filter 10 20 81 120) as (_ & _ & Haccepted).
  destruct (Haccepted eq_refl) as [Hcenter Hcollect].
  split.
  - exact Hcenter.
  - exact (Hcollect [(0, 0, 79, 200)] []).
Defined.

(** C6 as the specification states it fails on a box of exactly 80 by 80
    pixels: the code accepts it, and neither side exceeds 80. *)
Lemma C6_blob_filter_counterexample :
  Vehicle4.accepted_rect (0, 0, 80, 80) = true
  /\ Vehicle4.collect_centers [(0, 0, 80, 80)] = [(40, 40)]
  /\ ~ Spec.exceeds_minimums (0, 0, 80, 80).
Proof.
  split; [reflexivity |]. split; [reflexivity |].
  unfold Spec.exceeds_minimums, Vehicle4.min_width_rect. lia.
Qed.

(** ** Crossing detection and deduplication *)

Lemma on_line_iff (cx cy : Z) :
  Vehicle4.on_line (cx, cy) = true
  <-> Z.abs (cy - Vehicle4.count_line_position) < 6.
Proof. unfold Vehicle4.on_line, Vehicle4.offset. apply Z.ltb_lt. Qed.

Lemma same_vehicle_iff (cx cy frame_idx px py pf : Z) :
  Vehicle4.same_vehicle (cx, cy) frame_idx ((px, py), pf) = true
  <-> Z.abs (cx - px) < 30 /\ Z.abs (cy - py) < 30 /\ frame_idx - pf < 15.
Proof.
  unfold Vehicle4.same_vehicle, Vehicle4.cooldown_frames. cbn [fst snd].
  rewrite !andb_true_iff, !Z.ltb_lt. tauto.
Qed.

(** The flag [already_counted] is raised exactly when some retained
    crossing is near in both coordinates and recent. *)
Lemma already_counted_iff (recently : list Vehicle4.crossing)
    (cx cy frame_idx : Z) :
  Vehicle4.already_counted recently (cx, cy) frame_idx = true
  <-> exists px py pf,
        In ((px, py), pf) recently
        /\ Z.abs (cx - px) < 30 /\ Z.abs (cy - py) < 30
        /\ frame_idx - pf < 15.
Proof.
  unfold Vehicle4.already_counted. rewrite existsb_exists. split.
  - intros ([[px py] pf] & Hin & Hsame).
    apply same_vehicle_iff in Hsame. exists px, py, pf. tauto.
  - intros (px & py & pf & Hin & Hsame).
    exists ((px, py), pf). split; [exact Hin |].
    apply same_vehicle_iff. exact Hsame.
Qed.

Lemma count_center_off_line (frame_idx : Z) (acc : list Vehicle4.crossing * Z)
    (center : Z * Z) :
  Vehicle4.on_line center = false ->
  Vehicle4.count_center frame_idx acc center = acc.
Proof.
  intros Hoff. unfold Vehicle4.count_center. destruct acc as [recently n].
  rewrite Hoff. reflexivity.
Qed.

Lemma count_center_duplicate (frame_idx : Z)
    (recently : list Vehicle4.crossing) (n : Z) (center : Z * Z) :
  Vehicle4.already_counted recently center frame_idx = true ->
  Vehicle4.count_center frame_idx (recently, n) center = (recently, n).
Proof.
  intros Hdup. unfold Vehicle4.count_center. rewrite Hdup.
  destruct (Vehicle4.on_line center); reflexivity.
Qed.

Lemma count_center_new (frame_idx : Z)
    (recently : list Vehicle4.crossing) (n : Z) (center : Z * Z) :
  Vehicle4.on_line center = true ->
  Vehicle4.already_counted recently center frame_idx = false ->
  Vehicle4.count_center frame_idx (recently, n) center
    = (recently ++ [(center, frame_idx)], n + 1).
Proof.
  intros Hon Hnew. unfold Vehicle4.count_center. rewrite Hon, Hnew.
  reflexivity.
Qed.

Lemma prune_keeps (frame_idx : Z) (recently : list Vehicle4.crossing)
    (c : Z * Z) (pf : Z) :
  In (c, pf) (Vehicle4.prune frame_idx recently)
  <-> In (c, pf) recently /\ frame_idx - pf < 15.
Proof.
  unfold Vehicle4.prune, Vehicle4.cooldown_frames.
  rewrite filter_In. cbn [snd]. rewrite Z.ltb_lt. reflexivity.
Qed.

Lemma count_crossings_nil (st : Vehicle4.counter_state) (frame_idx : Z) :
  Vehicle4.count_crossings st frame_idx []
    = {| Vehicle4.recently_counted :=
           Vehicle4.prune frame_idx (Vehicle4.recently_counted st);
         Vehicle4.counter := Vehicle4.counter st;
         Vehicle4.frame_idx := frame_idx |}.
Proof. reflexivity. Qed.

Lemma count_crossings_one (st : Vehicle4.counter_state) (frame_idx : Z)
    (center : Z * Z) :
  Vehicle4.count_crossings st frame_idx [center]
    = {| Vehicle4.recently_counted :=
           Vehicle4.prune frame_idx
             (fst (Vehicle4.count_center frame_idx
                     (Vehicle4.recently_counted st, Vehicle4.counter st)
                     center));
         Vehicle4.counter :=
           snd (Vehicle4.count_center frame_idx
                  (Vehicle4.recently_counted st, Vehicle4.counter st)
                  center);
         Vehicle4.frame_idx := frame_idx |}.
Proof.
  unfold Vehicle4.count_crossings. cbn [fold_left].
  destruct (Vehicle4.count_center _ _ _). reflexivity.
Qed.

(** Frames without any center leave the count alone, advance the frame
    index, add no crossing, and retain every crossing that is still
    younger than the cooldown at the last of them. *)
Lemma quiet_frames (k : nat) :
  forall st : Vehicle4.counter_state,
    let st' := Spec.run_frames st (repeat [] k) in
    Vehicle4.counter st' = Vehicle4.counter st
    /\ Vehicle4.frame_idx st' = Vehicle4.frame_idx st + Z.of_nat k
    /\ (forall cf, In cf (Vehicle4.recently_counted st') ->
                   In cf (Vehicle4.recently_counted st))
    /\ (forall c pf,
          In (c, pf) (Vehicle4.recently_counted st) ->
          Vehicle4.frame_idx st + Z.of_nat k - pf < 15 ->
          In (c, pf) (Vehicle4.recently_counted st')).
Proof.
  induction k as [|k IH]; intros st.
  - cbn. repeat split; auto. lia.
  - cbn [repeat]. unfold Spec.run_frames. cbn [fold_left].
    fold (Spec.run_frames
            (Vehicle4.count_crossings st (Vehicle4.frame_idx st + 1) [])
            (repeat [] k)).
    rewrite count_crossings_nil.
    match goal with
    | |- context [Spec.run_frames ?s _] =>
        specialize (IH s); set (mid := s) in *
    end.
    cbv zeta in IH. destruct IH as (Hcount & Hidx & Hincl & Hkeep).
    cbv zeta. repeat split.
    + rewrite Hcount. reflexivity.
    + rewrite Hidx. subst mid. cbn [Vehicle4.frame_idx]. lia.
    + intros [c pf] Hin. apply Hincl in Hin. subst mid.
      cbn [Vehicle4.recently_counted] in Hin.
      apply prune_keeps in Hin. tauto.
    + intros c pf Hin Hage. apply Hkeep.
      * subst mid. cbn [Vehicle4.recently_counted].
        apply prune_keeps. split; [exact Hin | lia].
      * subst mid. cbn [Vehicle4.frame_idx]. lia.
Qed.

Lemma run_frames_cons (st : Vehicle4.counter_state) (centers : list (Z * Z))
    (frames : list (list (Z * Z))) :
  Spec.run_frames st (centers :: frames)
    = Spec.run_frames
        (Vehicle4.count_crossings st (Vehicle4.frame_idx st + 1) centers)
        frames.
Proof. reflexivity. Qed.

Lemma run_frames_app (st : Vehicle4.counter_state)
    (frames frames' : list (list (Z * Z))) :
  Spec.run_frames st (frames ++ frames')
    = Spec.run_frames (Spec.run_frames st frames) frames'.
Proof. unfold Spec.run_frames. apply fold_left_app. Qed.

(** Two centers on the line in one frame, after an empty history. *)
Lemma two_centers_same_frame (n f : Z) (c1 c2 : Z * Z) :
  Vehicle4.on_line c1 = true ->
  Vehicle4.on_line c2 = true ->
  Vehicle4.counter
    (Spec.run_frames
       {| Vehicle4.recently_counted := [];
          Vehicle4.counter := n;
          Vehicle4.frame_idx := f |}
       [[c1; c2]])
    = n + (if Spec.close_by c2 c1 then 1 else 2).
Proof.
  intros Hon1 Hon2.
  rewrite run_frames_cons. cbn [Spec.run_frames fold_left].
  unfold Vehicle4.count_crossings.
  cbn [fold_left Vehicle4.recently_counted Vehicle4.counter Vehicle4.frame_idx].
  rewrite (count_center_new _ [] n c1 Hon1 eq_refl). cbn [app].
  destruct c1 as [x1 y1], c2 as [x2 y2].
  unfold Vehicle4.count_center at 1. rewrite Hon2.
  unfold Vehicle4.already_counted, Vehicle4.same_vehicle, Spec.close_by,
    Vehicle4.cooldown_frames.
  cbn [existsb fst snd].
  replace (f + 1 - (f + 1)) with 0 by lia.
  change (0 <? 15) with true. rewrite andb_true_r, orb_false_r.
  destruct ((Z.abs (x2 - x1) <? 30) && (Z.abs (y2 - y1) <? 30));
    cbn [Vehicle4.counter]; lia.
Qed.

(** Two centers on the line, the second [k + 1] frames after the first,
    after an empty history and with nothing in between. *)
Lemma two_centers_apart (n f : Z) (c1 c2 : Z * Z) (k : nat) :
  Vehicle4.on_line c1 = true ->
  Vehicle4.on_line c2 = true ->
  Vehicle4.counter
    (Spec.run_frames
       {| Vehicle4.recently_counted := [];
          Vehicle4.counter := n;
          Vehicle4.frame_idx := f |}
       ([c1] :: repeat [] k ++ [[c2]]))
    = n + (if Spec.close_by c2 c1 && (Z.of_nat k + 1 <? 15) then 1 else 2).
Proof.
  intros Hon1 Hon2.
  rewrite run_frames_cons, run_frames_app, count_crossings_one.
  cbn [Vehicle4.recently_counted Vehicle4.counter Vehicle4.frame_idx].
  rewrite (count_center_new _ [] n c1 Hon1 eq_refl). cbn [app fst snd].
  set (s1 := {| Vehicle4.recently_counted :=
                  Vehicle4.prune (f + 1) [(c1, f + 1)];
                Vehicle4.counter := n + 1;
                Vehicle4.frame_idx := f + 1 |}).
  destruct (quiet_frames k s1) as (Hcount & Hidx & Hincl & Hkeep).
  set (s2 := Spec.run_frames s1 (repeat [] k)) in *.
  change (Vehicle4.counter s1) with (n + 1) in *.
  change (Vehicle4.frame_idx s1) with (f + 1) in *.
  change (Vehicle4.recently_counted s1)
    with (Vehicle4.prune (f + 1) [(c1, f + 1)]) in *.
  assert (Hfirst : In (c1, f + 1) (Vehicle4.prune (f + 1) [(c1, f + 1)])).
  { apply prune_keeps. split; [left; reflexivity | lia]. }
  assert (Honly : forall cf,
            In cf (Vehicle4.recently_counted s2) -> cf = (c1, f + 1)).
  { intros [c pf] Hin. apply Hincl, prune_keeps in Hin.
    destruct Hin as [[Heq | []] _]. symmetry. exact Heq. }
  rewrite run_frames_cons. cbn [Spec.run_frames fold_left].
  rewrite count_crossings_one. cbn [Vehicle4.counter].
  rewrite Hcount, Hidx.
  destruct c1 as [x1 y1], c2 as [x2 y2].
  unfold Spec.close_by. cbn [fst snd].
  destruct ((Z.abs (x2 - x1) <? 30) && (Z.abs (y2 - y1) <? 30)
            && (Z.of_nat k + 1 <? 15)) eqn:Hnear.
  - rewrite !andb_true_iff, !Z.ltb_lt in Hnear.
    destruct Hnear as [[Hx Hy] Hgap].
    rewrite count_center_duplicate; [cbn [snd]; lia |].
    apply already_counted_iff. exists x1, y1, (f + 1).
    split; [apply Hkeep; [exact Hfirst | lia] |].
    repeat split; [exact Hx | exact Hy | lia].
  - rewrite count_center_new; [cbn [snd]; lia | exact Hon2 |].
    destruct (Vehicle4.already_counted _ _ _) eqn:Hdup; [| reflexivity].
    apply already_counted_iff in Hdup.
    destruct Hdup as (px & py & pf & Hin & Hx & Hy & Hgap).
    apply Honly in Hin. injection Hin as -> -> ->.
    assert (Hcontra : (Z.abs (x2 - x1) <? 30) && (Z.abs (y2 - y1) <? 30)
                      && (Z.of_nat k + 1 <? 15) = true).
    { rewrite !andb_true_iff, !Z.ltb_lt.
      repeat split; [exact Hx | exact Hy | lia]. }
    rewrite Hcontra in Hnear. discriminate.
Qed.

(** C4.  A center is a candidate exactly when it lies less than 6 pixels
    from the counting line.  The turn of the counting loop on a center adds
    one to the counter and appends the crossing exactly when the center is
    a candidate and no retained crossing is less than 30 pixels away in
    both coordinates and less than 15 frames old; otherwise it leaves
    counter and history as they are.  Hence, after an empty history, two
    candidates count once when they are within the 30 pixel box and less
    than 15 frames apart, and twice when they are outside either bound. *)
Theorem C4_crossing_contract :
  forall (recently : list Vehicle4.crossing) (counter frame_idx cx cy : Z),
    let duplicate :=
      exists px py pf,
        In ((px, py), pf) recently
        /\ Z.abs (cx - px) < 30 /\ Z.abs (cy - py) < 30
        /\ frame_idx - pf < 15 in
    let candidate := Z.abs (cy - Vehicle4.count_line_position) < 6 in
    (Vehicle4.on_line (cx, cy) = true <-> candidate)
    /\ (Vehicle4.count_center frame_idx (recently, counter) (cx, cy)
          = (recently ++ [((cx, cy), frame_idx)], counter + 1)
        <-> candidate /\ ~ duplicate)
    /\ (Vehicle4.count_center frame_idx (recently, counter) (cx, cy)
          = (recently, counter)
        <-> ~ (candidate /\ ~ duplicate))
    /\ (forall (c1 c2 : Z * Z) (k : nat),
          Vehicle4.on_line c1 = true ->
          Vehicle4.on_line c2 = true ->
          Vehicle4.counter
            (Spec.run_frames
               {| Vehicle4.recently_counted := [];
                  Vehicle4.counter := counter;
                  Vehicle4.frame_idx := frame_idx |}
               [[c1; c2]])
            = counter + (if Spec.close_by c2 c1 then 1 else 2)
          /\ Vehicle4.counter
               (Spec.run_frames
                  {| Vehicle4.recently_counted := [];
                     Vehicle4.counter := counter;
                     Vehicle4.frame_idx := frame_idx |}
                  ([c1] :: repeat [] k ++ [[c2]]))
             = counter
               + (if Spec.close_by c2 c1 && (Z.of_nat k + 1 <? 15)
                  then 1 else 2)).
Proof.
  intros recently counter frame_idx cx cy duplicate candidate.
  assert (Hdup : Vehicle4.already_counted recently (cx, cy) frame_idx = true
                 <-> duplicate) by apply already_counted_iff.
  assert (Hcand : Vehicle4.on_line (cx, cy) = true <-> candidate)
    by apply on_line_iff.
  split; [exact Hcand |].
  destruct (Vehicle4.on_line (cx, cy)) eqn:Hon.
  - destruct (Vehicle4.already_counted recently (cx, cy) frame_idx) eqn:Hflag.
    + rewrite (count_center_duplicate _ _ _ _ Hflag).
      split; [| split].
      * split.
        -- intros Heq. injection Heq as _ Hn. lia.
        -- intros [_ Hnot]. exfalso. apply Hnot, Hdup. reflexivity.
      * split; [| reflexivity].
        intros _ [_ Hnot]. apply Hnot, Hdup. reflexivity.
      * intros c1 c2 k H1 H2.
        split; [apply two_centers_same_frame | apply two_centers_apart];
          assumption.
    + rewrite (count_center_new _ _ _ _ Hon Hflag).
      assert (Hnot : ~ duplicate).
      { intros Hd. apply Hdup in Hd. discriminate. }
      split; [| split].
      * split; [| reflexivity].
        intros _. split; [apply Hcand; reflexivity | exact Hnot].
      * split.
        -- intros Heq. injection Heq as _ Hn. lia.
        -- intros Hno. exfalso. apply Hno.
           split; [apply Hcand; reflexivity | exact Hnot].
      * intros c1 c2 k H1 H2.
        split; [apply two_centers_same_frame | apply two_centers_apart];
          assumption.
  - rewrite (count_center_off_line frame_idx (recently, counter) _ Hon).
    assert (Hoff : ~ candidate).
    { intros Hc. apply Hcand in Hc. discriminate. }
    split; [| split].
    + split.
      * intros Heq. injection Heq as _ Hn. lia.
      * intros [Hc _]. contradiction.
    + split; [| reflexivity].
      intros _ [Hc _]. contradiction.
    + intros c1 c2 k H1 H2.
      split; [apply two_centers_same_frame | apply two_centers_apart];
        assumption.
Qed.

(** C4 on two centers near the line, 20 pixels apart: four frames apart
    they count once, twenty frames apart they count twice. *)
Lemma C4_crossing_contract_witness :
  Vehicle4.counter
    (Spec.run_frames Vehicle4.initial_counter
       ([(100, 550)] :: repeat [] 3 ++ [[(120, 552)]])) = 1
  /\ Vehicle4.counter
       (Spec.run_frames Vehicle4.initial_counter
          ([(100, 550)] :: repeat [] 19 ++ [[(120, 552)]])) = 2.
Proof.
  split.
  - exact (proj2 (proj2 (proj2 (proj2
             (C4_crossing_contract [] 0 0 100 550)))
             (100, 550) (120, 552) 3%nat eq_refl eq_refl)).
  - exact (proj2 (proj2 (proj2 (proj2
             (C4_crossing_contract [] 0 0 100 550)))
             (100, 550) (120, 552) 19%nat eq_refl eq_refl)).
Defined.

(** C10.  Every bound of the deduplication is strict.  A center exactly 6
    pixels from the line is no candidate and changes nothing.  A candidate
    is counted as new when every retained crossing is exactly 30 pixels
    away in x, or exactly 30 pixels away in y, or exactly 15 frames old,
    and also when every retained crossing that is less than 30 pixels
    away in both is exactly 15 frames old, whatever the others are.
    Pruning drops every crossing that is exactly 15 frames old, and all
    that it retains, also in the state a frame leaves behind, are strictly
    less than 15 frames old. *)
Theorem C10_strict_bounds :
  forall (recently : list Vehicle4.crossing) (counter frame_idx cx cy : Z),
    (Z.abs (cy - Vehicle4.count_line_position) = 6 ->
       Vehicle4.on_line (cx, cy) = false
       /\ Vehicle4.count_center frame_idx (recently, counter) (cx, cy)
          = (recently, counter))
    /\ (Vehicle4.on_line (cx, cy) = true ->
        (forall px py pf,
           In ((px, py), pf) recently ->
           Z.abs (cx - px) = 30 \/ Z.abs (cy - py) = 30
           \/ frame_idx - pf = 15) ->
        Vehicle4.count_center frame_idx (recently, counter) (cx, cy)
          = (recently ++ [((cx, cy), frame_idx)], counter + 1))
    /\ (forall c pf,
          In (c, pf) recently ->
          frame_idx - pf = 15 ->
          ~ In (c, pf) (Vehicle4.prune frame_idx recently))
    /\ (forall c pf,
          In (c, pf) (Vehicle4.prune frame_idx recently) ->
          frame_idx - pf < 15)
    /\ (forall st counterShape c pf,
          In (c, pf)
             (Vehicle4.recently_counted
                (Vehicle4.process_frame st counterShape)) ->
          Vehicle4.frame_idx (Vehicle4.process_frame st counterShape) - pf
            < 15)
    /\ (Vehicle4.on_line (cx, cy) = true ->
        (forall px py pf,
           In ((px, py), pf) recently ->
           Z.abs (cx - px) < 30 ->
           Z.abs (cy - py) < 30 ->
           frame_idx - pf = 15) ->
        Vehicle4.count_center frame_idx (recently, counter) (cx, cy)
          = (recently ++ [((cx, cy), frame_idx)], counter + 1)).
Proof.
  intros recently counter frame_idx cx cy. repeat split.
  - destruct (Vehicle4.on_line (cx, cy)) eqn:Hon; [| reflexivity].
    apply on_line_iff in Hon. lia.
  - apply count_center_off_line.
    destruct (Vehicle4.on_line (cx, cy)) eqn:Hon; [| reflexivity].
    apply on_line_iff in Hon. lia.
  - intros Hon Hedge. apply count_center_new; [exact Hon |].
    destruct (Vehicle4.already_counted recently (cx, cy) frame_idx) eqn:Hdup;
      [| reflexivity].
    apply already_counted_iff in Hdup.
    destruct Hdup as (px & py & pf & Hin & Hx & Hy & Hgap).
    destruct (Hedge px py pf Hin) as [H30 | [H30 | H15]]; lia.
  - intros c pf Hin Hage Hkept. apply prune_keeps in Hkept. lia.
  - intros c pf Hkept. apply prune_keeps in Hkept. tauto.
  - intros st counterShape c pf.
    unfold Vehicle4.process_frame, Vehicle4.count_crossings.
    destruct (fold_left _ _ _) as [kept n].
    cbn [Vehicle4.recently_counted Vehicle4.frame_idx].
    intros Hkept. apply prune_keeps in Hkept. tauto.
  - intros Hon Hgap. apply count_center_new; [exact Hon |].
    destruct (Vehicle4.already_counted recently (cx, cy) frame_idx) eqn:Hdup;
      [| reflexivity].
    apply already_counted_iff in Hdup.
    destruct Hdup as (px & py & pf & Hin & Hx & Hy & Hage).
    pose proof (Hgap px py pf Hin Hx Hy). lia.
Qed.

(** C10 on a single retained crossing at (100, 550) from frame 5: a center
    30 pixels to its right is counted in frame 6, and so is a center at the
    same place in frame 20. *)
Lemma C10_strict_bounds_witness :
  Vehicle4.count_center 6 ([((100, 550), 5)], 1) (130, 550)
    = ([((100, 550), 5); ((130, 550), 6)], 2)
  /\ Vehicle4.count_center 20 ([((100, 550), 5)], 1) (100, 550)
     = ([((100, 550), 5); ((100, 550), 20)], 2)
  /\ Vehicle4.on_line (100, 556) = false.
Proof.
  split; [| split].
  - apply (proj1 (proj2 (C10_strict_bounds [((100, 550), 5)] 1 6 130 550))).
    + reflexivity.
    + intros px py pf [Heq | []]. injection Heq as <- <- <-.
      left. reflexivity.
  - apply (proj1 (proj2 (C10_strict_bounds [((100, 550), 5)] 1 20 100 550))).
    + reflexivity.
    + intros px py pf [Heq | []]. injection Heq as <- <- <-.
      right. right. reflexivity.
  - apply (proj1 (C10_strict_bounds [] 0 0 100 556)). reflexivity.
Defined.

(** ** The lane counter *)

(** The counter after the second loop is the counter before it plus the
    number of accepted centers. *)
Lemma count_center_fold (frame_idx : Z) (centers : list (Z * Z)) :
  forall (recently : list Vehicle4.crossing) (n : Z),
    snd (fold_left (Vehicle4.count_center frame_idx) centers (recently, n))
      = n + Spec.accepted_crossings frame_idx recently centers.
Proof.
  induction centers as [|center rest IH]; intros recently n.
  - cbn. lia.
  - cbn [fold_left Spec.accepted_crossings].
    destruct (Vehicle4.on_line center) eqn:Hon.
    + destruct (Vehicle4.already_counted recently center frame_idx) eqn:Hdup.
      * rewrite (count_center_duplicate _ _ _ _ Hdup). cbn [andb negb].
        apply IH.
      * rewrite (count_center_new _ _ _ _ Hon Hdup). cbn [andb negb].
        rewrite IH. lia.
    + rewrite (count_center_off_line _ _ _ Hon). cbn [andb]. apply IH.
Qed.

Lemma accepted_crossings_bounds (frame_idx : Z) (centers : list (Z * Z)) :
  forall recently : list Vehicle4.crossing,
    0 <= Spec.accepted_crossings frame_idx recently centers
      <= Z.of_nat (List.length centers).
Proof.
  induction centers as [|center rest IH]; intros recently.
  - cbn. lia.
  - cbn [Spec.accepted_crossings List.length].
    destruct (Vehicle4.on_line center
              && negb (Vehicle4.already_counted recently center frame_idx)).
    + specialize (IH (recently ++ [(center, frame_idx)])). lia.
    + specialize (IH recently). lia.
Qed.

Lemma count_crossings_counter (st : Vehicle4.counter_state) (frame_idx : Z)
    (centers : list (Z * Z)) :
  Vehicle4.counter (Vehicle4.count_crossings st frame_idx centers)
    = Vehicle4.counter st
      + Spec.accepted_crossings frame_idx
          (Vehicle4.recently_counted st) centers.
Proof.
  unfold Vehicle4.count_crossings.
  rewrite <- count_center_fold.
  destruct (fold_left _ _ _) as [kept n]. reflexivity.
Qed.

Lemma process_frame_counter_le (st : Vehicle4.counter_state)
    (counterShape : list Vehicle4.rect) :
  Vehicle4.counter st
    <= Vehicle4.counter (Vehicle4.process_frame st counterShape).
Proof.
  unfold Vehicle4.process_frame. rewrite count_crossings_counter.
  pose proof (accepted_crossings_bounds (Vehicle4.frame_idx st + 1)
                (Vehicle4.collect_centers counterShape)
                (Vehicle4.recently_counted st)).
  lia.
Qed.

(** The counts published by the reading loop never go down, and stay
    between the count it starts from and the count it ends with. *)
Lemma reading_loop_published (window_name : string)
    (stream : list (bool * list Vehicle4.rect)) :
  forall st : Vehicle4.counter_state,
    Vehicle4.counter st
      <= Vehicle4.counter (snd (Vehicle4.reading_loop window_name st stream))
    /\ StronglySorted Z.le
         (Spec.published
            (fst (Vehicle4.reading_loop window_name st stream)))
    /\ Forall
         (fun c =>
            Vehicle4.counter st <= c
            <= Vehicle4.counter
                 (snd (Vehicle4.reading_loop window_name st stream)))
         (Spec.published
            (fst (Vehicle4.reading_loop window_name st stream))).
Proof.
  induction stream as [|[stop_is_set counterShape] rest IH]; intros st.
  - cbn. repeat split; [lia | constructor | constructor].
  - cbn [Vehicle4.reading_loop]. destruct stop_is_set.
    + cbn. repeat split; [lia | constructor | constructor].
    + pose proof (process_frame_counter_le st counterShape) as Hstep.
      specialize (IH (Vehicle4.process_frame st counterShape)).
      destruct (Vehicle4.reading_loop window_name
                  (Vehicle4.process_frame st counterShape) rest)
        as [effects final].
      cbn [fst snd] in *. destruct IH as (Hle & Hsorted & Hall).
      cbn [Spec.published flat_map app Vehicle4.item_counter snd].
      fold (Spec.published effects).
      repeat split.
      * lia.
      * constructor; [exact Hsorted |].
        eapply Forall_impl; [| exact Hall]. cbn. intros c Hc. lia.
      * constructor; [lia |].
        eapply Forall_impl; [| exact Hall]. cbn. intros c Hc. lia.
Qed.

Lemma strongly_sorted_snoc (l : list Z) (x : Z) :
  StronglySorted Z.le l ->
  Forall (fun c => c <= x) l ->
  StronglySorted Z.le (l ++ [x]).
Proof.
  induction l as [|a l IH]; intros Hsorted Hall.
  - cbn. constructor; constructor.
  - inversion Hsorted as [|a' l' Hl Ha]; subst.
    inversion Hall as [|a' l' Hax Hlx]; subst.
    cbn. constructor; [apply IH; assumption |].
    apply Forall_app. split; [exact Ha | repeat constructor; exact Hax].
Qed.

Lemma published_app (effects effects' : list Vehicle4.effect) :
  Spec.published (effects ++ effects')
    = Spec.published effects ++ Spec.published effects'.
Proof. unfold Spec.published. apply flat_map_app. Qed.

(** C5.  The turn of the counting loop on a center adds exactly 1 to the
    counter when the center is accepted as a crossing and 0 otherwise; a
    frame adds the number of its accepted centers, so the counter after a
    frame is never below the counter before it; and the counts a counter
    thread publishes, its final one included, never decrease. *)
Theorem C5_count_monotone :
  forall (recently : list Vehicle4.crossing) (n frame_idx : Z)
         (center : Z * Z) (st : Vehicle4.counter_state)
         (counterShape : list Vehicle4.rect)
         (path_exists is_opened : bool) (window_name : string)
         (stream : list (bool * list Vehicle4.rect)),
    snd (Vehicle4.count_center frame_idx (recently, n) center)
      = n + (if Vehicle4.on_line center
                && negb (Vehicle4.already_counted recently center frame_idx)
             then 1 else 0)
    /\ Vehicle4.counter (Vehicle4.process_frame st counterShape)
       = Vehicle4.counter st
         + Spec.accepted_crossings (Vehicle4.frame_idx st + 1)
             (Vehicle4.recently_counted st)
             (Vehicle4.collect_centers counterShape)
    /\ Vehicle4.counter st
       <= Vehicle4.counter (Vehicle4.process_frame st counterShape)
    /\ StronglySorted Z.le
         (Spec.published
            (Vehicle4.vehicle_counter path_exists is_opened window_name
               stream)).
Proof.
  intros recently n frame_idx center st counterShape path_exists is_opened
         window_name stream.
  split; [| split; [| split]].
  - pose proof (count_center_fold frame_idx [center] recently n) as Hone.
    cbn [fold_left Spec.accepted_crossings] in Hone. rewrite Hone.
    destruct (Vehicle4.on_line center
              && negb (Vehicle4.already_counted recently center frame_idx));
      lia.
  - unfold Vehicle4.process_frame. apply count_crossings_counter.
  - apply process_frame_counter_le.
  - unfold Vehicle4.vehicle_counter.
    destruct path_exists; cbn [negb];
      [| repeat constructor].
    destruct is_opened; cbn [negb]; [| repeat constructor].
    destruct (reading_loop_published window_name stream
                Vehicle4.initial_counter) as (_ & Hsorted & Hall).
    destruct (Vehicle4.reading_loop window_name Vehicle4.initial_counter
                stream) as [effects final].
    cbn [fst snd] in *. rewrite published_app.
    cbn [Spec.published flat_map app Vehicle4.item_counter snd].
    apply strongly_sorted_snoc; [exact Hsorted |].
    eapply Forall_impl; [| exact Hall]. cbn. intros c Hc. lia.
Qed.

(** ** The counter thread *)

Lemma reading_loop_items (window_name : string)
    (stream : list (bool * list Vehicle4.rect)) :
  forall st : Vehicle4.counter_state,
    Vehicle4.reading_loop window_name st stream
      = (map Vehicle4.Put
           (Spec.frame_items window_name st (Spec.frames_read stream)),
         fold_left Vehicle4.process_frame (Spec.frames_read stream) st).
Proof.
  induction stream as [|[stop_is_set counterShape] rest IH]; intros st.
  - reflexivity.
  - cbn [Vehicle4.reading_loop Spec.frames_read]. destruct stop_is_set.
    + reflexivity.
    + rewrite IH. reflexivity.
Qed.

Lemma frame_items_shape (window_name : string)
    (frames : list (list Vehicle4.rect)) :
  forall st : Vehicle4.counter_state,
    List.length (Spec.frame_items window_name st frames) = List.length frames
    /\ Forall
         (fun it =>
            Vehicle4.item_lane it = window_name
            /\ Vehicle4.item_frame it <> None)
         (Spec.frame_items window_name st frames).
Proof.
  induction frames as [|counterShape rest IH]; intros st.
  - split; [reflexivity | constructor].
  - cbn [Spec.frame_items List.length].
    destruct (IH (Vehicle4.process_frame st counterShape)) as [Hlen Hall].
    split; [rewrite Hlen; reflexivity |].
    constructor; [| exact Hall].
    split; [reflexivity | discriminate].
Qed.

(** C8.  Whatever the video and the stop event do, a counter thread ends
    by publishing one final item, with [None] as frame, and publishes no
    other such item.  When the file is missing or cannot be opened this is
    all it does, and the item carries 0.  Otherwise it publishes one item
    for each frame read before the video ends or the stop event is seen,
    releases the capture, and the final item carries the counter reached
    on those frames. *)
Theorem C8_terminal_sentinel :
  forall (path_exists is_opened : bool) (window_name : string)
         (stream : list (bool * list Vehicle4.rect)),
    let effects :=
      Vehicle4.vehicle_counter path_exists is_opened window_name stream in
    (exists earlier count,
       effects = earlier ++ [Vehicle4.Put (window_name, None, count)]
       /\ forall it,
            In (Vehicle4.Put it) earlier -> Vehicle4.item_frame it <> None)
    /\ (path_exists = false \/ is_opened = false ->
        effects = [Vehicle4.Put (window_name, None, 0)])
    /\ (path_exists = true ->
        is_opened = true ->
        effects
          = map Vehicle4.Put
              (Spec.frame_items window_name Vehicle4.initial_counter
                 (Spec.frames_read stream))
            ++ [Vehicle4.Release;
                Vehicle4.Put
                  (window_name, None,
                   Vehicle4.counter
                     (fold_left Vehicle4.process_frame
                        (Spec.frames_read stream)
                        Vehicle4.initial_counter))]
        /\ List.length
             (Spec.frame_items window_name Vehicle4.initial_counter
                (Spec.frames_read stream))
           = List.length (Spec.frames_read stream)).
Proof.
  intros path_exists is_opened window_name stream effects.
  assert (Hopen : path_exists = true -> is_opened = true ->
            effects
              = map Vehicle4.Put
                  (Spec.frame_items window_name Vehicle4.initial_counter
                     (Spec.frames_read stream))
                ++ [Vehicle4.Release;
                    Vehicle4.Put
                      (window_name, None,
                       Vehicle4.counter
                         (fold_left Vehicle4.process_frame
                            (Spec.frames_read stream)
                            Vehicle4.initial_counter))]).
  { intros -> ->. subst effects. unfold Vehicle4.vehicle_counter.
    cbn [negb]. rewrite reading_loop_items. reflexivity. }
  assert (Hfail : path_exists = false \/ is_opened = false ->
            effects = [Vehicle4.Put (window_name, None, 0)]).
  { subst effects. unfold Vehicle4.vehicle_counter.
    intros [-> | ->]; [reflexivity |].
    destruct path_exists; reflexivity. }
  split; [| split; [exact Hfail |]].
  - destruct path_exists eqn:Hpath; [destruct is_opened eqn:Hopened |].
    + rewrite (Hopen eq_refl eq_refl).
      exists (map Vehicle4.Put
                (Spec.frame_items window_name Vehicle4.initial_counter
                   (Spec.frames_read stream)) ++ [Vehicle4.Release]).
      eexists. split.
      * rewrite <- app_assoc. reflexivity.
      * intros it Hin. apply in_app_or in Hin.
        destruct Hin as [Hin | [Hrel | []]]; [| discriminate].
        apply in_map_iff in Hin. destruct Hin as (it' & Heq & Hin).
        injection Heq as ->.
        destruct (frame_items_shape window_name (Spec.frames_read stream)
                    Vehicle4.initial_counter) as [_ Hall].
        rewrite Forall_forall in Hall. apply (Hall it Hin).
    + rewrite (Hfail (or_intror eq_refl)).
      exists [], 0. split; [reflexivity | intros it []].
    + rewrite (Hfail (or_introl eq_refl)).
      exists [], 0. split; [reflexivity | intros it []].
  - intros Hpath Hopened. split; [exact (Hopen Hpath Hopened) |].
    apply frame_items_shape.
Qed.

(** C8 on a video of three frames without any vehicle, the stop event
    being seen before the third, and on a missing file. *)
Lemma C8_terminal_sentinel_witness :
  Vehicle4.vehicle_counter true true "Lane 1"
    [(false, []); (false, []); (true, [])]
    = [Vehicle4.Put ("Lane 1", Some 1, 0);
       Vehicle4.Put ("Lane 1", Some 2, 0);
       Vehicle4.Release;
       Vehicle4.Put ("Lane 1", None, 0)]
  /\ Vehicle4.vehicle_counter false true "Lane 1" [(false, [])]
     = [Vehicle4.Put ("Lane 1", None, 0)].
Proof.
  split.
  - exact (proj1 (proj2 (proj2
             (C8_terminal_sentinel true true "Lane 1"
                [(false, []); (false, []); (true, [])]))
             eq_refl eq_refl)).
  - exact (proj1 (proj2
             (C8_terminal_sentinel false true "Lane 1" [(false, [])]))
             (or_introl eq_refl)).
Defined.

(** ** The display thread *)

Section DictFacts.

Context {V : Type}.

Lemma getitem_setitem (d : dict V) (k k' : string) (v : V) :
  getitem (setitem d k v) k'
    = if String.eqb k k' then Some v else getitem d k'.
Proof.
  induction d as [|[k0 v0] d IH].
  - reflexivity.
  - cbn [setitem]. destruct (String.eqb_spec k0 k) as [-> | Hne].
    + cbn [getitem]. destruct (String.eqb k k'); reflexivity.
    + cbn [getitem]. rewrite IH.
      destruct (String.eqb_spec k0 k') as [-> | Hne'];
        [| reflexivity].
      destruct (String.eqb_spec k k') as [-> | _];
        [contradiction Hne; reflexivity | reflexivity].
Qed.

Lemma keys_setitem (d : dict V) (k k' : string) (v : V) :
  In k' (keys (setitem d k v)) <-> k' = k \/ In k' (keys d).
Proof.
  induction d as [|[k0 v0] d IH].
  - cbn. intuition congruence.
  - cbn [setitem]. destruct (String.eqb_spec k0 k) as [-> | Hne].
    + cbn. intuition congruence.
    + cbn [keys map fst In] in *. rewrite IH. tauto.
Qed.

Lemma NoDup_keys_setitem (d : dict V) (k : string) (v : V) :
  NoDup (keys d) -> NoDup (keys (setitem d k v)).
Proof.
  induction d as [|[k0 v0] d IH]; intros Hnodup.
  - cbn. constructor; [intros [] | constructor].
  - cbn [setitem]. destruct (String.eqb_spec k0 k) as [-> | Hne].
    + exact Hnodup.
    + cbn [keys map fst] in *. inversion Hnodup as [|k1 l Hnotin Hd]; subst.
      constructor; [| apply IH; exact Hd].
      intros Hin. apply keys_setitem in Hin.
      destruct Hin as [-> | Hin]; [apply Hne; reflexivity | auto].
Qed.

End DictFacts.

(** The dictionary [{lane: 0 for lane in lane_list}]. *)
Lemma initial_counts (lane_list : list string) :
  let d := fold_left (fun d lane => setitem d lane 0) lane_list [] in
  NoDup (keys d)
  /\ (forall lane, In lane lane_list -> In lane (keys d))
  /\ (forall lane, In lane lane_list -> getitem d lane = Some 0).
Proof.
  induction lane_list as [|l lane_list IH] using rev_ind.
  - cbn. split; [constructor | split; intros lane []].
  - cbv zeta in *. rewrite fold_left_app. cbn [fold_left].
    destruct IH as (Hnodup & Hkeys & Hzero).
    split; [apply NoDup_keys_setitem; exact Hnodup |]. split.
    + intros lane Hin. apply keys_setitem. apply in_app_or in Hin.
      destruct Hin as [Hin | [<- | []]]; [right; auto | left; reflexivity].
    + intros lane Hin. rewrite getitem_setitem.
      destruct (String.eqb_spec l lane) as [_ | Hne]; [reflexivity |].
      apply in_app_or in Hin.
      destruct Hin as [Hin | [<- | []]];
        [auto | contradiction Hne; reflexivity].
Qed.

Lemma last_observed_snoc (lane : string) (taken : list Vehicle4.item)
    (it : Vehicle4.item) :
  Spec.last_observed lane (taken ++ [it])
    = if String.eqb (Vehicle4.item_lane it) lane
      then Vehicle4.item_counter it
      else Spec.last_observed lane taken.
Proof. unfold Spec.last_observed. rewrite fold_left_app. reflexivity. Qed.

Lemma single_sentinel_prefix (taken : list Vehicle4.item)
    (it : Vehicle4.item) :
  Spec.single_sentinel (taken ++ [it]) -> Spec.single_sentinel taken.
Proof.
  intros Hsingle before s after s' Hsplit Hs Hin Hs'.
  apply (Hsingle before s (after ++ [it]) s').
  - rewrite Hsplit, <- app_assoc. reflexivity.
  - exact Hs.
  - apply in_or_app. left. exact Hin.
  - exact Hs'.
Qed.

Lemma in_windows_iff (windows : list string) (window_name : string) :
  Vehicle4.in_windows windows window_name = true <-> In window_name windows.
Proof.
  unfold Vehicle4.in_windows. rewrite existsb_exists. split.
  - intros (w & Hin & Heq). apply String.eqb_eq in Heq. subst. exact Hin.
  - intros Hin. exists window_name. split; [exact Hin | apply String.eqb_refl].
Qed.

Lemma follow_lane_snoc (lane : string) (taken : list Vehicle4.item)
    (it : Vehicle4.item) :
  fold_left (Spec.follow_lane lane) (taken ++ [it]) (false, 0)
    = Spec.follow_lane lane
        (Spec.closed_after lane taken, Spec.last_processed lane taken) it.
Proof.
  unfold Spec.closed_after, Spec.last_processed.
  rewrite fold_left_app. cbn [fold_left].
  destruct (fold_left _ taken _). reflexivity.
Qed.

(** A lane counts as closed only once one of its final items is taken. *)
Lemma closed_after_sentinel (lane : string) (taken : list Vehicle4.item) :
  Spec.closed_after lane taken = true ->
  exists count, In (lane, None, count) taken.
Proof.
  induction taken as [|it taken IH] using rev_ind.
  - discriminate.
  - unfold Spec.closed_after. rewrite follow_lane_snoc.
    destruct it as [[window_name frame] count].
    unfold Spec.follow_lane. cbn [Vehicle4.item_lane Vehicle4.item_frame
                                   Vehicle4.item_counter fst snd].
    assert (Hmore : (exists c, In (lane, None, c) taken) ->
                    exists c, In (lane, None, c)
                                 (taken ++ [(window_name, frame, count)])).
    { intros [c Hc]. exists c. apply in_or_app. left. exact Hc. }
    destruct (String.eqb_spec window_name lane) as [-> | _];
      [| intros H; apply Hmore, IH, H].
    destruct frame as [img |]; [intros H; apply Hmore, IH, H |].
    destruct (Spec.closed_after lane taken);
      [intros _; apply Hmore, IH; reflexivity |].
    intros _. exists count. apply in_or_app. right. left. reflexivity.
Qed.

(** As long as no lane sends two final items, every item taken is acted
    on, and the last count acted on is the last count taken. *)
Lemma last_processed_observed (lane : string) (taken : list Vehicle4.item) :
  Spec.single_sentinel taken ->
  Spec.last_processed lane taken = Spec.last_observed lane taken.
Proof.
  induction taken as [|it taken IH] using rev_ind; intros Hsingle.
  - reflexivity.
  - specialize (IH (single_sentinel_prefix _ _ Hsingle)).
    rewrite last_observed_snoc.
    unfold Spec.last_processed at 1. rewrite follow_lane_snoc.
    destruct it as [[window_name frame] count].
    unfold Spec.follow_lane. cbn [Vehicle4.item_lane Vehicle4.item_frame
                                   Vehicle4.item_counter fst snd].
    destruct (String.eqb_spec window_name lane) as [-> | _];
      [| exact IH].
    destruct frame as [img |]; [reflexivity |].
    destruct (Spec.closed_after lane taken) eqn:Hclosed; [| reflexivity].
    exfalso.
    destruct (closed_after_sentinel lane taken Hclosed) as [c Hc].
    apply in_split in Hc. destruct Hc as (before & after & Hsplit).
    apply (Hsingle before (lane, None, c)
             (after ++ [(lane, None, count)]) (lane, None, count)).
    + rewrite Hsplit, <- app_assoc. reflexivity.
    + reflexivity.
    + apply in_or_app. right. left. reflexivity.
    + reflexivity.
    + reflexivity.
Qed.

(** Taking an item off the queue moves it from the queued to the taken
    items. *)
Lemma take_item (arrived : list Vehicle4.item) (st : Vehicle4.display_state)
    (env : Vehicle4.display_env) (it : Vehicle4.item)
    (rest : list Vehicle4.item) :
  Vehicle4.taken st ++ Vehicle4.count_queue st = arrived ->
  Vehicle4.count_queue st ++ Vehicle4.arrivals env = it :: rest ->
  (Vehicle4.taken st ++ [it]) ++ rest = arrived ++ Vehicle4.arrivals env.
Proof.
  intros Hqueue Hq.
  rewrite <- app_assoc. cbn [app]. rewrite <- Hq, app_assoc, Hqueue.
  reflexivity.
Qed.

(** Recording the count of a frame, or of the final item of a lane whose
    window is open, keeps the counts in step with the items acted on. *)
Lemma record_count (lane_list : list string) (counts : dict Z)
    (taken : list Vehicle4.item) (window_name : string)
    (frame : option Vehicle4.image) (count : Z) :
  NoDup (keys counts) ->
  (forall lane, In lane lane_list -> In lane (keys counts)) ->
  (forall lane,
     In lane lane_list ->
     getitem counts lane = Some (Spec.last_processed lane taken)) ->
  (frame = None ->
   In window_name lane_list ->
   Spec.closed_after window_name taken = false) ->
  NoDup (keys (setitem counts window_name count))
  /\ (forall lane,
        In lane lane_list ->
        In lane (keys (setitem counts window_name count)))
  /\ (forall lane,
        In lane lane_list ->
        getitem (setitem counts window_name count) lane
          = Some (Spec.last_processed lane
                    (taken ++ [(window_name, frame, count)]))).
Proof.
  intros Hnodup Hkeys Hlast Hopen. split; [| split].
  - apply NoDup_keys_setitem. exact Hnodup.
  - intros lane Hin. apply keys_setitem. right. auto.
  - intros lane Hin.
    rewrite getitem_setitem.
    unfold Spec.last_processed at 1. rewrite follow_lane_snoc.
    unfold Spec.follow_lane. cbn [Vehicle4.item_lane Vehicle4.item_frame
                                   Vehicle4.item_counter fst snd].
    destruct (String.eqb_spec window_name lane) as [-> | _];
      [| apply Hlast; exact Hin].
    destruct frame as [img |]; [reflexivity |].
    rewrite (Hopen eq_refl Hin). reflexivity.
Qed.

(** A turn that does not break out keeps the invariant. *)
Lemma display_turn_next (lane_list : list string)
    (arrived : list Vehicle4.item) (st st' : Vehicle4.display_state)
    (env : Vehicle4.display_env) :
  Spec.display_invariant lane_list arrived st ->
  Vehicle4.display_turn st env = Vehicle4.Next st' ->
  Spec.display_invariant lane_list (arrived ++ Vehicle4.arrivals env) st'.
Proof.
  intros (Hqueue & Hnodup & Hkeys & Hopen & Hlast) Hturn.
  unfold Vehicle4.display_turn in Hturn.
  destruct (Vehicle4.count_queue st ++ Vehicle4.arrivals env)
    as [|[[window_name frame] count] rest] eqn:Hq.
  - destruct (Vehicle4.stop_is_set env); [discriminate |].
    injection Hturn as <-.
    apply app_eq_nil in Hq. destruct Hq as [Hq1 Hq2].
    rewrite Hq2, app_nil_r.
    repeat split; try assumption; apply Hopen; assumption.
  - pose proof (take_item arrived st env _ rest Hqueue Hq) as Harrived.
    assert (Hclosed : forall lane,
              Spec.closed_after lane
                (Vehicle4.taken st ++ [(window_name, frame, count)])
              = fst (Spec.follow_lane lane
                       (Spec.closed_after lane (Vehicle4.taken st),
                        Spec.last_processed lane (Vehicle4.taken st))
                       (window_name, frame, count))).
    { intros lane. unfold Spec.closed_after at 1.
      rewrite follow_lane_snoc. reflexivity. }
    destruct frame as [img |].
    + destruct ((Z.land (Vehicle4.waitKey env) 255 =? 122)
                || (Z.land (Vehicle4.waitKey env) 255 =? 90));
        [discriminate |].
      injection Hturn as <-.
      destruct (record_count lane_list (Vehicle4.final_counts st)
                  (Vehicle4.taken st) window_name (Some img) count
                  Hnodup Hkeys Hlast) as (Hnodup' & Hkeys' & Hlast');
        [discriminate |].
      split; [exact Harrived |]. split; [exact Hnodup' |].
      split; [exact Hkeys' |]. split; [| exact Hlast'].
      cbn [Vehicle4.windows Vehicle4.taken].
      intros lane Hin. rewrite Hclosed. unfold Spec.follow_lane.
      cbn [Vehicle4.item_lane Vehicle4.item_frame fst snd].
      destruct (String.eqb window_name lane); apply Hopen; exact Hin.
    + destruct (Vehicle4.in_windows (Vehicle4.windows st) window_name)
        eqn:Hwin; injection Hturn as <-.
      * apply in_windows_iff in Hwin.
        destruct (record_count lane_list (Vehicle4.final_counts st)
                    (Vehicle4.taken st) window_name None count
                    Hnodup Hkeys Hlast) as (Hnodup' & Hkeys' & Hlast').
        { intros _ Hin. apply Hopen; assumption. }
        split; [exact Harrived |]. split; [exact Hnodup' |].
        split; [exact Hkeys' |]. split; [| exact Hlast'].
        cbn [Vehicle4.windows Vehicle4.taken].
        intros lane Hin. rewrite Hclosed. unfold Spec.follow_lane.
        cbn [Vehicle4.item_lane Vehicle4.item_frame fst snd].
        destruct (String.eqb_spec window_name lane) as [-> | Hne].
        -- rewrite (proj1 (Hopen lane Hin) Hwin). cbn [fst]. split.
           ++ intros Hrem. apply remove_In in Hrem. destruct Hrem.
           ++ discriminate.
        -- rewrite <- (Hopen lane Hin). split.
           ++ intros Hrem. apply in_remove in Hrem. tauto.
           ++ intros Hw. apply in_in_remove; [congruence | exact Hw].
      * assert (Hnot : ~ In window_name (Vehicle4.windows st)).
        { intros Hw. apply in_windows_iff in Hw.
          rewrite Hw in Hwin. discriminate. }
        split; [exact Harrived |]. split; [exact Hnodup |].
        split; [exact Hkeys |].
        cbn [Vehicle4.windows Vehicle4.taken Vehicle4.final_counts].
        assert (Hsame : forall lane,
                  In lane lane_list ->
                  Spec.follow_lane lane
                    (Spec.closed_after lane (Vehicle4.taken st),
                     Spec.last_processed lane (Vehicle4.taken st))
                    (window_name, None, count)
                  = (Spec.closed_after lane (Vehicle4.taken st),
                     Spec.last_processed lane (Vehicle4.taken st))).
        { intros lane Hin. unfold Spec.follow_lane.
          cbn [Vehicle4.item_lane Vehicle4.item_frame fst snd].
          destruct (String.eqb_spec window_name lane) as [-> | _];
            [| reflexivity].
          destruct (Spec.closed_after lane (Vehicle4.taken st)) eqn:Hc;
            [reflexivity |].
          exfalso. apply Hnot. apply (Hopen lane Hin). exact Hc. }
        split.
        -- intros lane Hin. rewrite Hclosed, (Hsame lane Hin).
           apply Hopen. exact Hin.
        -- intros lane Hin. unfold Spec.last_processed at 1.
           rewrite follow_lane_snoc, (Hsame lane Hin).
           apply Hlast. exact Hin.
Qed.

(** A turn that breaks out writes the counts as they stand, and leaves
    what remains of the queue aside. *)
Lemma display_turn_break (lane_list : list string)
    (arrived : list Vehicle4.item) (st st' : Vehicle4.display_state)
    (env : Vehicle4.display_env) (written : dict Z)
    (discarded : list Vehicle4.item) :
  Spec.display_invariant lane_list arrived st ->
  Vehicle4.display_turn st env = Vehicle4.Break st' written discarded ->
  Vehicle4.taken st' ++ discarded = arrived ++ Vehicle4.arrivals env
  /\ Vehicle4.count_queue st' = []
  /\ written = Vehicle4.final_counts st'
  /\ NoDup (keys written)
  /\ (forall lane, In lane lane_list -> In lane (keys written))
  /\ (forall lane,
        In lane lane_list ->
        getitem written lane
          = Some (Spec.last_processed lane (Vehicle4.taken st'))).
Proof.
  intros (Hqueue & Hnodup & Hkeys & Hopen & Hlast) Hturn.
  unfold Vehicle4.display_turn in Hturn.
  destruct (Vehicle4.count_queue st ++ Vehicle4.arrivals env)
    as [|[[window_name frame] count] rest] eqn:Hq.
  - destruct (Vehicle4.stop_is_set env); [| discriminate].
    injection Hturn as <- <- <-.
    apply app_eq_nil in Hq. destruct Hq as [Hq1 Hq2].
    cbn [Vehicle4.taken Vehicle4.count_queue Vehicle4.final_counts].
    rewrite Hq2, !app_nil_r, <- Hqueue, Hq1, app_nil_r.
    repeat split; assumption.
  - pose proof (take_item arrived st env _ rest Hqueue Hq) as Harrived.
    destruct frame as [img |].
    + destruct ((Z.land (Vehicle4.waitKey env) 255 =? 122)
                || (Z.land (Vehicle4.waitKey env) 255 =? 90));
        [| discriminate].
      injection Hturn as <- <- <-.
      cbn [Vehicle4.taken Vehicle4.count_queue Vehicle4.final_counts].
      destruct (record_count lane_list (Vehicle4.final_counts st)
                  (Vehicle4.taken st) window_name (Some img) count
                  Hnodup Hkeys Hlast) as (Hnodup' & Hkeys' & Hlast');
        [discriminate |].
      repeat split; assumption.
    + destruct (Vehicle4.in_windows (Vehicle4.windows st) window_name);
        discriminate.
Qed.

(** The loop breaks out only after some turns, and then with the report
    of the counts taken during them. *)
Lemma display_loop_cancelled (lane_list : list string)
    (envs : list Vehicle4.display_env) :
  forall (arrived : list Vehicle4.item) (st st' : Vehicle4.display_state)
         (written : dict Z) (discarded : list Vehicle4.item),
    Spec.display_invariant lane_list arrived st ->
    Vehicle4.display_loop st envs = Vehicle4.Cancelled st' written discarded ->
    (exists turns rest,
       envs = turns ++ rest
       /\ Vehicle4.taken st' ++ discarded
          = arrived ++ List.concat (map Vehicle4.arrivals turns))
    /\ Vehicle4.count_queue st' = []
    /\ written = Vehicle4.final_counts st'
    /\ NoDup (keys written)
    /\ (forall lane, In lane lane_list -> In lane (keys written))
    /\ (forall lane,
          In lane lane_list ->
          getitem written lane
            = Some (Spec.last_processed lane (Vehicle4.taken st'))).
Proof.
  induction envs as [|env envs IH];
    intros arrived st st' written discarded Hinv Hloop.
  - cbn in Hloop. destruct (Vehicle4.windows st); discriminate.
  - cbn [Vehicle4.display_loop] in Hloop.
    destruct (Vehicle4.windows st) as [|w ws]; [discriminate |].
    destruct (Vehicle4.display_turn st env) as [st1 | st1 wr di] eqn:Hturn.
    + destruct (IH _ _ _ _ _ (display_turn_next _ _ _ _ _ Hinv Hturn) Hloop)
        as ((turns & rest & Hsplit & Hitems) & Hfacts).
      split; [| exact Hfacts].
      exists (env :: turns), rest. split; [rewrite Hsplit; reflexivity |].
      rewrite Hitems. cbn [map List.concat]. rewrite app_assoc. reflexivity.
    + injection Hloop as <- <- <-.
      destruct (display_turn_break _ _ _ _ _ _ _ Hinv Hturn)
        as (Hitems & Hfacts).
      split; [| exact Hfacts].
      exists [env], envs. split; [reflexivity |].
      rewrite Hitems. cbn [map List.concat]. rewrite app_nil_r. reflexivity.
Qed.

(** ** The lines of the report file *)

(** A string is cut in one way only at the last occurrence of a
    character. *)
Lemma split_at_last_char (c : ascii) (l1 : string) :
  forall l2 r1 r2 : string,
    Spec.has_char c r1 = false ->
    Spec.has_char c r2 = false ->
    (l1 ++ String c r1)%string = (l2 ++ String c r2)%string ->
    l1 = l2 /\ r1 = r2.
Proof.
  assert (Hocc : forall l r : string,
            Spec.has_char c (l ++ String c r)%string = true).
  { induction l as [|a l IH]; intros r; cbn.
    - rewrite Ascii.eqb_refl. reflexivity.
    - rewrite IH. apply orb_true_r. }
  induction l1 as [|a l1 IH]; intros l2 r1 r2 H1 H2 Heq.
  - destruct l2 as [|b l2]; cbn in Heq.
    + injection Heq as ->. split; reflexivity.
    + injection Heq as _ ->. rewrite Hocc in H1. discriminate.
  - destruct l2 as [|b l2]; cbn in Heq.
    + injection Heq as _ <-. rewrite Hocc in H2. discriminate.
    + injection Heq as -> Heq. destruct (IH _ _ _ H1 H2 Heq) as [-> ->].
      split; reflexivity.
Qed.

Lemma has_char_append (c : ascii) (s1 s2 : string) :
  Spec.has_char c (s1 ++ s2)%string
    = Spec.has_char c s1 || Spec.has_char c s2.
Proof.
  induction s1 as [|a s1 IH]; [reflexivity |].
  cbn. rewrite IH. apply orb_assoc.
Qed.

(** The decimal text of an integer holds no apostrophe. *)
Lemma str_no_apostrophe (n : Z) :
  Spec.has_char "'" (Vehicle4.str n) = false.
Proof.
  assert (Huint : forall d, Spec.has_char "'" (NilEmpty.string_of_uint d)
                            = false).
  { induction d; cbn; assumption || reflexivity. }
  unfold Vehicle4.str. destruct (Z.to_int n) as [d | d]; cbn; apply Huint.
Qed.

(** The decimal text of an integer reads back as that integer. *)
Lemma str_reads_back (n : Z) :
  option_map Z.of_int (NilEmpty.int_of_string (Vehicle4.str n)) = Some n.
Proof.
  unfold Vehicle4.str. rewrite NilEmpty.isi. cbn [option_map].
  rewrite DecimalZ.of_to. reflexivity.
Qed.

Lemma dict_row_injective (lane1 lane2 : string) (count1 count2 : Z) :
  Vehicle4.dict_row (lane1, count1) = Vehicle4.dict_row (lane2, count2) ->
  lane1 = lane2 /\ count1 = count2.
Proof.
  unfold Vehicle4.dict_row. cbn [append]. intros Heq.
  injection Heq as Heq.
  assert (Hrest : forall n,
            Spec.has_char "'"
              (String ":" (String " "
                 (Vehicle4.str n ++ String "," Vehicle4.newline))) = false).
  { intros n. cbn [Spec.has_char]. rewrite has_char_append, str_no_apostrophe.
    reflexivity. }
  destruct (split_at_last_char "'" lane1 lane2 _ _
              (Hrest count1) (Hrest count2) Heq) as [Hlane Htail].
  split; [exact Hlane |].
  injection Htail as Htail.
  destruct (split_at_last_char "," (Vehicle4.str count1)
              (Vehicle4.str count2) Vehicle4.newline Vehicle4.newline
              eq_refl eq_refl Htail) as [Hstr _].
  pose proof (str_reads_back count1) as H1.
  rewrite Hstr, str_reads_back in H1. injection H1 as ->. reflexivity.
Qed.

Lemma string_append_assoc (a b c : string) :
  ((a ++ b) ++ c)%string = (a ++ (b ++ c))%string.
Proof.
  induction a as [|x a IH]; [reflexivity |].
  cbn. rewrite IH. reflexivity.
Qed.

(** The decimal text of an integer holds no comma. *)
Lemma str_no_comma (n : Z) :
  Spec.has_char "," (Vehicle4.str n) = false.
Proof.
  assert (Huint : forall d, Spec.has_char "," (NilEmpty.string_of_uint d)
                            = false).
  { induction d; cbn; assumption || reflexivity. }
  unfold Vehicle4.str. destruct (Z.to_int n) as [d | d]; cbn; apply Huint.
Qed.

(** The last character of a string is in every non-empty end of it. *)
Lemma last_char_in (c : ascii) (s : string) :
  forall t u : string,
    u <> EmptyString ->
    (s ++ String c EmptyString)%string = (t ++ u)%string ->
    Spec.has_char c u = true.
Proof.
  induction s as [|a s IH]; intros t u Hu Heq.
  - destruct t as [|b t]; cbn in Heq.
    + rewrite <- Heq. cbn. rewrite Ascii.eqb_refl. reflexivity.
    + injection Heq as _ Heq.
      destruct t, u; try discriminate; try (contradiction Hu; reflexivity).
  - destruct t as [|b t]; cbn in Heq.
    + rewrite <- Heq. cbn. rewrite has_char_append. cbn.
      rewrite Ascii.eqb_refl. cbn. rewrite !orb_true_r. reflexivity.
    + injection Heq as _ Heq. exact (IH t u Hu Heq).
Qed.

(** A line of the table is never a line of the [lane_counts] section: the
    one ends on a digit or a space, the other on a comma. *)
Lemma table_row_not_dict_row (e e' : string * Z) :
  Vehicle4.table_row e <> Vehicle4.dict_row e'.
Proof.
  destruct e as [l n], e' as [lane c].
  unfold Vehicle4.table_row, Vehicle4.dict_row, Vehicle4.newline.
  intros Heq.
  rewrite <- !string_append_assoc in Heq.
  apply split_at_last_char in Heq; [| reflexivity | reflexivity].
  destruct Heq as [Heq _].
  rewrite string_append_assoc in Heq. symmetry in Heq.
  apply last_char_in in Heq; [| discriminate].
  cbn in Heq. rewrite str_no_comma in Heq. discriminate.
Qed.

Lemma getitem_In (d : dict Z) (k : string) (v : Z) :
  getitem d k = Some v -> In (k, v) d.
Proof.
  induction d as [|[k0 v0] d IH]; [discriminate |].
  cbn [getitem]. destruct (String.eqb_spec k0 k) as [-> | _].
  - intros Heq. injection Heq as ->. left. reflexivity.
  - intros Heq. right. apply IH. exact Heq.
Qed.

Lemma In_getitem (d : dict Z) (k : string) (v : Z) :
  NoDup (keys d) -> In (k, v) d -> getitem d k = Some v.
Proof.
  induction d as [|[k0 v0] d IH]; intros Hnodup Hin; [destruct Hin |].
  unfold keys in Hnodup. cbn [map fst] in Hnodup.
  inversion Hnodup as [|k1 l Hfresh Hrest]; subst.
  cbn [getitem]. destruct Hin as [Heq | Hin].
  - injection Heq as -> ->. rewrite String.eqb_refl. reflexivity.
  - destruct (String.eqb_spec k0 k) as [-> | _]; [| apply IH; assumption].
    exfalso. apply Hfresh. apply (in_map fst) in Hin. exact Hin.
Qed.

(** A mapping writes one line of the [lane_counts] section for each of
    its entries, and no other line for the same lane. *)
Lemma dict_rows_once (d : dict Z) (lane : string) (count : Z) :
  NoDup (keys d) ->
  In (lane, count) d ->
  count_occ string_dec (map Vehicle4.dict_row d)
    (Vehicle4.dict_row (lane, count)) = 1%nat.
Proof.
  induction d as [|[k v] d IH]; intros Hnodup Hin; [destruct Hin |].
  unfold keys in Hnodup. cbn [map fst] in Hnodup.
  inversion Hnodup as [|k1 l Hfresh Hrest]; subst.
  cbn [map count_occ].
  destruct (string_dec (Vehicle4.dict_row (k, v))
              (Vehicle4.dict_row (lane, count))) as [Hrow | Hrow].
  - apply dict_row_injective in Hrow. destruct Hrow as [-> ->].
    f_equal. apply count_occ_not_In. intros Hin'.
    apply in_map_iff in Hin'. destruct Hin' as ([k' v'] & Hrow' & Hin').
    apply dict_row_injective in Hrow'. destruct Hrow' as [-> ->].
    apply Hfresh. apply (in_map fst) in Hin'. exact Hin'.
  - destruct Hin as [Heq | Hin].
    + injection Heq as -> ->. contradiction Hrow. reflexivity.
    + apply IH; assumption.
Qed.

(** Where the lines of the [lane_counts] section stand in what
    [write_counts_table] writes: among the lines written for the entries
    by the second loop, and nowhere else. *)
Lemma dict_rows_of_report (d : dict Z) (e : string * Z) :
  (In (Vehicle4.dict_row e) (Vehicle4.write_counts_table d)
   <-> In (Vehicle4.dict_row e) (map Vehicle4.dict_row d))
  /\ count_occ string_dec (Vehicle4.write_counts_table d)
       (Vehicle4.dict_row e)
     = count_occ string_dec (map Vehicle4.dict_row d) (Vehicle4.dict_row e).
Proof.
  assert (Hfixed : forall line,
            In line
               [(Vehicle4.docstring_quotes ++ Vehicle4.newline)%string;
                ("Lane        | Vehicle Count" ++ Vehicle4.newline)%string;
                ("------------|--------------" ++ Vehicle4.newline)%string;
                (Vehicle4.newline ++ "lane_counts = {"
                 ++ Vehicle4.newline)%string;
                ("}" ++ Vehicle4.newline)%string] ->
            line <> Vehicle4.dict_row e).
  { destruct e as [lane count]. intros line Hin Heq. subst line.
    unfold Vehicle4.dict_row, Vehicle4.docstring_quotes, Vehicle4.newline
      in Hin.
    cbn [append] in Hin.
    destruct Hin as [H | [H | [H | [H | [H | []]]]]]; discriminate H. }
  assert (Hhead : ~ In (Vehicle4.dict_row e)
                    ([(Vehicle4.docstring_quotes ++ Vehicle4.newline)%string;
                      ("Lane        | Vehicle Count"
                       ++ Vehicle4.newline)%string;
                      ("------------|--------------"
                       ++ Vehicle4.newline)%string]
                     ++ map Vehicle4.table_row d
                     ++ [(Vehicle4.docstring_quotes
                          ++ Vehicle4.newline)%string;
                         (Vehicle4.newline ++ "lane_counts = {"
                          ++ Vehicle4.newline)%string])).
  { intros Hin. apply in_app_or in Hin. destruct Hin as [Hin | Hin].
    - destruct Hin as [H | [H | [H | []]]];
        refine (Hfixed _ _ H); cbn [In]; auto 10.
    - apply in_app_or in Hin. destruct Hin as [Hin | Hin].
      + apply in_map_iff in Hin. destruct Hin as (e0 & Hrow & _).
        exact (table_row_not_dict_row e0 e Hrow).
      + destruct Hin as [H | [H | []]];
          refine (Hfixed _ _ H); cbn [In]; auto 10. }
  assert (Hfoot : ~ In (Vehicle4.dict_row e)
                    [("}" ++ Vehicle4.newline)%string]).
  { intros [H | []]. refine (Hfixed _ _ H); cbn [In]; auto 10. }
  assert (Hshape : Vehicle4.write_counts_table d
                   = ([(Vehicle4.docstring_quotes
                        ++ Vehicle4.newline)%string;
                       ("Lane        | Vehicle Count"
                        ++ Vehicle4.newline)%string;
                       ("------------|--------------"
                        ++ Vehicle4.newline)%string]
                      ++ map Vehicle4.table_row d
                      ++ [(Vehicle4.docstring_quotes
                           ++ Vehicle4.newline)%string;
                          (Vehicle4.newline ++ "lane_counts = {"
                           ++ Vehicle4.newline)%string])
                     ++ map Vehicle4.dict_row d
                     ++ [("}" ++ Vehicle4.newline)%string]).
  { unfold Vehicle4.write_counts_table. rewrite <- !app_assoc. reflexivity. }
  rewrite Hshape. split.
  - split.
    + intros Hin. apply in_app_or in Hin.
      destruct Hin as [Hin | Hin]; [contradiction |].
      apply in_app_or in Hin. destruct Hin as [Hin | Hin];
        [exact Hin | contradiction].
    + intros Hin. apply in_or_app. right. apply in_or_app. left. exact Hin.
  - rewrite count_occ_app.
    rewrite (proj1 (count_occ_not_In string_dec _ _) Hhead).
    rewrite count_occ_app.
    rewrite (proj1 (count_occ_not_In string_dec _ _) Hfoot).
    lia.
Qed.

(** The report for a mapping without repeated keys: an entry of the
    mapping has its line in the table and exactly one line in the
    [lane_counts] section, and that section holds no line that gives the
    lane another count. *)
Lemma report_entry (d : dict Z) (lane : string) (count : Z) :
  NoDup (keys d) ->
  getitem d lane = Some count ->
  In (Vehicle4.table_row (lane, count)) (Vehicle4.write_counts_table d)
  /\ count_occ string_dec (Vehicle4.write_counts_table d)
       (Vehicle4.dict_row (lane, count)) = 1%nat
  /\ forall count',
       In (Vehicle4.dict_row (lane, count')) (Vehicle4.write_counts_table d) ->
       count' = count.
Proof.
  intros Hnodup Hget. pose proof (getitem_In d lane count Hget) as Hin.
  split; [| split].
  - unfold Vehicle4.write_counts_table.
    apply in_or_app. right. apply in_or_app. left.
    apply in_map. exact Hin.
  - rewrite (proj2 (dict_rows_of_report d (lane, count))).
    apply dict_rows_once; assumption.
  - intros count' Hrow.
    apply (proj1 (dict_rows_of_report d (lane, count'))) in Hrow.
    apply in_map_iff in Hrow. destruct Hrow as ([k v] & Hrow & Hin').
    apply dict_row_injective in Hrow. destruct Hrow as [-> ->].
    pose proof (In_getitem d lane count' Hnodup Hin') as Hget'.
    rewrite Hget in Hget'. injection Hget' as ->. reflexivity.
Qed.

(** C7.  When the display thread breaks out on a cancellation, the items
    that arrived split into those it took, in order, and those it
    discarded untouched, and the queue is empty.  The mapping it passes to
    [write_counts_table] is its table of counts: it has exactly one entry
    for every lane of [lane_list], and that entry is the count of the last
    item of the lane it acted on, or 0 when there is none.  The counter
    threads sending one final item each, every item taken is acted on, and
    the entry is the count of the last item taken for the lane.  Pressing
    [z] or [Z] on a frame is such a cancellation: the frame just taken is
    recorded, the report written and the rest of the queue discarded; so
    is finding the queue empty with the stop event set.  The report that
    is then written, the strings of [write_counts_table], holds for every
    lane of [lane_list] the line of the table with that count and exactly
    one line of the [lane_counts] section, with that count and no
    other. *)
Theorem C7_shutdown_report :
  forall (lane_list : list string) (envs : list Vehicle4.display_env)
         (st : Vehicle4.display_state) (written : dict Z)
         (discarded : list Vehicle4.item),
    Vehicle4.display_frames lane_list envs
      = Vehicle4.Cancelled st written discarded ->
    (exists turns rest,
       envs = turns ++ rest
       /\ Vehicle4.taken st ++ discarded
          = List.concat (map Vehicle4.arrivals turns))
    /\ Vehicle4.count_queue st = []
    /\ written = Vehicle4.final_counts st
    /\ (forall lane,
          In lane lane_list ->
          count_occ string_dec (keys written) lane = 1%nat)
    /\ (forall lane,
          In lane lane_list ->
          getitem written lane
            = Some (Spec.last_processed lane (Vehicle4.taken st)))
    /\ (Spec.single_sentinel (Vehicle4.taken st) ->
        forall lane,
          In lane lane_list ->
          getitem written lane
            = Some (Spec.last_observed lane (Vehicle4.taken st)))
    /\ (forall (s : Vehicle4.display_state) (env : Vehicle4.display_env)
               (window_name : string) (img : Vehicle4.image) (count : Z)
               (rest : list Vehicle4.item),
          Vehicle4.count_queue s ++ Vehicle4.arrivals env
            = (window_name, Some img, count) :: rest ->
          Z.land (Vehicle4.waitKey env) 255 = 122
          \/ Z.land (Vehicle4.waitKey env) 255 = 90 ->
          Vehicle4.display_turn s env
            = Vehicle4.Break
                {| Vehicle4.windows := [];
                   Vehicle4.final_counts :=
                     setitem (Vehicle4.final_counts s) window_name count;
                   Vehicle4.count_queue := [];
                   Vehicle4.taken :=
                     Vehicle4.taken s ++ [(window_name, Some img, count)] |}
                (setitem (Vehicle4.final_counts s) window_name count)
                rest)
    /\ (forall (s : Vehicle4.display_state) (env : Vehicle4.display_env),
          Vehicle4.count_queue s ++ Vehicle4.arrivals env = [] ->
          Vehicle4.stop_is_set env = true ->
          Vehicle4.display_turn s env
            = Vehicle4.Break
                {| Vehicle4.windows := [];
                   Vehicle4.final_counts := Vehicle4.final_counts s;
                   Vehicle4.count_queue := [];
                   Vehicle4.taken := Vehicle4.taken s |}
                (Vehicle4.final_counts s) [])
    /\ Vehicle4.report_written (Vehicle4.display_frames lane_list envs)
       = Some (Vehicle4.write_counts_table written)
    /\ (forall lane,
          In lane lane_list ->
          In (Vehicle4.table_row
                (lane, Spec.last_processed lane (Vehicle4.taken st)))
             (Vehicle4.write_counts_table written)
          /\ count_occ string_dec (Vehicle4.write_counts_table written)
               (Vehicle4.dict_row
                  (lane, Spec.last_processed lane (Vehicle4.taken st)))
             = 1%nat
          /\ forall count,
               In (Vehicle4.dict_row (lane, count))
                  (Vehicle4.write_counts_table written) ->
               count = Spec.last_processed lane (Vehicle4.taken st)).
Proof.
  intros lane_list envs st written discarded Hrun.
  pose proof (f_equal Vehicle4.report_written Hrun) as Hreport.
  cbn [Vehicle4.report_written] in Hreport.
  unfold Vehicle4.display_frames in Hrun.
  destruct (initial_counts lane_list) as (Hnodup0 & Hkeys0 & Hzero0).
  cbv zeta in Hnodup0, Hkeys0, Hzero0.
  assert (Hinv : Spec.display_invariant lane_list []
            {| Vehicle4.windows := nodup string_dec lane_list;
               Vehicle4.final_counts :=
                 fold_left (fun d lane => setitem d lane 0) lane_list [];
               Vehicle4.count_queue := [];
               Vehicle4.taken := [] |}).
  { split; [reflexivity |]. split; [exact Hnodup0 |].
    split; [exact Hkeys0 |]. split.
    - cbn [Vehicle4.windows Vehicle4.taken]. intros lane Hin.
      split; [reflexivity |]. intros _. apply nodup_In. exact Hin.
    - intros lane Hin. cbn [Vehicle4.final_counts Vehicle4.taken].
      rewrite (Hzero0 lane Hin). reflexivity. }
  destruct (display_loop_cancelled lane_list envs _ _ _ _ _ Hinv Hrun)
    as (Hitems & Hempty & Hwritten & Hnodup & Hkeys & Hlast).
  split; [exact Hitems |]. split; [exact Hempty |].
  split; [exact Hwritten |]. split; [| split; [exact Hlast | split]].
  - intros lane Hin.
    apply (proj1 (NoDup_count_occ' string_dec (keys written)) Hnodup).
    apply Hkeys. exact Hin.
  - intros Hsingle lane Hin.
    rewrite (Hlast lane Hin), (last_processed_observed lane _ Hsingle).
    reflexivity.
  - split; [| split; [| split]].
    + intros s env window_name img count rest Hq Hkey.
      unfold Vehicle4.display_turn. rewrite Hq.
      destruct Hkey as [-> | ->]; reflexivity.
    + intros s env Hq Hstop.
      unfold Vehicle4.display_turn. rewrite Hq, Hstop. reflexivity.
    + exact Hreport.
    + intros lane Hin.
      exact (report_entry written lane _ Hnodup (Hlast lane Hin)).
Qed.

(** C7 on two lanes: a frame of lane 1 is shown, then a second one on
    which [z] is pressed while a frame of lane 2 is still queued.  The
    report gives lane 1 the count of the frame shown last and lane 2 the
    initial 0, each on one line of the [lane_counts] section, and the
    queued frame is discarded. *)
Lemma C7_shutdown_report_witness :
  exists st,
    Vehicle4.display_frames ["Lane 1"; "Lane 2"]
      [{| Vehicle4.arrivals :=
            [("Lane 1", Some 1, 0); ("Lane 1", Some 2, 3);
             ("Lane 2", Some 1, 1)];
          Vehicle4.waitKey := -1;
          Vehicle4.stop_is_set := false |};
       {| Vehicle4.arrivals := [];
          Vehicle4.waitKey := 122;
          Vehicle4.stop_is_set := false |}]
      = Vehicle4.Cancelled st [("Lane 1", 3); ("Lane 2", 0)]
          [("Lane 2", Some 1, 1)]
    /\ Vehicle4.taken st = [("Lane 1", Some 1, 0); ("Lane 1", Some 2, 3)]
    /\ getitem [("Lane 1", 3); ("Lane 2", 0)] "Lane 2"
       = Some (Spec.last_observed "Lane 2" (Vehicle4.taken st))
    /\ count_occ string_dec (keys [("Lane 1", 3); ("Lane 2", 0)]) "Lane 1"
       = 1%nat
    /\ count_occ string_dec
         (Vehicle4.write_counts_table [("Lane 1", 3); ("Lane 2", 0)])
         (Vehicle4.dict_row
            ("Lane 1", Spec.last_processed "Lane 1" (Vehicle4.taken st)))
       = 1%nat.
Proof.
  eexists. split; [vm_compute; reflexivity |].
  split; [reflexivity |].
  match goal with
  | |- context [Vehicle4.taken ?s] =>
      destruct (C7_shutdown_report ["Lane 1"; "Lane 2"]
                  [{| Vehicle4.arrivals :=
                        [("Lane 1", Some 1, 0); ("Lane 1", Some 2, 3);
                         ("Lane 2", Some 1, 1)];
                      Vehicle4.waitKey := -1;
                      Vehicle4.stop_is_set := false |};
                   {| Vehicle4.arrivals := [];
                      Vehicle4.waitKey := 122;
                      Vehicle4.stop_is_set := false |}]
                  s [("Lane 1", 3); ("Lane 2", 0)] [("Lane 2", Some 1, 1)]
                  eq_refl)
        as (_ & _ & _ & Hone & _ & Hlast & _ & _ & _ & Hlines)
  end.
  split; [| split].
  - apply Hlast; [| right; left; reflexivity].
    intros before it after it' Hsplit Hnone Hin _.
    match type of Hsplit with
    | ?items = _ =>
        assert (Hit : In it items)
          by (rewrite Hsplit; apply in_or_app; right; left; reflexivity)
    end.
    cbn [Vehicle4.taken] in Hit.
    destruct Hit as [<- | [<- | []]]; discriminate.
  - apply Hone. left. reflexivity.
  - apply (Hlines "Lane 1"). left. reflexivity.
Defined.

(** ** Counter threads and the display thread together *)

Lemma put_items_app (effects effects' : list Vehicle4.effect) :
  Spec.put_items (effects ++ effects')
    = Spec.put_items effects ++ Spec.put_items effects'.
Proof. unfold Spec.put_items. apply flat_map_app. Qed.

Lemma put_items_map (items : list Vehicle4.item) :
  Spec.put_items (map Vehicle4.Put items) = items.
Proof.
  induction items as [|it items IH]; [reflexivity |].
  cbn [map Spec.put_items flat_map app].
  fold (Spec.put_items (map Vehicle4.Put items)).
  rewrite IH. reflexivity.
Qed.

(** The items of a counter thread: frames, then one final item. *)
Lemma vehicle_counter_items (path_exists is_opened : bool)
    (window_name : string) (stream : list (bool * list Vehicle4.rect)) :
  exists frames count,
    Spec.put_items
      (Vehicle4.vehicle_counter path_exists is_opened window_name stream)
      = frames ++ [(window_name, None, count)]
    /\ Forall (fun it => Vehicle4.item_frame it <> None) frames.
Proof.
  unfold Vehicle4.vehicle_counter.
  destruct path_exists; cbn [negb];
    [| exists [], 0; split; [reflexivity | constructor]].
  destruct is_opened; cbn [negb];
    [| exists [], 0; split; [reflexivity | constructor]].
  rewrite reading_loop_items, put_items_app, put_items_map.
  eexists. eexists. split; [reflexivity |].
  destruct (frame_items_shape window_name (Spec.frames_read stream)
              Vehicle4.initial_counter) as [_ Hall].
  eapply Forall_impl; [| exact Hall]. cbn. intros it [_ Hframe]. exact Hframe.
Qed.

Lemma single_sentinel_app (taken discarded : list Vehicle4.item) :
  Spec.single_sentinel (taken ++ discarded) -> Spec.single_sentinel taken.
Proof.
  intros Hsingle before s after s' Hsplit Hs Hin Hs'.
  apply (Hsingle before s (after ++ discarded) s').
  - rewrite Hsplit, <- app_assoc. reflexivity.
  - exact Hs.
  - apply in_or_app. left. exact Hin.
  - exact Hs'.
Qed.

(** X13.  When the items of every lane on the queue are the first items of one
    counter thread, no lane has two final items among the items taken. *)
Theorem counter_threads_single_sentinel :
  forall arrived : list Vehicle4.item,
    (forall lane,
       exists path_exists is_opened stream more,
         Spec.of_lane lane arrived ++ more
           = Spec.put_items
               (Vehicle4.vehicle_counter path_exists is_opened lane stream)) ->
    forall taken discarded,
      arrived = taken ++ discarded -> Spec.single_sentinel taken.
Proof.
  intros arrived Hlanes taken discarded ->.
  apply (single_sentinel_app taken discarded).
  intros before s after s' Hsplit Hs Hin Hs' Hsame.
  destruct (Hlanes (Vehicle4.item_lane s))
    as (path_exists & is_opened & stream & more & Hlane).
  destruct (vehicle_counter_items path_exists is_opened
              (Vehicle4.item_lane s) stream)
    as (frames & count & Hitems & Hframes).
  rewrite Hitems in Hlane. clear Hitems.
  unfold Spec.of_lane in Hlane. rewrite Hsplit, filter_app in Hlane.
  cbn [filter] in Hlane. rewrite String.eqb_refl in Hlane.
  set (keep := fun it : Vehicle4.item =>
                 String.eqb (Vehicle4.item_lane it) (Vehicle4.item_lane s))
    in *.
  assert (Hin' : In s' (filter keep after ++ more)).
  { apply in_or_app. left. apply filter_In. split; [exact Hin |].
    unfold keep. rewrite Hsame. apply String.eqb_refl. }
  destruct (exists_last (l := filter keep after ++ more))
    as (front & z & Hlast).
  { intros Hnil. rewrite Hnil in Hin'. destruct Hin'. }
  assert (Hshape : (filter keep before ++ s :: front) ++ [z]
                   = frames ++ [(Vehicle4.item_lane s, None, count)]).
  { rewrite <- Hlane, <- !app_assoc. cbn [app]. rewrite Hlast.
    reflexivity. }
  apply app_inj_tail in Hshape. destruct Hshape as [Hfront _].
  rewrite Forall_forall in Hframes.
  apply (Hframes s); [| exact Hs].
  rewrite <- Hfront. apply in_or_app. right. left. reflexivity.
Qed.

(** Two lanes on the queue: lane A has sent a frame and its final item,
    lane B a frame only. *)
Lemma counter_threads_single_sentinel_witness :
  Spec.single_sentinel
    [("A", Some 1, 0); ("B", Some 1, 0); ("A", None, 0)].
Proof.
  apply (counter_threads_single_sentinel
           [("A", Some 1, 0); ("B", Some 1, 0); ("A", None, 0)])
    with (discarded := []); [| reflexivity].
  intros lane. unfold Spec.of_lane. cbn [filter Vehicle4.item_lane fst].
  destruct (String.eqb_spec "A" lane) as [<- | HA].
  - exists true, true, [(false, [])], []. reflexivity.
  - destruct (String.eqb_spec "B" lane) as [<- | HB].
    + exists true, true, [(false, [])], [("B", None, 0)]. reflexivity.
    + exists false, false, [], [(lane, None, 0)]. reflexivity.
Defined.

(** * Further properties of the programs *)

(** ** The selector on any mapping *)

(** What the scan of both selectors ends on: nothing, with the starting
    0, when no count is positive; otherwise a lane of the mapping with its
    count, which is positive and the largest. *)
Lemma scan_lane_result (lane_counts : dict Z) :
  (fold_left SumoCode.scan_lane lane_counts (0, None) = (0, None)
   /\ forall kv, In kv lane_counts -> snd kv <= 0)
  \/ exists lane count,
       fold_left SumoCode.scan_lane lane_counts (0, None)
         = (count, Some lane)
       /\ 0 < count
       /\ In (lane, count) lane_counts
       /\ forall kv, In kv lane_counts -> snd kv <= count.
Proof.
  destruct (scan_lane_fold lane_counts 0 None)
    as [[Hfold Hall] | (before & lane & count & after & Hsplit & Hlt
                        & Hbefore & Hafter & Hfold)].
  - left. split; assumption.
  - right. exists lane, count. split; [exact Hfold |]. split; [exact Hlt |].
    split.
    + rewrite Hsplit. apply in_or_app. right. left. reflexivity.
    + intros kv Hin. rewrite Hsplit in Hin. apply in_app_or in Hin.
      destruct Hin as [Hin | [<- | Hin]].
      * apply Hbefore in Hin. lia.
      * cbn. lia.
      * apply Hafter. exact Hin.
Qed.

(** X1.  The test [max_count == 0] of [traffic_control.py] never decides: the
    scan leaves [max_lane] at [None] exactly when it leaves [max_count] at
    0, so the selector returns the lane found whenever there is one. *)
Theorem max_count_test_never_decides :
  forall (lane_counts : dict Z) (getPhase : option Z),
    (snd (fold_left TrafficControl.scan_lane lane_counts (0, None)) = None
     <-> fst (fold_left TrafficControl.scan_lane lane_counts (0, None)) = 0)
    /\ TrafficControl.get_lane_with_max_vehicles lane_counts getPhase
       = match snd (fold_left TrafficControl.scan_lane lane_counts (0, None))
         with
         | Some lane => lane
         | None =>
             match getPhase with
             | Some current_phase =>
                 if current_phase =? 0 then "lane2_0"
                 else if current_phase =? 1 then "lane3_0"
                 else "lane1_0"
             | None => "lane1_0"
             end
         end.
Proof.
  intros lane_counts getPhase.
  unfold TrafficControl.get_lane_with_max_vehicles.
  rewrite scan_lane_same.
  destruct (scan_lane_result lane_counts)
    as [[Hfold _] | (lane & count & Hfold & Hpos & _)];
    rewrite Hfold; cbn [fst snd].
  - split; [tauto | reflexivity].
  - split.
    + split; [discriminate | lia].
    + destruct (Z.eqb_spec count 0); [lia | reflexivity].
Qed.

(** Two lanes without vehicles: nothing is found, and the count is 0. *)
Lemma max_count_test_never_decides_witness :
  fst (fold_left TrafficControl.scan_lane
         [("lane1_0", 0); ("lane2_0", 0)] (0, None)) = 0.
Proof.
  apply (proj1 (proj1 (max_count_test_never_decides
                         [("lane1_0", 0); ("lane2_0", 0)] None))).
  reflexivity.
Defined.

(** X2.  Neither selector invents a lane: the result is a key of the counts it
    was given, carrying a positive count that no other count exceeds, or,
    when no count is positive, one of the three lanes of the program's own
    mapping. *)
Theorem selected_lane_origin :
  forall (lane_counts : dict Z) (phase : Z) (getPhase : option Z),
    ((exists count,
        In (SumoCode.get_lane_with_max_vehicles lane_counts phase, count)
           lane_counts
        /\ 0 < count
        /\ forall kv, In kv lane_counts -> snd kv <= count)
     \/ ((forall kv, In kv lane_counts -> snd kv <= 0)
         /\ In (SumoCode.get_lane_with_max_vehicles lane_counts phase)
               (keys SumoCode.LANE_PHASE_MAPPING)))
    /\ ((exists count,
           In (TrafficControl.get_lane_with_max_vehicles lane_counts getPhase,
               count)
              lane_counts
           /\ 0 < count
           /\ forall kv, In kv lane_counts -> snd kv <= count)
        \/ ((forall kv, In kv lane_counts -> snd kv <= 0)
            /\ In (TrafficControl.get_lane_with_max_vehicles
                     lane_counts getPhase)
                  (keys TrafficControl.LANE_PHASE_MAPPING))).
Proof.
  intros lane_counts phase getPhase.
  unfold SumoCode.get_lane_with_max_vehicles,
    TrafficControl.get_lane_with_max_vehicles.
  rewrite scan_lane_same.
  destruct (scan_lane_result lane_counts)
    as [[Hfold Hall] | (lane & count & Hfold & Hpos & Hin & Hmax)];
    rewrite Hfold.
  - split; right; (split; [exact Hall |]).
    + destruct (phase =? 0); [cbn; tauto |].
      destruct (phase =? 2); cbn; tauto.
    + destruct getPhase as [current_phase |]; [| cbn; tauto].
      destruct (current_phase =? 0); [cbn; tauto |].
      destruct (current_phase =? 1); cbn; tauto.
  - split; left; exists count.
    + repeat split; assumption.
    + destruct (Z.eqb_spec count 0); [lia |]. repeat split; assumption.
Qed.

(** Counts with a lane that [sumo_code.py] does not map: it is selected
    all the same, since its count is the largest. *)
Lemma selected_lane_origin_witness :
  exists count,
    In (SumoCode.get_lane_with_max_vehicles
          [("E1_0", 2); ("side", 6)] 0, count)
       [("E1_0", 2); ("side", 6)]
    /\ 0 < count
    /\ forall kv, In kv [("E1_0", 2); ("side", 6)] -> snd kv <= count.
Proof.
  destruct (proj1 (selected_lane_origin [("E1_0", 2); ("side", 6)] 0 None))
    as [Hfound | [Hnone _]].
  - exact Hfound.
  - exfalso.
    assert (H : snd ("side", 6) <= 0)
      by (apply Hnone; right; left; reflexivity).
    cbn in H. lia.
Defined.

(** ** Counting the vehicles in [traffic_control.py] *)

Lemma find_lanes_keys (query : string -> option Z) (all_lanes : list string) :
  forall (lane_counts d : dict Z),
    TrafficControl.find_lanes query all_lanes lane_counts = Some d ->
    NoDup (keys lane_counts) ->
    (forall k, In k (keys lane_counts) ->
               In k (keys TrafficControl.LANE_PHASE_MAPPING)) ->
    NoDup (keys d)
    /\ forall k, In k (keys d) ->
                 In k (keys TrafficControl.LANE_PHASE_MAPPING).
Proof.
  induction all_lanes as [|lane rest IH];
    intros lane_counts d Hfind Hnodup Hsub.
  - injection Hfind as <-. split; assumption.
  - cbn [TrafficControl.find_lanes] in Hfind.
    assert (Hstore : forall key n,
              In key (keys TrafficControl.LANE_PHASE_MAPPING) ->
              TrafficControl.find_lanes query rest
                (setitem lane_counts key n) = Some d ->
              NoDup (keys d)
              /\ forall k, In k (keys d) ->
                           In k (keys TrafficControl.LANE_PHASE_MAPPING)).
    { intros key n Hkey Hrest. apply (IH _ _ Hrest).
      - apply NoDup_keys_setitem. exact Hnodup.
      - intros k Hk. apply keys_setitem in Hk.
        destruct Hk as [-> | Hk]; [exact Hkey | apply Hsub; exact Hk]. }
    destruct (is_in "lane1" lane).
    { destruct (query lane) as [n |]; [| discriminate].
      apply (Hstore "lane1_0" n); [cbn; tauto | exact Hfind]. }
    destruct (is_in "lane2" lane).
    { destruct (query lane) as [n |]; [| discriminate].
      apply (Hstore "lane2_0" n); [cbn; tauto | exact Hfind]. }
    destruct (is_in "lane3" lane).
    { destruct (query lane) as [n |]; [| discriminate].
      apply (Hstore "lane3_0" n); [cbn; tauto | exact Hfind]. }
    apply (IH _ _ Hfind); assumption.
Qed.

(** Whatever the engine answers, the mapping that [count_vehicles_per_lane]
    of [traffic_control.py] returns has no other keys than the three lanes
    of [LANE_PHASE_MAPPING], each at most once. *)
Lemma tc_count_keys (query : string -> option Z) (ids : list string)
    (d : dict Z) :
  TrafficControl.count_vehicles_per_lane query ids = Some d ->
  NoDup (keys d)
  /\ forall k, In k (keys d) ->
               In k (keys TrafficControl.LANE_PHASE_MAPPING).
Proof.
  unfold TrafficControl.count_vehicles_per_lane. intros Hcount.
  assert (Hfrom : forall start,
            NoDup (keys start) ->
            (forall k, In k (keys start) ->
                       In k (keys TrafficControl.LANE_PHASE_MAPPING)) ->
            TrafficControl.find_lanes query ids start = Some d ->
            NoDup (keys d)
            /\ forall k, In k (keys d) ->
                         In k (keys TrafficControl.LANE_PHASE_MAPPING)).
  { intros start Hnodup Hsub Hfind.
    apply (find_lanes_keys query ids start d Hfind Hnodup Hsub). }
  assert (Hnodup : forall (start : dict Z) k n,
            NoDup (keys start) -> NoDup (keys (setitem start k n))).
  { intros start k n. apply NoDup_keys_setitem. }
  destruct (query "lane1_0") as [n1 |].
  - destruct (query "lane2_0") as [n2 |].
    + destruct (query "lane3_0") as [n3 |].
      * injection Hcount as <-. split; [| cbn; tauto].
        cbn [keys map fst].
        constructor; [intros [H | [H | []]]; discriminate |].
        constructor; [intros [H | []]; discriminate |].
        constructor; [intros [] | constructor].
      * refine (Hfrom _ _ _ Hcount);
          [repeat apply Hnodup; constructor | cbn; tauto].
    + refine (Hfrom _ _ _ Hcount);
        [repeat apply Hnodup; constructor | cbn; tauto].
  - refine (Hfrom _ _ _ Hcount); [constructor | cbn; tauto].
Qed.

(** X3.  When the three queries succeed, [count_vehicles_per_lane] of
    [traffic_control.py] returns their answers under the three lane names,
    in that order, and never looks at the list of lanes; in every case the
    keys of what it returns are among those three names, without
    repetition. *)
Theorem tc_count_vehicles_per_lane_keys :
  forall (query : string -> option Z) (ids : list string),
    (forall n1 n2 n3,
       query "lane1_0" = Some n1 ->
       query "lane2_0" = Some n2 ->
       query "lane3_0" = Some n3 ->
       TrafficControl.count_vehicles_per_lane query ids
         = Some [("lane1_0", n1); ("lane2_0", n2); ("lane3_0", n3)])
    /\ (forall d,
          TrafficControl.count_vehicles_per_lane query ids = Some d ->
          NoDup (keys d)
          /\ forall k, In k (keys d) ->
                       k = "lane1_0" \/ k = "lane2_0" \/ k = "lane3_0").
Proof.
  intros query ids. split.
  - intros n1 n2 n3 H1 H2 H3.
    unfold TrafficControl.count_vehicles_per_lane.
    rewrite H1, H2, H3. reflexivity.
  - intros d Hcount.
    destruct (tc_count_keys query ids d Hcount) as [Hnodup Hsub].
    split; [exact Hnodup |].
    intros k Hk. apply Hsub in Hk. cbn in Hk.
    destruct Hk as [<- | [<- | [<- | []]]]; tauto.
Qed.

(** The counts of an engine that knows the three lanes. *)
Lemma tc_count_vehicles_per_lane_keys_witness :
  TrafficControl.count_vehicles_per_lane
    (fun lane => if String.eqb lane "lane2_0" then Some 4 else Some 1)
    ["lane1_0"; "lane2_0"; "lane3_0"]
    = Some [("lane1_0", 1); ("lane2_0", 4); ("lane3_0", 1)].
Proof.
  apply (proj1 (tc_count_vehicles_per_lane_keys
                  (fun lane =>
                     if String.eqb lane "lane2_0" then Some 4 else Some 1)
                  ["lane1_0"; "lane2_0"; "lane3_0"]));
    reflexivity.
Defined.

Lemma find_app_first {A : Type} (f : A -> bool) (l l' : list A) :
  find f (l ++ l')
    = match find f l with
      | Some x => Some x
      | None => find f l'
      end.
Proof.
  induction l as [|a l IH]; [reflexivity |].
  cbn. destruct (f a); [reflexivity | exact IH].
Qed.

(** X4.  In the handler of [count_vehicles_per_lane] the last listed lane that
    matches a name decides the count stored under it, and a lane that
    contains several names counts for the first of them only; a key no
    listed lane matches keeps what the interrupted queries had stored. *)
Theorem tc_find_lanes_last_match :
  forall (query : string -> option Z) (all_lanes : list string)
         (lane_counts d : dict Z),
    TrafficControl.find_lanes query all_lanes lane_counts = Some d ->
    forall key,
      getitem d key
        = match Spec.last_lane_for key all_lanes with
          | Some lane => query lane
          | None => getitem lane_counts key
          end.
Proof.
  intros query all_lanes.
  induction all_lanes as [|lane rest IH]; intros lane_counts d Hfind key.
  - injection Hfind as <-. reflexivity.
  - cbn [TrafficControl.find_lanes] in Hfind.
    unfold Spec.last_lane_for in *. cbn [rev]. rewrite find_app_first.
    cbn [find]. unfold Spec.lane_key.
    assert (Hstore : forall k n,
              query lane = Some n ->
              TrafficControl.find_lanes query rest
                (setitem lane_counts k n) = Some d ->
              getitem d key
                = match
                    find
                      (fun lane0 =>
                         match Spec.lane_key lane0 with
                         | Some k0 => String.eqb k0 key
                         | None => false
                         end) (rev rest)
                  with
                  | Some x => query x
                  | None =>
                      if String.eqb k key then query lane
                      else getitem lane_counts key
                  end).
    { intros k n Hq Hrest. rewrite (IH _ _ Hrest key).
      unfold Spec.lane_key. destruct (find _ (rev rest)); [reflexivity |].
      rewrite getitem_setitem, Hq. reflexivity. }
    destruct (is_in "lane1" lane).
    { destruct (query lane) as [n |] eqn:Hq; [| discriminate].
      rewrite (Hstore "lane1_0" n eq_refl Hfind).
      destruct (find _ (rev rest)); [reflexivity |].
      destruct (String.eqb "lane1_0" key); [symmetry; exact Hq | reflexivity]. }
    destruct (is_in "lane2" lane).
    { destruct (query lane) as [n |] eqn:Hq; [| discriminate].
      rewrite (Hstore "lane2_0" n eq_refl Hfind).
      destruct (find _ (rev rest)); [reflexivity |].
      destruct (String.eqb "lane2_0" key); [symmetry; exact Hq | reflexivity]. }
    destruct (is_in "lane3" lane).
    { destruct (query lane) as [n |] eqn:Hq; [| discriminate].
      rewrite (Hstore "lane3_0" n eq_refl Hfind).
      destruct (find _ (rev rest)); [reflexivity |].
      destruct (String.eqb "lane3_0" key); [symmetry; exact Hq | reflexivity]. }
    rewrite (IH _ _ Hfind key). unfold Spec.lane_key.
    destruct (find _ (rev rest)); reflexivity.
Qed.

(** The handler on an engine whose lanes carry longer names: two lanes
    match the first name and the later one decides; the lane that contains
    two names counts for the first. *)
Lemma tc_find_lanes_last_match_witness :
  getitem [("lane1_0", 7); ("lane2_0", 2)] "lane1_0"
    = Some 7
  /\ TrafficControl.find_lanes
       (fun lane =>
          if String.eqb lane "north_lane1" then Some 3
          else if String.eqb lane "lane1_lane3" then Some 7
          else Some 2)
       ["north_lane1"; "lane2_a"; "lane1_lane3"] []
     = Some [("lane1_0", 7); ("lane2_0", 2)].
Proof.
  assert (Hrun : TrafficControl.find_lanes
            (fun lane =>
               if String.eqb lane "north_lane1" then Some 3
               else if String.eqb lane "lane1_lane3" then Some 7
               else Some 2)
            ["north_lane1"; "lane2_a"; "lane1_lane3"] []
          = Some [("lane1_0", 7); ("lane2_0", 2)]) by reflexivity.
  split; [| exact Hrun].
  exact (tc_find_lanes_last_match _ _ _ _ Hrun "lane1_0").
Defined.

(** ** The loop of [traffic_control.py] on the counts it computes *)

Lemma tc_mapped_lane (lane : string) :
  In lane (keys TrafficControl.LANE_PHASE_MAPPING) ->
  exists p,
    getitem TrafficControl.LANE_PHASE_MAPPING lane = Some p
    /\ TrafficControl.set_traffic_lights lane = [SetPhase "tls" p]
    /\ Spec.lane_of_phase TrafficControl.LANE_PHASE_MAPPING p = Some lane.
Proof.
  cbn. intros [<- | [<- | [<- | []]]]; eexists; repeat split; reflexivity.
Qed.

Lemma tc_selected_in_keys (lane_counts : dict Z) (getPhase : option Z) :
  In (TrafficControl.get_lane_with_max_vehicles lane_counts getPhase)
     (keys lane_counts)
  \/ In (TrafficControl.get_lane_with_max_vehicles lane_counts getPhase)
        (keys TrafficControl.LANE_PHASE_MAPPING).
Proof.
  unfold TrafficControl.get_lane_with_max_vehicles.
  rewrite scan_lane_same.
  destruct (scan_lane_result lane_counts)
    as [[Hfold _] | (lane & count & Hfold & Hpos & Hin & _)];
    rewrite Hfold.
  - right. destruct getPhase as [current_phase |]; [| cbn; tauto].
    destruct (current_phase =? 0); [cbn; tauto |].
    destruct (current_phase =? 1); cbn; tauto.
  - left. destruct (Z.eqb_spec count 0); [lia |].
    apply (in_map fst) in Hin. exact Hin.
Qed.

Lemma tc_selected_lane_has_phase_aux (d : dict Z) (getPhase : option Z)
    (query : string -> option Z) (ids : list string) :
  TrafficControl.count_vehicles_per_lane query ids = Some d ->
  exists p,
    getitem TrafficControl.LANE_PHASE_MAPPING
      (TrafficControl.get_lane_with_max_vehicles d getPhase) = Some p
    /\ TrafficControl.set_traffic_lights
         (TrafficControl.get_lane_with_max_vehicles d getPhase)
       = [SetPhase "tls" p]
    /\ Spec.lane_of_phase TrafficControl.LANE_PHASE_MAPPING p
       = Some (TrafficControl.get_lane_with_max_vehicles d getPhase).
Proof.
  intros Hcount.
  apply tc_mapped_lane.
  destruct (tc_selected_in_keys d getPhase) as [Hin | Hin]; [| exact Hin].
  apply (proj2 (tc_count_keys query ids d Hcount)). exact Hin.
Qed.

(** X5.  On the counts [count_vehicles_per_lane] returns, whichever way it
    obtained them, the lane selected in [traffic_control.py] has a phase:
    [set_traffic_lights] never skips it and sends exactly its phase to the
    light ["tls"], and that phase belongs to no other lane. *)
Theorem tc_selected_lane_has_phase :
  forall (query : string -> option Z) (ids : list string) (d : dict Z)
         (getPhase : option Z),
    TrafficControl.count_vehicles_per_lane query ids = Some d ->
    exists p,
      getitem TrafficControl.LANE_PHASE_MAPPING
        (TrafficControl.get_lane_with_max_vehicles d getPhase) = Some p
      /\ TrafficControl.set_traffic_lights
           (TrafficControl.get_lane_with_max_vehicles d getPhase)
         = [SetPhase "tls" p]
      /\ Spec.lane_of_phase TrafficControl.LANE_PHASE_MAPPING p
         = Some (TrafficControl.get_lane_with_max_vehicles d getPhase).
Proof.
  intros query ids d getPhase Hcount.
  exact (tc_selected_lane_has_phase_aux d getPhase query ids Hcount).
Qed.

(** The selection on the counts of an engine that knows only the third
    lane by its name, and the second under a longer one. *)
Lemma tc_selected_lane_has_phase_witness :
  exists p,
    getitem TrafficControl.LANE_PHASE_MAPPING
      (TrafficControl.get_lane_with_max_vehicles
         [("lane2_0", 6)] (Some 0)) = Some p
    /\ TrafficControl.set_traffic_lights
         (TrafficControl.get_lane_with_max_vehicles
            [("lane2_0", 6)] (Some 0))
       = [SetPhase "tls" p]
    /\ Spec.lane_of_phase TrafficControl.LANE_PHASE_MAPPING p
       = Some (TrafficControl.get_lane_with_max_vehicles
                 [("lane2_0", 6)] (Some 0)).
Proof.
  apply (tc_selected_lane_has_phase
           (fun lane =>
              if String.eqb lane "west_lane2" then Some 6 else None)
           ["west_lane2"; "other"]).
  reflexivity.
Defined.

(** X6.  The test [green_time >= 50] of [traffic_control.py] never decides
    either.  In every state the loop can reach, the step counter is not
    negative and the timer lies between 0 and 50; the timer reads 50
    exactly on the positive multiples of 50; so the lanes are re-evaluated
    exactly when the step is a multiple of 50. *)
Theorem tc_evaluates_every_50_steps :
  forall s : TrafficControl.loop_state,
    TrafficControl.reachable s ->
    0 <= TrafficControl.step s
    /\ 0 <= TrafficControl.green_time s <= 50
    /\ (TrafficControl.green_time s = 50
        <-> 0 < TrafficControl.step s /\ TrafficControl.step s mod 50 = 0)
    /\ (TrafficControl.step s mod 50 =? 0)
       || (TrafficControl.green_time s >=? 50)
       = (TrafficControl.step s mod 50 =? 0).
Proof.
  intros s Hreach.
  destruct (tc_timer_invariant s Hreach)
    as [(H0 & Hgt & _) | (Hpos & Hgt & _)].
  - rewrite H0, Hgt. cbn. repeat split; lia.
  - assert (Hiff : TrafficControl.green_time s = 50
                   <-> TrafficControl.step s mod 50 = 0).
    { rewrite Hgt. clear - Hpos. split; intros H.
      - Z.div_mod_to_equations. lia.
      - Z.div_mod_to_equations. lia. }
    assert (Hrange : 1 <= TrafficControl.green_time s <= 50).
    { rewrite Hgt. clear - Hpos. Z.div_mod_to_equations. lia. }
    split; [lia |]. split; [lia |]. split; [tauto |].
    destruct (Z.eqb_spec (TrafficControl.step s mod 50) 0) as [Hm | Hm];
      [reflexivity |].
    cbn [orb].
    destruct (Z.geb_spec (TrafficControl.green_time s) 50) as [Hge | Hlt];
      [| reflexivity].
    exfalso. apply Hm, Hiff. lia.
Qed.

(** The state after 50 turns: step 50, timer 50. *)
Lemma tc_evaluates_every_50_steps_witness :
  TrafficControl.green_time
    (TrafficControl.run TrafficControl.initial_state
       (repeat {| TrafficControl.lane_counts := [("lane1_0", 1)];
                  TrafficControl.tls_phase := Some 0 |} 50)) = 50
  <-> 0 < TrafficControl.step
            (TrafficControl.run TrafficControl.initial_state
               (repeat {| TrafficControl.lane_counts := [("lane1_0", 1)];
                          TrafficControl.tls_phase := Some 0 |} 50))
      /\ TrafficControl.step
           (TrafficControl.run TrafficControl.initial_state
              (repeat {| TrafficControl.lane_counts := [("lane1_0", 1)];
                         TrafficControl.tls_phase := Some 0 |} 50))
         mod 50 = 0.
Proof.
  apply (tc_evaluates_every_50_steps
           (TrafficControl.run TrafficControl.initial_state
              (repeat {| TrafficControl.lane_counts := [("lane1_0", 1)];
                         TrafficControl.tls_phase := Some 0 |} 50))).
  eexists. reflexivity.
Defined.

Lemma tc_main_turn_inv (s s' : TrafficControl.loop_state)
    (e : TrafficControl.engine_env) (sent : list action) :
  TrafficControl.reachable s ->
  (forall lane,
     TrafficControl.current_green_lane s = Some lane ->
     In lane (keys TrafficControl.LANE_PHASE_MAPPING)) ->
  TrafficControl.main_turn s e = Some (s', sent) ->
  TrafficControl.reachable s'
  /\ TrafficControl.step s' = TrafficControl.step s + 1
  /\ (forall lane,
        TrafficControl.current_green_lane s' = Some lane ->
        In lane (keys TrafficControl.LANE_PHASE_MAPPING))
  /\ ((sent = []
       /\ TrafficControl.current_green_lane s'
          = TrafficControl.current_green_lane s)
      \/ exists lane p,
           sent = [SetPhase "tls" p]
           /\ TrafficControl.current_green_lane s' = Some lane
           /\ Spec.lane_of_phase TrafficControl.LANE_PHASE_MAPPING p
              = Some lane
           /\ getitem TrafficControl.LANE_PHASE_MAPPING lane = Some p
           /\ TrafficControl.current_green_lane s <> Some lane
           /\ TrafficControl.step s mod 50 = 0).
Proof.
  intros Hreach Hmapped Hturn.
  unfold TrafficControl.main_turn in Hturn.
  destruct (TrafficControl.count_vehicles_per_lane _ _) as [counts |]
    eqn:Hcount; [| discriminate].
  cbv zeta in Hturn.
  match type of Hturn with
  | (if ?c then _ else _) = _ => destruct c; [| discriminate]
  end.
  injection Hturn as Hbody.
  set (tick := {| TrafficControl.lane_counts := counts;
                  TrafficControl.tls_phase :=
                    TrafficControl.phase_selected e |}) in *.
  assert (Hs' : s' = fst (TrafficControl.loop_body s tick))
    by (rewrite Hbody; reflexivity).
  assert (Hsent : sent = snd (TrafficControl.loop_body s tick))
    by (rewrite Hbody; reflexivity).
  clear Hbody.
  split.
  { destruct Hreach as [envs Hrun]. exists (envs ++ [tick]).
    rewrite tc_run_snoc, Hrun. symmetry. exact Hs'. }
  destruct (tc_selected_lane_has_phase_aux counts
              (TrafficControl.phase_selected e)
              (TrafficControl.vehicle_number e) (TrafficControl.lane_ids e)
              Hcount) as (p & Hp & Hset & Hback).
  destruct ((TrafficControl.step s mod 50 =? 0)
            || (TrafficControl.green_time s >=? 50)) eqn:Heval.
  - rewrite (tc_loop_body_evaluates s tick Heval) in Hs', Hsent.
    cbv zeta in Hs', Hsent.
    change (TrafficControl.get_lane_with_max_vehicles
              (TrafficControl.lane_counts tick)
              (TrafficControl.tls_phase tick))
      with (TrafficControl.get_lane_with_max_vehicles counts
              (TrafficControl.phase_selected e)) in Hs', Hsent.
    set (lane := TrafficControl.get_lane_with_max_vehicles counts
                   (TrafficControl.phase_selected e)) in *.
    destruct (TrafficControl.differs lane
                (TrafficControl.current_green_lane s)) eqn:Hdiff;
      cbn [fst snd] in Hs', Hsent; subst s' sent;
      cbn [TrafficControl.step TrafficControl.current_green_lane].
    + split; [reflexivity |]. split.
      * intros l Hl. injection Hl as <-.
        apply (in_map fst) with (x := (lane, p)).
        clear - Hp. unfold TrafficControl.LANE_PHASE_MAPPING in *.
        cbn [getitem] in Hp.
        repeat match type of Hp with
               | (if (?a =? ?b)%string then _ else _) = _ =>
                   destruct (String.eqb_spec a b) as [<- | _];
                   [injection Hp as <-; cbn; tauto |]
               end.
        discriminate.
      * right. exists lane, p. rewrite Hset.
        repeat split; try assumption.
        -- intros Hsame. rewrite Hsame in Hdiff.
           unfold TrafficControl.differs in Hdiff.
           rewrite String.eqb_refl in Hdiff. discriminate.
        -- pose proof (tc_timer_invariant s Hreach) as Hinv.
           apply orb_true_iff in Heval.
           destruct Heval as [Hm | Hge]; [apply Z.eqb_eq; exact Hm |].
           apply Z.geb_le in Hge.
           destruct Hinv as [(H0 & _) | (Hpos & Hgt & _)];
             [rewrite H0; reflexivity |].
           rewrite Hgt in Hge. clear - Hpos Hge.
           Z.div_mod_to_equations. lia.
    + split; [reflexivity |]. split; [exact Hmapped |].
      left. split; reflexivity.
  - rewrite (tc_loop_body_idles s tick Heval) in Hs', Hsent.
    cbn [fst snd] in Hs', Hsent. subst s' sent.
    cbn [TrafficControl.step TrafficControl.current_green_lane].
    split; [reflexivity |]. split; [exact Hmapped |].
    left. split; reflexivity.
Qed.

Lemma tc_main_loop_inv (envs : list TrafficControl.engine_env) :
  forall (s final : TrafficControl.loop_state) (trace : list (list action)),
    TrafficControl.reachable s ->
    (forall lane,
       TrafficControl.current_green_lane s = Some lane ->
       In lane (keys TrafficControl.LANE_PHASE_MAPPING)) ->
    TrafficControl.main_loop s envs = (final, trace) ->
    fold_left
      (fun green sent =>
         fold_left
           (fun _ a =>
              match a with
              | SetPhase _ p =>
                  Spec.lane_of_phase TrafficControl.LANE_PHASE_MAPPING p
              end)
           sent green)
      trace (TrafficControl.current_green_lane s)
      = TrafficControl.current_green_lane final
    /\ Spec.no_repeat
         (Spec.command_for TrafficControl.LANE_PHASE_MAPPING "tls"
            (TrafficControl.current_green_lane s))
         (List.concat trace)
    /\ TrafficControl.step final
       = TrafficControl.step s + Z.of_nat (List.length trace)
    /\ (forall i sent,
          nth_error trace i = Some sent ->
          sent <> [] ->
          (TrafficControl.step s + Z.of_nat i) mod 50 = 0
          /\ exists p, sent = [SetPhase "tls" p]).
Proof.
  induction envs as [|e envs IH]; intros s final trace Hreach Hmapped Hloop.
  - injection Hloop as <- <-. cbn.
    repeat split; [lia | | ]; destruct i; discriminate.
  - cbn [TrafficControl.main_loop] in Hloop.
    destruct (TrafficControl.main_turn s e) as [[s' sent] |] eqn:Hturn.
    + destruct (TrafficControl.main_loop s' envs) as [final' trace'] eqn:Hrest.
      injection Hloop as <- <-.
      destruct (tc_main_turn_inv s s' e sent Hreach Hmapped Hturn)
        as (Hreach' & Hstep & Hmapped' & Hsent).
      destruct (IH s' final' trace' Hreach' Hmapped' Hrest)
        as (Hgreen & Hrepeat & Hsteps & Hwhen).
      assert (Hnth : forall i sent0,
                nth_error trace' i = Some sent0 ->
                sent0 <> [] ->
                (TrafficControl.step s + Z.of_nat (S i)) mod 50 = 0
                /\ exists p, sent0 = [SetPhase "tls" p]).
      { intros i sent0 Hi Hne. destruct (Hwhen i sent0 Hi Hne) as [Hm Hp].
        split; [| exact Hp].
        rewrite Hstep in Hm.
        replace (TrafficControl.step s + Z.of_nat (S i))
          with (TrafficControl.step s + 1 + Z.of_nat i) by lia.
        exact Hm. }
      cbn [fold_left List.concat List.length].
      destruct Hsent as [[-> Hcur] | (lane & p & -> & Hcur & Hback & Hp
                                      & Hdiff & Hmod)].
      * cbn [fold_left app]. rewrite <- Hcur.
        split; [exact Hgreen |]. split; [exact Hrepeat |].
        split; [lia |].
        intros [|i] sent0 Hi Hne.
        -- injection Hi as <-. contradiction Hne. reflexivity.
        -- apply Hnth; assumption.
      * cbn [fold_left app]. rewrite Hback, <- Hcur.
        split; [exact Hgreen |]. split.
        -- cbn [Spec.no_repeat]. split.
           ++ unfold Spec.command_for.
              destruct (TrafficControl.current_green_lane s) as [l0 |] eqn:Hl0;
                [| discriminate].
              destruct (tc_mapped_lane l0 (Hmapped l0 eq_refl))
                as (p0 & Hp0 & _ & Hback0).
              rewrite Hp0. intros Heq. injection Heq as ->.
              apply Hdiff. rewrite <- Hback0, Hback. reflexivity.
           ++ rewrite Hcur in Hrepeat. unfold Spec.command_for in Hrepeat.
              rewrite Hp in Hrepeat. exact Hrepeat.
        -- split; [lia |].
           intros [|i] sent0 Hi Hne.
           ++ injection Hi as <-. split; [| exists p; reflexivity].
              rewrite Z.add_0_r. exact Hmod.
           ++ apply Hnth; assumption.
    + injection Hloop as <- <-. cbn.
      repeat split; [lia | | ]; destruct i; discriminate.
Qed.

(** X7.  A run of [main] of [traffic_control.py], from its start to the end of
    the simulation or to the first exception that reaches its handler.
    Every turn sends at most one command, always to the light ["tls"], and
    only on a turn whose number is a multiple of 50.  No command repeats
    the phase of the command before it.  At the end the lane the loop
    holds as green is the lane of the last command it sent, and the step
    counter is the number of turns completed. *)
Theorem tc_main_run :
  forall (envs : list TrafficControl.engine_env)
         (final : TrafficControl.loop_state) (trace : list (list action)),
    TrafficControl.main envs = (final, trace) ->
    Spec.green_after TrafficControl.LANE_PHASE_MAPPING trace
      = TrafficControl.current_green_lane final
    /\ Spec.no_repeat None (List.concat trace)
    /\ TrafficControl.step final = Z.of_nat (List.length trace)
    /\ (forall i sent,
          nth_error trace i = Some sent ->
          sent <> [] ->
          Z.of_nat i mod 50 = 0 /\ exists p, sent = [SetPhase "tls" p]).
Proof.
  intros envs final trace Hmain.
  assert (Hreach : TrafficControl.reachable TrafficControl.initial_state)
    by (exists []; reflexivity).
  assert (Hmapped : forall lane,
            TrafficControl.current_green_lane TrafficControl.initial_state
              = Some lane ->
            In lane (keys TrafficControl.LANE_PHASE_MAPPING))
    by discriminate.
  destruct (tc_main_loop_inv envs _ final trace Hreach Hmapped Hmain)
    as (Hgreen & Hrepeat & Hstep & Hwhen).
  split; [exact Hgreen |]. split; [exact Hrepeat |].
  split; [exact Hstep |]. exact Hwhen.
Qed.

(** A run of three turns: the first makes lane 2 green, the second leaves
    the light alone, and the third ends the run because the engine fails
    on a listed lane. *)
Lemma tc_main_run_witness :
  TrafficControl.main
    [{| TrafficControl.vehicle_number :=
          fun lane => if String.eqb lane "lane2_0" then Some 5 else Some 0;
        TrafficControl.lane_ids := [];
        TrafficControl.phase_printed := Some 0;
        TrafficControl.phase_selected := Some 0 |};
     {| TrafficControl.vehicle_number :=
          fun lane => if String.eqb lane "lane1_0" then Some 9 else Some 0;
        TrafficControl.lane_ids := [];
        TrafficControl.phase_printed := None;
        TrafficControl.phase_selected := None |};
     {| TrafficControl.vehicle_number := fun _ => None;
        TrafficControl.lane_ids := ["lane1_x"];
        TrafficControl.phase_printed := Some 1;
        TrafficControl.phase_selected := Some 1 |}]
    = ({| TrafficControl.step := 2;
          TrafficControl.green_time := 2;
          TrafficControl.current_green_lane := Some "lane2_0" |},
       [[SetPhase "tls" 1]; []])
  /\ Spec.green_after TrafficControl.LANE_PHASE_MAPPING
       [[SetPhase "tls" 1]; []] = Some "lane2_0".
Proof.
  assert (Hrun : TrafficControl.main
            [{| TrafficControl.vehicle_number :=
                  fun lane =>
                    if String.eqb lane "lane2_0" then Some 5 else Some 0;
                TrafficControl.lane_ids := [];
                TrafficControl.phase_printed := Some 0;
                TrafficControl.phase_selected := Some 0 |};
             {| TrafficControl.vehicle_number :=
                  fun lane =>
                    if String.eqb lane "lane1_0" then Some 9 else Some 0;
                TrafficControl.lane_ids := [];
                TrafficControl.phase_printed := None;
                TrafficControl.phase_selected := None |};
             {| TrafficControl.vehicle_number := fun _ => None;
                TrafficControl.lane_ids := ["lane1_x"];
                TrafficControl.phase_printed := Some 1;
                TrafficControl.phase_selected := Some 1 |}]
          = ({| TrafficControl.step := 2;
                TrafficControl.green_time := 2;
                TrafficControl.current_green_lane := Some "lane2_0" |},
             [[SetPhase "tls" 1]; []])) by reflexivity.
  split; [exact Hrun |].
  exact (proj1 (tc_main_run _ _ _ Hrun)).
Defined.

(** ** The loop of [sumo_code.py] *)

Lemma sumo_main_loop_trace (envs : list SumoCode.tick_env) :
  forall step : Z,
    fst (SumoCode.main_loop step envs)
      = step + Z.of_nat (List.length envs)
    /\ List.length (snd (SumoCode.main_loop step envs)) = List.length envs
    /\ forall i env,
         nth_error envs i = Some env ->
         nth_error (snd (SumoCode.main_loop step envs)) i
           = Some (snd (SumoCode.loop_body (step + Z.of_nat i) env)).
Proof.
  induction envs as [|env0 envs IH]; intros step.
  - cbn. repeat split; [lia |]. intros [|i] env; discriminate.
  - cbn [SumoCode.main_loop].
    change (SumoCode.loop_body step env0)
      with (step + 1, snd (SumoCode.loop_body step env0)).
    cbv iota beta.
    destruct (IH (step + 1)) as (Hfinal & Hlen & Hnth).
    destruct (SumoCode.main_loop (step + 1) envs) as [final trace].
    cbn [fst snd List.length] in *.
    split; [lia |]. split; [rewrite Hlen; reflexivity |].
    intros [|i] env Hi.
    + injection Hi as <-. cbn [nth_error]. rewrite Z.add_0_r. reflexivity.
    + cbn [nth_error] in *. rewrite (Hnth i env Hi).
      replace (step + 1 + Z.of_nat i) with (step + Z.of_nat (S i)) by lia.
      reflexivity.
Qed.

(** X8.  A run of [main] of [sumo_code.py] over any number of turns: the step
    counter ends at the number of turns, and turn [i] sends exactly one
    command, the phase of the lane selected from that turn's counts, when
    [i] is a multiple of 30, and nothing otherwise. *)
Theorem sumo_main_schedule :
  forall envs : list SumoCode.tick_env,
    fst (SumoCode.main envs) = Z.of_nat (List.length envs)
    /\ List.length (snd (SumoCode.main envs)) = List.length envs
    /\ forall i env,
         nth_error envs i = Some env ->
         exists p,
           getitem SumoCode.LANE_PHASE_MAPPING
             (SumoCode.get_lane_with_max_vehicles
                (SumoCode.count_vehicles_per_lane (SumoCode.lane_numbers env))
                (SumoCode.tls_phase env)) = Some p
           /\ nth_error (snd (SumoCode.main envs)) i
              = Some (if Z.of_nat i mod 30 =? 0
                      then [SetPhase "J2" p] else []).
Proof.
  intros envs. unfold SumoCode.main.
  destruct (sumo_main_loop_trace envs 0) as (Hfinal & Hlen & Hnth).
  split; [exact Hfinal |]. split; [exact Hlen |].
  intros i env Hi.
  destruct (sumo_selected_lane_mapped
              (SumoCode.lane_numbers env) (SumoCode.tls_phase env))
    as [p Hp].
  exists p. split; [exact Hp |].
  rewrite (Hnth i env Hi). cbn [Z.add].
  unfold SumoCode.loop_body. cbn [snd].
  destruct (Z.of_nat i mod 30 =? 0); [| reflexivity].
  unfold SumoCode.set_traffic_lights. rewrite Hp. reflexivity.
Qed.

(** Turn 30 of a run of 31 turns with vehicles on the third lane only. *)
Lemma sumo_main_schedule_witness :
  exists p,
    getitem SumoCode.LANE_PHASE_MAPPING
      (SumoCode.get_lane_with_max_vehicles
         (SumoCode.count_vehicles_per_lane
            (fun lane => if String.eqb lane "E0_0" then 2 else 0)) 0)
      = Some p
    /\ nth_error
         (snd (SumoCode.main
                 (repeat
                    {| SumoCode.lane_numbers :=
                         fun lane => if String.eqb lane "E0_0" then 2 else 0;
                       SumoCode.tls_phase := 0 |} 31))) 30
       = Some (if Z.of_nat 30 mod 30 =? 0 then [SetPhase "J2" p] else []).
Proof.
  apply (proj2 (proj2 (sumo_main_schedule
                         (repeat
                            {| SumoCode.lane_numbers :=
                                 fun lane =>
                                   if String.eqb lane "E0_0" then 2 else 0;
                               SumoCode.tls_phase := 0 |} 31)))
           30%nat
           {| SumoCode.lane_numbers :=
                fun lane => if String.eqb lane "E0_0" then 2 else 0;
              SumoCode.tls_phase := 0 |}).
  reflexivity.
Defined.

(** ** The history of crossings *)

(** The second loop only appends to the history, and what it appends are
    centers on the line, stamped with the current frame. *)
Lemma count_center_fold_records (frame_idx : Z) (centers : list (Z * Z)) :
  forall (recently : list Vehicle4.crossing) (n : Z),
    (forall cf, In cf recently ->
       In cf (fst (fold_left (Vehicle4.count_center frame_idx) centers
                     (recently, n))))
    /\ (forall c pf,
          In (c, pf)
             (fst (fold_left (Vehicle4.count_center frame_idx) centers
                     (recently, n))) ->
          In (c, pf) recently
          \/ (pf = frame_idx /\ Vehicle4.on_line c = true /\ In c centers))
    /\ Z.of_nat
         (List.length
            (fst (fold_left (Vehicle4.count_center frame_idx) centers
                    (recently, n))))
       = Z.of_nat (List.length recently)
         + Spec.accepted_crossings frame_idx recently centers.
Proof.
  induction centers as [|center rest IH]; intros recently n.
  - cbn. repeat split; [auto | auto | lia].
  - cbn [fold_left Spec.accepted_crossings].
    destruct (Vehicle4.on_line center) eqn:Hon.
    + destruct (Vehicle4.already_counted recently center frame_idx) eqn:Hdup.
      * rewrite (count_center_duplicate _ _ _ _ Hdup). cbn [andb negb].
        destruct (IH recently n) as (Hkeep & Hnew & Hlen).
        split; [exact Hkeep |]. split; [| exact Hlen].
        intros c pf Hin. destruct (Hnew c pf Hin) as [H | (H1 & H2 & H3)];
          [left; exact H | right; repeat split; auto; right; exact H3].
      * rewrite (count_center_new _ _ _ _ Hon Hdup). cbn [andb negb].
        destruct (IH (recently ++ [(center, frame_idx)]) (n + 1))
          as (Hkeep & Hnew & Hlen).
        split; [| split].
        -- intros cf Hin. apply Hkeep. apply in_or_app. left. exact Hin.
        -- intros c pf Hin.
           destruct (Hnew c pf Hin) as [H | (H1 & H2 & H3)].
           ++ apply in_app_or in H. destruct H as [H | [H | []]].
              ** left. exact H.
              ** injection H as <- <-. right.
                 repeat split; [exact Hon | left; reflexivity].
           ++ right. repeat split; auto. right. exact H3.
        -- rewrite Hlen, length_app. cbn [List.length]. lia.
    + rewrite (count_center_off_line _ _ _ Hon). cbn [andb].
      destruct (IH recently n) as (Hkeep & Hnew & Hlen).
      split; [exact Hkeep |]. split; [| exact Hlen].
      intros c pf Hin. destruct (Hnew c pf Hin) as [H | (H1 & H2 & H3)];
        [left; exact H | right; repeat split; auto; right; exact H3].
Qed.

(** A frame retains every crossing that is younger than the cooldown. *)
Lemma count_crossings_retains (st : Vehicle4.counter_state) (frame_idx : Z)
    (centers : list (Z * Z)) (c : Z * Z) (pf : Z) :
  In (c, pf) (Vehicle4.recently_counted st) ->
  frame_idx - pf < 15 ->
  In (c, pf)
     (Vehicle4.recently_counted
        (Vehicle4.count_crossings st frame_idx centers)).
Proof.
  intros Hin Hage. unfold Vehicle4.count_crossings.
  destruct (count_center_fold_records frame_idx centers
              (Vehicle4.recently_counted st) (Vehicle4.counter st))
    as (Hkeep & _).
  destruct (fold_left _ _ _) as [kept n].
  cbn [Vehicle4.recently_counted fst] in *.
  apply prune_keeps. split; [apply Hkeep; exact Hin | exact Hage].
Qed.

Lemma count_crossings_frame_idx (st : Vehicle4.counter_state)
    (frame_idx : Z) (centers : list (Z * Z)) :
  Vehicle4.frame_idx (Vehicle4.count_crossings st frame_idx centers)
    = frame_idx.
Proof.
  unfold Vehicle4.count_crossings. destruct (fold_left _ _ _). reflexivity.
Qed.

Lemma run_frames_retains (frames : list (list (Z * Z))) :
  forall (st : Vehicle4.counter_state) (c : Z * Z) (pf : Z),
    Vehicle4.frame_idx (Spec.run_frames st frames)
      = Vehicle4.frame_idx st + Z.of_nat (List.length frames)
    /\ (In (c, pf) (Vehicle4.recently_counted st) ->
        Vehicle4.frame_idx st + Z.of_nat (List.length frames) - pf < 15 ->
        In (c, pf) (Vehicle4.recently_counted (Spec.run_frames st frames))).
Proof.
  induction frames as [|centers frames IH]; intros st c pf.
  - cbn. split; [lia | auto].
  - rewrite run_frames_cons.
    destruct (IH (Vehicle4.count_crossings st (Vehicle4.frame_idx st + 1)
                    centers) c pf) as [Hidx Hkeep].
    rewrite count_crossings_frame_idx in Hidx, Hkeep.
    cbn [List.length]. split; [rewrite Hidx; lia |].
    intros Hin Hage. apply Hkeep; [| lia].
    apply count_crossings_retains; [exact Hin | lia].
Qed.

(** X9.  A crossing in the history suppresses its neighbours for the whole
    cooldown.  Whatever the frames in between contain, and whatever comes
    earlier in the same frame, a center within the 30 pixel box of a
    crossing counted less than 15 frames before is never counted: the turn
    of the loop on it changes neither the counter nor the history. *)
Theorem crossing_suppresses_neighbours :
  forall (st : Vehicle4.counter_state) (frames : list (list (Z * Z)))
         (before : list (Z * Z)) (c1 c2 : Z * Z) (f1 : Z),
    In (c1, f1) (Vehicle4.recently_counted st) ->
    Spec.close_by c2 c1 = true ->
    Vehicle4.frame_idx st + Z.of_nat (List.length frames) + 1 - f1 < 15 ->
    let st' := Spec.run_frames st frames in
    let f2 := Vehicle4.frame_idx st' + 1 in
    let acc :=
      fold_left (Vehicle4.count_center f2) before
        (Vehicle4.recently_counted st', Vehicle4.counter st') in
    Vehicle4.count_center f2 acc c2 = acc.
Proof.
  intros st frames before c1 c2 f1 Hin Hclose Hage st' f2 acc.
  destruct (run_frames_retains frames st c1 f1) as [Hidx Hkeep].
  fold st' in Hidx, Hkeep.
  assert (Hin' : In (c1, f1) (fst acc)).
  { subst acc.
    apply (proj1 (count_center_fold_records f2 before _ _)).
    apply Hkeep; [exact Hin | lia]. }
  destruct acc as [recently n]. cbn [fst] in Hin'.
  apply count_center_duplicate.
  destruct c1 as [x1 y1], c2 as [x2 y2].
  apply already_counted_iff. exists x1, y1, f1.
  unfold Spec.close_by in Hclose. cbn [fst snd] in Hclose.
  apply andb_true_iff in Hclose. destruct Hclose as [Hx Hy].
  apply Z.ltb_lt in Hx. apply Z.ltb_lt in Hy.
  repeat split; [exact Hin' | exact Hx | exact Hy |].
  subst f2. rewrite Hidx. lia.
Qed.

(** A crossing counted in frame 1 at (100, 550); four frames later, after
    busy frames and behind another center of the same frame, a center 20
    pixels away is passed over. *)
Lemma crossing_suppresses_neighbours_witness :
  Vehicle4.count_center 5
    (fold_left (Vehicle4.count_center 5) [(400, 551)]
       (Vehicle4.recently_counted
          (Spec.run_frames
             {| Vehicle4.recently_counted := [((100, 550), 1)];
                Vehicle4.counter := 1;
                Vehicle4.frame_idx := 1 |}
             [[(300, 549)]; []; [(700, 552)]]),
        Vehicle4.counter
          (Spec.run_frames
             {| Vehicle4.recently_counted := [((100, 550), 1)];
                Vehicle4.counter := 1;
                Vehicle4.frame_idx := 1 |}
             [[(300, 549)]; []; [(700, 552)]])))
    (120, 552)
  = fold_left (Vehicle4.count_center 5) [(400, 551)]
      (Vehicle4.recently_counted
         (Spec.run_frames
            {| Vehicle4.recently_counted := [((100, 550), 1)];
               Vehicle4.counter := 1;
               Vehicle4.frame_idx := 1 |}
            [[(300, 549)]; []; [(700, 552)]]),
       Vehicle4.counter
         (Spec.run_frames
            {| Vehicle4.recently_counted := [((100, 550), 1)];
               Vehicle4.counter := 1;
               Vehicle4.frame_idx := 1 |}
            [[(300, 549)]; []; [(700, 552)]])).
Proof.
  apply (crossing_suppresses_neighbours
           {| Vehicle4.recently_counted := [((100, 550), 1)];
              Vehicle4.counter := 1;
              Vehicle4.frame_idx := 1 |}
           [[(300, 549)]; []; [(700, 552)]]
           [(400, 551)] (100, 550) (120, 552) 1).
  - left. reflexivity.
  - reflexivity.
  - reflexivity.
Defined.

Lemma accepted_crossings_on_line (frame_idx : Z) (centers : list (Z * Z)) :
  forall recently : list Vehicle4.crossing,
    0 <= Spec.accepted_crossings frame_idx recently centers
      <= Z.of_nat (List.length (filter Vehicle4.on_line centers)).
Proof.
  induction centers as [|center rest IH]; intros recently.
  - cbn. lia.
  - cbn [Spec.accepted_crossings filter].
    destruct (Vehicle4.on_line center); cbn [andb List.length].
    + destruct (negb (Vehicle4.already_counted recently center frame_idx)).
      * specialize (IH (recently ++ [(center, frame_idx)])). lia.
      * specialize (IH recently). lia.
    + apply IH.
Qed.

Lemma process_frame_frame_idx (st : Vehicle4.counter_state)
    (counterShape : list Vehicle4.rect) :
  Vehicle4.frame_idx (Vehicle4.process_frame st counterShape)
    = Vehicle4.frame_idx st + 1.
Proof.
  unfold Vehicle4.process_frame. apply count_crossings_frame_idx.
Qed.

(** X10.  What holds of the counter after any number of frames, from the start
    of [vehicle_counter]: the frame index is the number of frames read;
    the counter is not negative and at most the number of accepted boxes
    whose center fell on the line; the history holds no more crossings
    than were counted; and each crossing in it lies on the line and was
    counted in one of the last 15 frames. *)
Theorem counter_state_invariant :
  forall frames : list (list Vehicle4.rect),
    let st :=
      fold_left Vehicle4.process_frame frames Vehicle4.initial_counter in
    Vehicle4.frame_idx st = Z.of_nat (List.length frames)
    /\ 0 <= Vehicle4.counter st
         <= Z.of_nat
              (List.length
                 (filter Vehicle4.on_line
                    (List.concat (map Vehicle4.collect_centers frames))))
    /\ Z.of_nat (List.length (Vehicle4.recently_counted st))
       <= Vehicle4.counter st
    /\ forall c pf,
         In (c, pf) (Vehicle4.recently_counted st) ->
         Vehicle4.on_line c = true
         /\ Vehicle4.frame_idx st - 15 < pf <= Vehicle4.frame_idx st.
Proof.
  induction frames as [|counterShape frames IH] using rev_ind.
  - cbn. repeat split; try lia; destruct H.
  - cbv zeta in *. rewrite fold_left_app. cbn [fold_left].
    set (st := fold_left Vehicle4.process_frame frames
                 Vehicle4.initial_counter) in *.
    destruct IH as (Hidx & Hcount & Hlen & Hrecords).
    rewrite map_app, concat_app, filter_app, !length_app.
    cbn [map List.concat List.length]. rewrite app_nil_r.
    rewrite process_frame_frame_idx.
    unfold Vehicle4.process_frame.
    rewrite count_crossings_counter.
    pose proof (accepted_crossings_on_line (Vehicle4.frame_idx st + 1)
                  (Vehicle4.collect_centers counterShape)
                  (Vehicle4.recently_counted st)) as Hacc.
    destruct (count_center_fold_records (Vehicle4.frame_idx st + 1)
                (Vehicle4.collect_centers counterShape)
                (Vehicle4.recently_counted st) (Vehicle4.counter st))
      as (_ & Hnew & Hgrow).
    unfold Vehicle4.count_crossings.
    destruct (fold_left (Vehicle4.count_center _) _ _) as [kept n].
    cbn [fst Vehicle4.recently_counted] in *.
    split; [lia |]. split; [lia |]. split.
    + unfold Vehicle4.prune.
      match goal with
      | |- context [List.length (filter ?f kept)] =>
          pose proof (filter_length_le f kept) as Hprune
      end.
      unfold Vehicle4.crossing in *. lia.
    + intros c pf Hin. apply prune_keeps in Hin. destruct Hin as [Hin Hage].
      destruct (Hnew c pf Hin) as [Hold | (-> & Hon & _)].
      * destruct (Hrecords c pf Hold) as [Hon Hpf]. split; [exact Hon | lia].
      * split; [exact Hon | lia].
Qed.

(** After two frames, the first with a vehicle on the line: the crossing
    in the history is from frame 1. *)
Lemma counter_state_invariant_witness :
  Vehicle4.on_line (110, 550) = true /\ 2 - 15 < 1 <= 2.
Proof.
  apply (proj2 (proj2 (proj2
           (counter_state_invariant [[(60, 500, 100, 100)]; []])))
           (110, 550) 1).
  left. reflexivity.
Defined.

Lemma frame_items_nth (window_name : string)
    (frames : list (list Vehicle4.rect)) :
  forall (st : Vehicle4.counter_state) (i : nat),
    (i < List.length frames)%nat ->
    nth_error (Spec.frame_items window_name st frames) i
      = Some (window_name,
              Some (Vehicle4.frame_idx st + Z.of_nat i + 1),
              Vehicle4.counter
                (fold_left Vehicle4.process_frame (firstn (S i) frames) st)).
Proof.
  induction frames as [|counterShape frames IH]; intros st i Hi.
  - cbn in Hi. lia.
  - cbn [Spec.frame_items]. destruct i as [|i].
    + cbn [nth_error firstn fold_left].
      rewrite process_frame_frame_idx, Z.add_0_r. reflexivity.
    + cbn [nth_error]. cbn [List.length] in Hi.
      rewrite (IH _ i) by lia.
      rewrite process_frame_frame_idx.
      change (firstn (S (S i)) (counterShape :: frames))
        with (counterShape :: firstn (S i) frames).
      cbn [fold_left].
      replace (Vehicle4.frame_idx st + 1 + Z.of_nat i + 1)
        with (Vehicle4.frame_idx st + Z.of_nat (S i) + 1) by lia.
      reflexivity.
Qed.

(** X11.  The items a counter thread publishes for its frames are numbered from
    1 in the order of the frames, and the item of a frame carries the
    count reached once that frame has been processed. *)
Theorem published_frames_numbered :
  forall (window_name : string) (stream : list (bool * list Vehicle4.rect))
         (i : nat),
    (i < List.length (Spec.frames_read stream))%nat ->
    nth_error (Vehicle4.vehicle_counter true true window_name stream) i
      = Some (Vehicle4.Put
                (window_name,
                 Some (Z.of_nat i + 1),
                 Vehicle4.counter
                   (fold_left Vehicle4.process_frame
                      (firstn (S i) (Spec.frames_read stream))
                      Vehicle4.initial_counter))).
Proof.
  intros window_name stream i Hi.
  unfold Vehicle4.vehicle_counter. cbn [negb].
  rewrite reading_loop_items.
  destruct (frame_items_shape window_name (Spec.frames_read stream)
              Vehicle4.initial_counter) as [Hlen _].
  rewrite nth_error_app1 by (rewrite length_map, Hlen; exact Hi).
  rewrite nth_error_map.
  rewrite (frame_items_nth window_name _ Vehicle4.initial_counter i Hi).
  reflexivity.
Qed.

(** The second frame of a video with one vehicle on the line in its first
    frame. *)
Lemma published_frames_numbered_witness :
  nth_error
    (Vehicle4.vehicle_counter true true "Lane 1"
       [(false, [(60, 500, 100, 100)]); (false, []); (false, [])]) 1
    = Some (Vehicle4.Put ("Lane 1", Some 2, 1)).
Proof.
  apply (published_frames_numbered "Lane 1"
           [(false, [(60, 500, 100, 100)]); (false, []); (false, [])] 1%nat).
  cbn. lia.
Defined.

(** X12.  The center of an accepted box lies inside the box, at least 40 pixels
    from its left and top edges, and at most half a pixel up and left of
    its true middle. *)
Theorem center_inside_box :
  forall x y w h : Z,
    Vehicle4.accepted_rect (x, y, w, h) = true ->
    x + 40 <= fst (Vehicle4.center_handle x y w h) < x + w
    /\ y + 40 <= snd (Vehicle4.center_handle x y w h) < y + h
    /\ 0 <= 2 * x + w - 2 * fst (Vehicle4.center_handle x y w h) <= 1
    /\ 0 <= 2 * y + h - 2 * snd (Vehicle4.center_handle x y w h) <= 1.
Proof.
  intros x y w h Haccept.
  apply accepted_rect_iff in Haccept. destruct Haccept as [Hw Hh].
  unfold Vehicle4.center_handle. cbn [fst snd].
  rewrite !Z.quot_div_nonneg by lia.
  clear - Hw Hh. Z.div_mod_to_equations. lia.
Qed.

(** The center of a box of 81 by 120 pixels at (10, 20). *)
Lemma center_inside_box_witness :
  10 + 40 <= fst (Vehicle4.center_handle 10 20 81 120) < 10 + 81
  /\ 20 + 40 <= snd (Vehicle4.center_handle 10 20 81 120) < 20 + 120
  /\ 0 <= 2 * 10 + 81 - 2 * fst (Vehicle4.center_handle 10 20 81 120) <= 1
  /\ 0 <= 2 * 20 + 120 - 2 * snd (Vehicle4.center_handle 10 20 81 120) <= 1.
Proof.
  apply (center_inside_box 10 20 81 120). reflexivity.
Defined.

(** ** The display thread when every lane ends *)

(** The items of other lanes do not matter to what is followed of a
    lane. *)
Lemma follow_lane_of_lane (lane : string) (taken : list Vehicle4.item) :
  forall acc : bool * Z,
    fold_left (Spec.follow_lane lane) taken acc
      = fold_left (Spec.follow_lane lane) (Spec.of_lane lane taken) acc.
Proof.
  induction taken as [|it taken IH]; intros acc; [reflexivity |].
  unfold Spec.of_lane. cbn [filter fold_left].
  destruct (String.eqb (Vehicle4.item_lane it) lane) eqn:Hlane.
  - cbn [fold_left]. apply IH.
  - rewrite IH. unfold Spec.of_lane. f_equal.
    unfold Spec.follow_lane. destruct acc as [closed last].
    rewrite Hlane. reflexivity.
Qed.

(** Frames leave a lane open, and the last of them gives its count. *)
Lemma follow_lane_frames (lane : string) (frames : list Vehicle4.item) :
  Forall (fun it => Vehicle4.item_frame it <> None) frames ->
  forall last : Z,
    fst (fold_left (Spec.follow_lane lane) frames (false, last)) = false.
Proof.
  induction frames as [|it frames IH]; intros Hall last; [reflexivity |].
  inversion Hall as [|it' frames' Hit Hrest]; subst.
  cbn [fold_left]. unfold Spec.follow_lane at 2.
  destruct (String.eqb (Vehicle4.item_lane it) lane); [| apply IH; exact Hrest].
  destruct (Vehicle4.item_frame it) as [img |];
    [| contradiction Hit; reflexivity].
  apply IH. exact Hrest.
Qed.

(** The items a counter thread puts on the queue, with the count of the
    final one. *)
Lemma vehicle_counter_put_items (path_exists is_opened : bool)
    (window_name : string) (stream : list (bool * list Vehicle4.rect)) :
  exists frames,
    Spec.put_items
      (Vehicle4.vehicle_counter path_exists is_opened window_name stream)
      = frames
        ++ [(window_name, None,
             Spec.worker_final path_exists is_opened stream)]
    /\ Forall (fun it => Vehicle4.item_frame it <> None) frames.
Proof.
  unfold Vehicle4.vehicle_counter, Spec.worker_final.
  destruct path_exists; cbn [negb andb];
    [| exists []; split; [reflexivity | constructor]].
  destruct is_opened; cbn [negb];
    [| exists []; split; [reflexivity | constructor]].
  rewrite reading_loop_items, put_items_app, put_items_map.
  eexists. split; [reflexivity |].
  destruct (frame_items_shape window_name (Spec.frames_read stream)
              Vehicle4.initial_counter) as [_ Hall].
  eapply Forall_impl; [| exact Hall]. cbn. intros it [_ Hframe]. exact Hframe.
Qed.

(** The loop that runs out of windows has kept its invariant. *)
Lemma display_loop_all_closed (lane_list : list string)
    (envs : list Vehicle4.display_env) :
  forall (arrived : list Vehicle4.item) (st st' : Vehicle4.display_state),
    Spec.display_invariant lane_list arrived st ->
    Vehicle4.display_loop st envs = Vehicle4.AllClosed st' ->
    Vehicle4.windows st' = []
    /\ exists turns rest,
         envs = turns ++ rest
         /\ Spec.display_invariant lane_list
              (arrived ++ List.concat (map Vehicle4.arrivals turns)) st'.
Proof.
  induction envs as [|env envs IH]; intros arrived st st' Hinv Hloop.
  - cbn in Hloop. destruct (Vehicle4.windows st) eqn:Hw; [| discriminate].
    injection Hloop as <-. split; [exact Hw |].
    exists [], []. split; [reflexivity |]. cbn. rewrite app_nil_r. exact Hinv.
  - cbn [Vehicle4.display_loop] in Hloop.
    destruct (Vehicle4.windows st) as [|w ws] eqn:Hw.
    + injection Hloop as <-. split; [exact Hw |].
      exists [], (env :: envs). split; [reflexivity |].
      cbn. rewrite app_nil_r. exact Hinv.
    + destruct (Vehicle4.display_turn st env) as [st1 | st1 wr di] eqn:Hturn;
        [| discriminate].
      destruct (IH _ _ _ (display_turn_next _ _ _ _ _ Hinv Hturn) Hloop)
        as (Hclosed & turns & rest & Hsplit & Hinv').
      split; [exact Hclosed |].
      exists (env :: turns), rest. split; [rewrite Hsplit; reflexivity |].
      cbn [map List.concat]. rewrite app_assoc. exact Hinv'.
Qed.

(** X14.  When the display thread stops because every window is closed, the
    final item of every lane of [lane_list] has been taken and the table
    of counts holds, for each lane, the count of the last of its items
    that was acted on.  If moreover the items of each lane on the queue
    are the first items of one counter thread, the table holds for each
    lane the count that thread ended on: the counter after the last frame
    it read, or 0 for a video that is missing or cannot be opened. *)
Theorem display_all_closed_counts :
  forall (lane_list : list string) (envs : list Vehicle4.display_env)
         (st : Vehicle4.display_state)
         (path_exists is_opened : string -> bool)
         (stream : string -> list (bool * list Vehicle4.rect)),
    Vehicle4.display_frames lane_list envs = Vehicle4.AllClosed st ->
    Vehicle4.windows st = []
    /\ (forall lane,
          In lane lane_list ->
          exists count, In (lane, None, count) (Vehicle4.taken st))
    /\ (forall lane,
          In lane lane_list ->
          getitem (Vehicle4.final_counts st) lane
            = Some (Spec.last_processed lane (Vehicle4.taken st)))
    /\ ((forall lane,
           In lane lane_list ->
           exists more,
             Spec.of_lane lane
               (Vehicle4.taken st ++ Vehicle4.count_queue st) ++ more
             = Spec.put_items
                 (Vehicle4.vehicle_counter (path_exists lane)
                    (is_opened lane) lane (stream lane))) ->
        forall lane,
          In lane lane_list ->
          getitem (Vehicle4.final_counts st) lane
            = Some (Spec.worker_final (path_exists lane) (is_opened lane)
                      (stream lane))).
Proof.
  intros lane_list envs st path_exists is_opened stream Hrun.
  unfold Vehicle4.display_frames in Hrun.
  destruct (initial_counts lane_list) as (Hnodup0 & Hkeys0 & Hzero0).
  cbv zeta in Hnodup0, Hkeys0, Hzero0.
  assert (Hinv : Spec.display_invariant lane_list []
            {| Vehicle4.windows := nodup string_dec lane_list;
               Vehicle4.final_counts :=
                 fold_left (fun d lane => setitem d lane 0) lane_list [];
               Vehicle4.count_queue := [];
               Vehicle4.taken := [] |}).
  { split; [reflexivity |]. split; [exact Hnodup0 |].
    split; [exact Hkeys0 |]. split.
    - cbn [Vehicle4.windows Vehicle4.taken]. intros lane Hin.
      split; [reflexivity |]. intros _. apply nodup_In. exact Hin.
    - intros lane Hin. cbn [Vehicle4.final_counts Vehicle4.taken].
      rewrite (Hzero0 lane Hin). reflexivity. }
  destruct (display_loop_all_closed lane_list envs _ _ _ Hinv Hrun)
    as (Hclosed & turns & rest & _ & (_ & _ & _ & Hopen & Hlast)).
  assert (Hsentinel : forall lane,
            In lane lane_list ->
            exists count, In (lane, None, count) (Vehicle4.taken st)).
  { intros lane Hin. apply closed_after_sentinel.
    destruct (Spec.closed_after lane (Vehicle4.taken st)) eqn:Hc;
      [reflexivity |].
    apply (Hopen lane Hin) in Hc. rewrite Hclosed in Hc. destruct Hc. }
  split; [exact Hclosed |]. split; [exact Hsentinel |].
  split; [exact Hlast |].
  intros Hthreads lane Hin.
  rewrite (Hlast lane Hin). f_equal.
  destruct (Hthreads lane Hin) as [more Hmore].
  destruct (vehicle_counter_put_items (path_exists lane) (is_opened lane)
              lane (stream lane)) as (frames & Hitems & Hframes).
  rewrite Hitems in Hmore. clear Hitems.
  set (final := Spec.worker_final (path_exists lane) (is_opened lane)
                  (stream lane)) in *.
  destruct (Hsentinel lane Hin) as [count Hcount].
  assert (Hmine : In (lane, None, count)
                     (Spec.of_lane lane (Vehicle4.taken st))).
  { apply filter_In. split; [exact Hcount |]. apply String.eqb_refl. }
  apply in_split in Hmine. destruct Hmine as (a & b & Hab).
  unfold Spec.of_lane in Hmore. rewrite filter_app in Hmore.
  fold (Spec.of_lane lane (Vehicle4.taken st)) in Hmore.
  rewrite Hab in Hmore.
  set (tail := b ++ filter
                      (fun it => String.eqb (Vehicle4.item_lane it) lane)
                      (Vehicle4.count_queue st) ++ more).
  assert (Hshape : a ++ (lane, None, count) :: tail
                   = frames ++ [(lane, None, final)]).
  { rewrite <- Hmore. subst tail. rewrite <- !app_assoc. reflexivity. }
  assert (Htail : tail = []).
  { destruct tail as [|t tail'] eqn:Ht; [reflexivity |]. exfalso.
    destruct (exists_last (l := t :: tail')) as (front & z & Hlast');
      [discriminate |].
    rewrite Hlast' in Hshape.
    change (a ++ (lane, None, count) :: front ++ [z])
      with (a ++ ((lane, None, count) :: front) ++ [z]) in Hshape.
    rewrite app_assoc in Hshape.
    apply app_inj_tail in Hshape. destruct Hshape as [Hfront _].
    rewrite Forall_forall in Hframes.
    apply (Hframes (lane, None, count)); [| reflexivity].
    rewrite <- Hfront. apply in_or_app. right. left. reflexivity. }
  rewrite Htail in Hshape.
  apply app_inj_tail in Hshape. destruct Hshape as [Ha Hcnt].
  injection Hcnt as Hcnt.
  assert (Hb : b = []).
  { subst tail. destruct b; [reflexivity | discriminate]. }
  unfold Spec.last_processed. rewrite follow_lane_of_lane, Hab, Hb.
  rewrite fold_left_app. cbn [fold_left].
  pose proof (follow_lane_frames lane a) as Hopen'.
  rewrite Ha in Hopen'. specialize (Hopen' Hframes 0). rewrite Ha.
  assert (Hfinal : forall acc : bool * Z,
            fst acc = false ->
            snd (Spec.follow_lane lane acc (lane, None, count)) = count).
  { intros [closed last] Hacc. cbn [fst] in Hacc. subst closed.
    unfold Spec.follow_lane. cbn [Vehicle4.item_lane Vehicle4.item_frame
                                   Vehicle4.item_counter fst snd].
    rewrite String.eqb_refl. reflexivity. }
  rewrite <- Hcnt. apply Hfinal. exact Hopen'.
Qed.

(** One lane whose video shows a vehicle on the line in its first frame:
    the thread publishes two frames and its final item, the display thread
    takes them and stops with the count 1 in its table. *)
Lemma display_all_closed_counts_witness :
  exists st,
    Vehicle4.display_frames ["Lane 1"]
      [{| Vehicle4.arrivals :=
            Spec.put_items
              (Vehicle4.vehicle_counter true true "Lane 1"
                 [(false, [(60, 500, 100, 100)]); (false, [])]);
          Vehicle4.waitKey := -1;
          Vehicle4.stop_is_set := false |};
       {| Vehicle4.arrivals := [];
          Vehicle4.waitKey := -1;
          Vehicle4.stop_is_set := false |};
       {| Vehicle4.arrivals := [];
          Vehicle4.waitKey := -1;
          Vehicle4.stop_is_set := false |}]
      = Vehicle4.AllClosed st
    /\ getitem (Vehicle4.final_counts st) "Lane 1" = Some 1.
Proof.
  eexists. split; [vm_compute; reflexivity |].
  match goal with
  | |- getitem (Vehicle4.final_counts ?s) _ = _ =>
      destruct (display_all_closed_counts ["Lane 1"]
                  [{| Vehicle4.arrivals :=
                        Spec.put_items
                          (Vehicle4.vehicle_counter true true "Lane 1"
                             [(false, [(60, 500, 100, 100)]); (false, [])]);
                      Vehicle4.waitKey := -1;
                      Vehicle4.stop_is_set := false |};
                   {| Vehicle4.arrivals := [];
                      Vehicle4.waitKey := -1;
                      Vehicle4.stop_is_set := false |};
                   {| Vehicle4.arrivals := [];
                      Vehicle4.waitKey := -1;
                      Vehicle4.stop_is_set := false |}]
                  s (fun _ => true) (fun _ => true)
                  (fun _ => [(false, [(60, 500, 100, 100)]); (false, [])])
                  eq_refl)
        as (_ & _ & _ & Hthreads)
  end.
  apply Hthreads; [| left; reflexivity].
  intros lane [<- | []]. exists []. reflexivity.
Defined.

(** ** The order of the report *)

Lemma keys_setitem_order (d : dict Z) (k : string) (v : Z) :
  exists extra, keys (setitem d k v) = keys d ++ extra.
Proof.
  induction d as [|[k0 v0] d IH].
  - exists [k]. reflexivity.
  - cbn [setitem]. destruct (String.eqb k0 k).
    + exists []. cbn. rewrite app_nil_r. reflexivity.
    + destruct IH as [extra Hextra]. exists extra.
      unfold keys in *. cbn [map fst app]. rewrite Hextra. reflexivity.
Qed.

Lemma keys_setitem_fresh (d : dict Z) (k : string) (v : Z) :
  ~ In k (keys d) -> keys (setitem d k v) = keys d ++ [k].
Proof.
  induction d as [|[k0 v0] d IH]; intros Hfresh.
  - reflexivity.
  - cbn [setitem]. destruct (String.eqb_spec k0 k) as [-> | Hne].
    + contradiction Hfresh. left. reflexivity.
    + unfold keys in *. cbn [map fst app In] in *.
      rewrite IH; [reflexivity |].
      intros Hin. apply Hfresh. right. exact Hin.
Qed.

(** [{lane: 0 for lane in lane_list}] keeps the order of a list without
    repetition. *)
Lemma initial_counts_order (lane_list : list string) :
  forall d : dict Z,
    NoDup (keys d ++ lane_list) ->
    keys (fold_left (fun d lane => setitem d lane 0) lane_list d)
      = keys d ++ lane_list.
Proof.
  induction lane_list as [|lane rest IH]; intros d Hnodup.
  - cbn. rewrite app_nil_r. reflexivity.
  - cbn [fold_left].
    assert (Hfresh : ~ In lane (keys d)).
    { intros Hin. apply NoDup_remove_2 in Hnodup. apply Hnodup.
      apply in_or_app. left. exact Hin. }
    rewrite IH; rewrite (keys_setitem_fresh d lane 0 Hfresh).
    + rewrite <- app_assoc. reflexivity.
    + rewrite <- app_assoc. exact Hnodup.
Qed.

Lemma display_turn_keys (st : Vehicle4.display_state)
    (env : Vehicle4.display_env) :
  match Vehicle4.display_turn st env with
  | Vehicle4.Next st' =>
      exists extra,
        keys (Vehicle4.final_counts st')
          = keys (Vehicle4.final_counts st) ++ extra
  | Vehicle4.Break st' written discarded =>
      exists extra, keys written = keys (Vehicle4.final_counts st) ++ extra
  end.
Proof.
  unfold Vehicle4.display_turn.
  assert (Hsame : forall d : dict Z, exists extra, keys d = keys d ++ extra)
    by (intros d; exists []; rewrite app_nil_r; reflexivity).
  destruct (Vehicle4.count_queue st ++ Vehicle4.arrivals env)
    as [|[[window_name frame] count] rest].
  - destruct (Vehicle4.stop_is_set env); apply Hsame.
  - destruct frame as [img |].
    + destruct ((Z.land (Vehicle4.waitKey env) 255 =? 122)
                || (Z.land (Vehicle4.waitKey env) 255 =? 90));
        cbn [Vehicle4.final_counts]; apply keys_setitem_order.
    + destruct (Vehicle4.in_windows (Vehicle4.windows st) window_name);
        cbn [Vehicle4.final_counts];
        [apply keys_setitem_order | apply Hsame].
Qed.

Lemma display_loop_keys (envs : list Vehicle4.display_env) :
  forall (st st' : Vehicle4.display_state) (written : dict Z)
         (discarded : list Vehicle4.item),
    Vehicle4.display_loop st envs = Vehicle4.Cancelled st' written discarded ->
    exists extra, keys written = keys (Vehicle4.final_counts st) ++ extra.
Proof.
  induction envs as [|env envs IH]; intros st st' written discarded Hloop.
  - cbn in Hloop. destruct (Vehicle4.windows st); discriminate.
  - cbn [Vehicle4.display_loop] in Hloop.
    destruct (Vehicle4.windows st) as [|w ws]; [discriminate |].
    pose proof (display_turn_keys st env) as Hturn.
    destruct (Vehicle4.display_turn st env) as [st1 | st1 wr di].
    + destruct Hturn as [extra1 Hextra1].
      destruct (IH _ _ _ _ Hloop) as [extra Hextra].
      exists (extra1 ++ extra). rewrite Hextra, Hextra1, app_assoc.
      reflexivity.
    + injection Hloop as <- <- <-. exact Hturn.
Qed.

Lemma display_invariant_initial (lane_list : list string) :
  Spec.display_invariant lane_list []
    {| Vehicle4.windows := nodup string_dec lane_list;
       Vehicle4.final_counts :=
         fold_left (fun d lane => setitem d lane 0) lane_list [];
       Vehicle4.count_queue := [];
       Vehicle4.taken := [] |}.
Proof.
  destruct (initial_counts lane_list) as (Hnodup0 & Hkeys0 & Hzero0).
  cbv zeta in Hnodup0, Hkeys0, Hzero0.
  split; [reflexivity |]. split; [exact Hnodup0 |].
  split; [exact Hkeys0 |]. split.
  - cbn [Vehicle4.windows Vehicle4.taken]. intros lane Hin.
    split; [reflexivity |]. intros _. apply nodup_In. exact Hin.
  - intros lane Hin. cbn [Vehicle4.final_counts Vehicle4.taken].
    rewrite (Hzero0 lane Hin). reflexivity.
Qed.

Lemma NoDup_app_disjoint (l l' : list string) (a : string) :
  NoDup (l ++ l') -> In a l' -> ~ In a l.
Proof.
  induction l as [|x l IH]; intros Hnodup Hin' Hin; [destruct Hin |].
  cbn in Hnodup. inversion Hnodup as [|x' l0 Hx Hrest]; subst.
  destruct Hin as [-> | Hin].
  - apply Hx. apply in_or_app. right. exact Hin'.
  - exact (IH Hrest Hin' Hin).
Qed.

(** X15.  The report written on a cancellation lists the lanes of [lane_list]
    first, in the order of the list when it has no repetition; any entry
    after them belongs to a lane that is not in the list. *)
Theorem report_lists_lanes_in_order :
  forall (lane_list : list string) (envs : list Vehicle4.display_env)
         (st : Vehicle4.display_state) (written : dict Z)
         (discarded : list Vehicle4.item),
    NoDup lane_list ->
    Vehicle4.display_frames lane_list envs
      = Vehicle4.Cancelled st written discarded ->
    exists extra,
      keys written = lane_list ++ extra
      /\ forall lane, In lane extra -> ~ In lane lane_list.
Proof.
  intros lane_list envs st written discarded Hnodup Hrun.
  unfold Vehicle4.display_frames in Hrun.
  destruct (display_loop_keys envs _ _ _ _ Hrun) as [extra Hextra].
  cbn [Vehicle4.final_counts] in Hextra.
  rewrite (initial_counts_order lane_list [] Hnodup) in Hextra.
  cbn [keys map app] in Hextra.
  exists extra. split; [exact Hextra |].
  destruct (display_loop_cancelled lane_list envs _ _ _ _ _
              (display_invariant_initial lane_list) Hrun)
    as (_ & _ & _ & Hkeys & _).
  rewrite Hextra in Hkeys.
  intros lane Hin. exact (NoDup_app_disjoint lane_list extra lane Hkeys Hin).
Qed.

(** Lanes 2 and 1 are configured in that order; a frame of lane 1 is
    shown, then a frame of an unknown lane on which [z] is pressed. *)
Lemma report_lists_lanes_in_order_witness :
  exists st extra,
    Vehicle4.display_frames ["Lane 2"; "Lane 1"]
      [{| Vehicle4.arrivals :=
            [("Lane 1", Some 1, 4); ("Lane 9", Some 1, 7)];
          Vehicle4.waitKey := -1;
          Vehicle4.stop_is_set := false |};
       {| Vehicle4.arrivals := [];
          Vehicle4.waitKey := 90;
          Vehicle4.stop_is_set := false |}]
      = Vehicle4.Cancelled st
          [("Lane 2", 0); ("Lane 1", 4); ("Lane 9", 7)] []
    /\ keys [("Lane 2", 0); ("Lane 1", 4); ("Lane 9", 7)]
       = ["Lane 2"; "Lane 1"] ++ extra
    /\ forall lane, In lane extra -> ~ In lane ["Lane 2"; "Lane 1"].
Proof.
  eexists.
  assert (Hnodup : NoDup ["Lane 2"; "Lane 1"]).
  { constructor; [intros [H | []]; discriminate |].
    constructor; [intros [] | constructor]. }
  match goal with
  | |- exists extra, ?run = Vehicle4.Cancelled ?s ?w ?d /\ _ =>
      assert (Hrun : run = Vehicle4.Cancelled s w d)
        by (vm_compute; reflexivity);
      destruct (report_lists_lanes_in_order _ _ _ _ _ Hnodup Hrun)
        as (extra & Hkeys & Hfresh)
  end.
  exists extra. split; [exact Hrun |]. split; assumption.
Defined.

(** ** The report file *)

Lemma app_eq_by_length {A : Type} (l1 : list A) :
  forall l2 r1 r2 : list A,
    List.length l1 = List.length l2 ->
    l1 ++ r1 = l2 ++ r2 ->
    l1 = l2 /\ r1 = r2.
Proof.
  induction l1 as [|a l1 IH]; intros [|b l2] r1 r2 Hlen Heq;
    try discriminate.
  - split; [reflexivity | exact Heq].
  - cbn in Hlen, Heq. injection Hlen as Hlen. injection Heq as -> Heq.
    destruct (IH _ _ _ Hlen Heq) as [-> ->]. split; reflexivity.
Qed.

(** X16.  The file determines the counts.  A line of the [lane_counts] section
    comes from one lane and one count only, whatever characters the lane
    name holds, the count being written in decimal and reading back as the
    same integer; and two tables of counts for which
    [write_counts_table] writes the same strings are the same table, in
    the same order. *)
Theorem written_counts_determined :
  forall (d1 d2 : dict Z),
    (forall lane1 lane2 count1 count2,
       Vehicle4.dict_row (lane1, count1) = Vehicle4.dict_row (lane2, count2) ->
       lane1 = lane2 /\ count1 = count2)
    /\ (forall n,
          option_map Z.of_int (NilEmpty.int_of_string (Vehicle4.str n))
            = Some n)
    /\ (Vehicle4.write_counts_table d1 = Vehicle4.write_counts_table d2 ->
        d1 = d2).
Proof.
  intros d1 d2. split; [apply dict_row_injective |].
  split; [apply str_reads_back |].
  unfold Vehicle4.write_counts_table. cbn [app]. intros Heq.
  injection Heq as Heq.
  assert (Hlen : List.length d1 = List.length d2).
  { apply (f_equal (@List.length string)) in Heq.
    rewrite !length_app, !length_map in Heq. cbn [List.length] in Heq.
    rewrite !length_app, !length_map in Heq. cbn [List.length] in Heq. lia. }
  apply app_eq_by_length in Heq; [| rewrite !length_map; exact Hlen].
  destruct Heq as [_ Heq]. injection Heq as Heq.
  apply app_inj_tail in Heq. destruct Heq as [Heq _].
  clear Hlen. revert d2 Heq.
  induction d1 as [|[lane1 count1] d1 IH]; intros [|[lane2 count2] d2] Heq;
    try discriminate.
  - reflexivity.
  - cbn [map] in Heq.
    pose proof (f_equal (hd EmptyString) Heq) as Hrow.
    apply (f_equal (@tl string)) in Heq. cbn [hd tl] in Hrow, Heq.
    destruct (dict_row_injective _ _ _ _ Hrow) as [-> ->].
    rewrite (IH d2 Heq). reflexivity.
Qed.

(** Two lines of the section that are equal, the lane name holding an
    apostrophe and a colon. *)
Lemma written_counts_determined_witness :
  ("it's: 1" = "it's: 1" /\ -4 = -4)
  /\ [("Lane 1", 7); ("Lane 2", 0)] = [("Lane 1", 7); ("Lane 2", 0)].
Proof.
  split.
  - apply (proj1 (written_counts_determined [] [])
             "it's: 1" "it's: 1" (-4) (-4)).
    reflexivity.
  - apply (proj2 (proj2 (written_counts_determined
                           [("Lane 1", 7); ("Lane 2", 0)]
                           [("Lane 1", 7); ("Lane 2", 0)]))).
    reflexivity.
Defined.
